(** * Ingest pipeline of the image worker: a shallow embedding

    JavaScript numbers are embedded as the numbers they stand for:
    integral quantities (clock readings in milliseconds, byte lengths,
    pixel sizes, HTTP codes, token counts, the catalog's [max_rps]) as
    [Z], confidences and scores as rationals [Q], with exact arithmetic.
    Where the source rounds a quotient or a product of doubles to a whole
    number, the operations are also given in binary64 ([binary64],
    [refillAmount64], [collageHeight]), since the rounding can move the
    whole number by one.  Optional fields are [option]; the truthiness
    tests of the source are written out.  The collaborators the worker talks to
    (catalog, blob store, image library, outbound HTTP, clock, random
    source) answer through an [Env] record, and every call the pipeline
    makes to them is collected, in order, in the list of calls a run
    yields.  Console logging is left out. *)

From Stdlib Require Import ZArith QArith Qround Qabs Qminmax Lia Lqa String Ascii List.
From Stdlib Require Import Floats.SpecFloat.
From stdpp Require Import gmap strings pretty.

Open Scope Z_scope.

(** ** types.ts *)

Inductive Side := front | back | unknown.
Inductive Method := heuristic | vision | manual.
Inductive Status := completed | failed | deduplicated | rejected | rate_limited.
Inductive Variant := thumb | grid | detail.

Record ImageJob := {
  cardId : string;
  sourceUrl : string;
  sourceId : option string;
  sourceName : option string;
  trustTier : option Z;
  priority : option Z;
  cardNumber : option string;
  setCode : option string
}.

Record ProcessResult := {
  status : Status;
  imageId : option string;
  error : option string;
  sha256 : option string;
  detectedSide : option Side;
  confidence : option Q
}.

Record FetchResult := {
  ok : bool;
  bytes : option (list Z);
  contentType : option string;
  fr_error : option string;
  httpStatus : option Z
}.

Record SideDetectionResult := {
  side : Side;
  sd_confidence : Q;
  method : Method
}.

Record ImageMetadata := {
  width : Z;
  height : Z;
  format : string;
  size : Z
}.

Record DerivativeResult := {
  variant : Variant;
  buffer : list Z;
  d_width : Z;
  d_height : Z;
  d_bytes : Z;
  storagePath : string
}.

Record ImageSource := {
  id : string;
  name : string;
  baseUrl : option string;
  src_trustTier : Z;
  maxRps : Z;
  maxConcurrency : Z;
  isAllowed : bool
}.

(** [KNOWN_ERROR_PAYLOADS]: source name to the byte lengths of its
    placeholder responses. *)
Definition KNOWN_ERROR_PAYLOADS : gmap string (list Z) :=
  {[ "pokemontcg_api"%string := [186316] ]}.

(** Truthiness of a JavaScript string: the empty string is falsy. *)
Definition truthy (s : string) : bool :=
  match s with EmptyString => false | _ => true end.

Definition truthy_opt (s : option string) : bool :=
  match s with Some s' => truthy s' | None => false end.

(** Truthiness of an optional number: [undefined] and [0] are falsy. *)
Definition truthy_num (n : option Z) : bool :=
  match n with Some z => negb (z =? 0) | None => false end.

(** What template literals print for the enumerations and booleans. *)
Definition Side_toString (s : Side) : string :=
  match s with front => "front" | back => "back" | unknown => "unknown" end.

Definition Variant_toString (v : Variant) : string :=
  match v with thumb => "thumb" | grid => "grid" | detail => "detail" end.

Definition Method_toString (m : Method) : string :=
  match m with heuristic => "heuristic" | vision => "vision" | manual => "manual" end.

Definition Boolean_toString (b : bool) : string :=
  if b then "true" else "false".

Definition Side_eqb (a b : Side) : bool :=
  match a, b with
  | front, front | back, back | unknown, unknown => true
  | _, _ => false
  end.

(** [Number.prototype.toFixed(2)] on a rational: the integer [n] with
    [n / 100] nearest to the value, the larger one on a tie, printed with
    two decimals; a negative value prints its sign first. *)
Definition toFixed2_abs (q : Q) : string :=
  let n := Qfloor (q * 100 + (1 # 2)) in
  let whole := n `div` 100 in
  let frac := n `mod` 100 in
  pretty whole +:+ "." +:+ pretty (frac `div` 10) +:+ pretty (frac `mod` 10).

Definition toFixed2 (q : Q) : string :=
  if Qle_bool 0 q then toFixed2_abs q else "-" +:+ toFixed2_abs (- q).

(** ** config.ts *)

Module config.
Definition maxImagePixels : Z := 20000000.
Definition derivativeSizes (v : Variant) : Z * Z :=
  match v with
  | thumb => (160, 75)
  | grid => (360, 80)
  | detail => (960, 80)
  end.
Definition minConfidenceForAssignment : Q := 0.85.
Definition visionCheckLowerBound : Q := 0.6.
Definition visionCheckUpperBound : Q := 0.9.
Definition cardImagesBucket : string := "card-images".
Definition visionModel : string := "google/gemini-2.5-flash-preview".
End config.

(** ** Doubles

    IEEE 754 binary64 as the Standard Library specifies it: round to
    nearest, ties to even.  An integer below 2^53 in size is a double;
    [ofZ] gives the double nearest to any integer. *)

(** What [Math.floor], [Math.ceil] and [Math.round] can yield. *)
Inductive Integral := Int (z : Z) | PlusInfinity | MinusInfinity | NotANumber.

Module binary64.
Definition prec : Z := 53.
Definition emax : Z := 1024.

Definition ofZ (z : Z) : spec_float := binary_normalize prec emax z 0 false.

Definition mul (x y : spec_float) : spec_float := SFmul prec emax x y.

Definition div (x y : spec_float) : spec_float := SFdiv prec emax x y.

(** [Math.floor]: a finite double is [m * 2^e] with the sign [s]. *)
Definition floor (x : spec_float) : Integral :=
  match x with
  | S754_zero _ => Int 0
  | S754_finite s m e =>
      let v := cond_Zopp s (Zpos m) in
      Int (if 0 <=? e then v * 2 ^ e else v `div` 2 ^ (- e))
  | S754_infinity false => PlusInfinity
  | S754_infinity true => MinusInfinity
  | S754_nan => NotANumber
  end.

(** [Math.round]: the nearest integer, a tie going up; that is the floor
    of [x + 1/2] taken exactly. *)
Definition round (x : spec_float) : Integral :=
  match x with
  | S754_zero _ => Int 0
  | S754_finite s m e =>
      let v := cond_Zopp s (Zpos m) in
      Int (if 0 <=? e then v * 2 ^ e else (2 * v + 2 ^ (- e)) `div` 2 ^ (1 - e))
  | S754_infinity false => PlusInfinity
  | S754_infinity true => MinusInfinity
  | S754_nan => NotANumber
  end.
End binary64.

(** ** utils/rate-limit.ts *)

Record TokenBucket := {
  tokens : Z;
  lastRefill : Z;
  maxTokens : Z;
  refillRate : Z
}.

Definition CACHE_DURATION_MS : Z := 60000.

(** [now] is the reading of [Date.now()] the source takes inside. *)
Definition initBucket (sourceId : string) (maxRps : Z) (now : Z)
    (buckets : gmap string TokenBucket) : gmap string TokenBucket :=
  <[ sourceId := {| tokens := maxRps; lastRefill := now;
                    maxTokens := maxRps; refillRate := maxRps |} ]> buckets.

(** The seconds since the last refill, and the whole tokens they earn,
    in exact arithmetic.  The source takes the quotient and the product
    in doubles: that is [refillAmount64] below. *)
Definition refillAmount (bucket : TokenBucket) (now : Z) : Z :=
  let elapsed := (inject_Z (now - lastRefill bucket) / 1000)%Q in
  Qfloor (elapsed * inject_Z (refillRate bucket)).

Definition refillBucket (bucket : TokenBucket) (now : Z) : TokenBucket :=
  let refill := refillAmount bucket now in
  if 0 <? refill then
    {| tokens := Z.min (maxTokens bucket) (tokens bucket + refill);
       lastRefill := now;
       maxTokens := maxTokens bucket;
       refillRate := refillRate bucket |}
  else bucket.

Definition debit (bucket : TokenBucket) : TokenBucket :=
  {| tokens := tokens bucket - 1;
     lastRefill := lastRefill bucket;
     maxTokens := maxTokens bucket;
     refillRate := refillRate bucket |}.

(** The bucket object is mutated in place; the map is updated at its key. *)
Definition tryAcquire (sourceId : string) (now : Z)
    (buckets : gmap string TokenBucket) : bool * gmap string TokenBucket :=
  match buckets !! sourceId with
  | None => (true, buckets)
  | Some bucket =>
      let bucket1 := refillBucket bucket now in
      if 0 <? tokens bucket1
      then (true, <[ sourceId := debit bucket1 ]> buckets)
      else (false, <[ sourceId := bucket1 ]> buckets)
  end.

(** [tryAcquire] with the arithmetic of the source: the quotient
    [(now - lastRefill) / 1000] and its product with [refillRate] are
    doubles, and [Math.floor] is taken of the rounded product. *)
Definition refillAmount64 (bucket : TokenBucket) (now : Z) : Integral :=
  let elapsed := binary64.div (binary64.ofZ (now - lastRefill bucket))
                   (binary64.ofZ 1000) in
  binary64.floor (binary64.mul elapsed (binary64.ofZ (refillRate bucket))).

(** [refill > 0] holds of a positive integer and of [Infinity], for which
    [Math.min(maxTokens, tokens + Infinity)] is [maxTokens]; it fails of
    [NaN]. *)
Definition refillBucket64 (bucket : TokenBucket) (now : Z) : TokenBucket :=
  match refillAmount64 bucket now with
  | Int refill =>
      if 0 <? refill then
        {| tokens := Z.min (maxTokens bucket) (tokens bucket + refill);
           lastRefill := now;
           maxTokens := maxTokens bucket;
           refillRate := refillRate bucket |}
      else bucket
  | PlusInfinity =>
      {| tokens := maxTokens bucket;
         lastRefill := now;
         maxTokens := maxTokens bucket;
         refillRate := refillRate bucket |}
  | MinusInfinity | NotANumber => bucket
  end.

Definition tryAcquire64 (sourceId : string) (now : Z)
    (buckets : gmap string TokenBucket) : bool * gmap string TokenBucket :=
  match buckets !! sourceId with
  | None => (true, buckets)
  | Some bucket =>
      let bucket1 := refillBucket64 bucket now in
      if 0 <? tokens bucket1
      then (true, <[ sourceId := debit bucket1 ]> buckets)
      else (false, <[ sourceId := bucket1 ]> buckets)
  end.

(** A JavaScript number that is an integer or [Infinity] (from [1000 / 0]). *)
Inductive WaitTime := Millis (ms : Z) | Infinity.

Definition WaitTime_toString (w : WaitTime) : string :=
  match w with Millis ms => pretty ms | Infinity => "Infinity" end.

(** [Math.ceil(1000 / refillRate)]; the ceiling of [a / b] is
    [- ((- a) div b)] for a floor division [div]. *)
Definition getWaitTime (sourceId : string)
    (buckets : gmap string TokenBucket) : WaitTime :=
  match buckets !! sourceId with
  | None => Millis 0
  | Some bucket =>
      if 0 <? tokens bucket then Millis 0
      else if refillRate bucket =? 0 then Infinity
      else Millis (- ((- 1000) `div` refillRate bucket))
  end.

(** The periodic cleanup: buckets idle for more than a minute are dropped. *)
Definition sweep (now : Z) (buckets : gmap string TokenBucket)
    : gmap string TokenBucket :=
  filter (fun kb => negb (CACHE_DURATION_MS <? now - lastRefill (snd kb)) = true) buckets.

(** ** utils/hash.ts *)

Definition getStoragePathPrefix (sha : string) : string :=
  String.substring 0 2 sha.

Definition getDerivativeStoragePath (sha : string) (v : Variant) : string :=
  "derivatives/" +:+ getStoragePathPrefix sha +:+ "/" +:+ sha +:+ "/"
    +:+ Variant_toString v +:+ ".webp".

(** ** pipeline/fetch.ts *)

(** What the single GET can come to: the request fails or is aborted by
    the 30 s timer, or a response arrives whose body is read or fails to
    be read. *)
Inductive BodyOutcome :=
| BodyBytes (b : list Z)
| BodyError (message : string).

Inductive HttpOutcome :=
| NetworkError (message : string)
| Response (statusCode : Z) (contentTypeHeader : option string) (body : BodyOutcome).

Definition FETCH_TIMEOUT_MS : Z := 30000.

(** [response.ok]. *)
Definition response_ok (statusCode : Z) : bool :=
  (200 <=? statusCode) && (statusCode <=? 299).

Definition Zlength_bytes (b : list Z) : Z := Z.of_nat (length b).

(** The table is read at its own keys; source names are not names that a
    JavaScript object inherits. *)
Definition isKnownErrorPayload (b : list Z) (sourceName : string) : bool :=
  match KNOWN_ERROR_PAYLOADS !! sourceName with
  | None => false
  | Some errorSizes => existsb (Z.eqb (Zlength_bytes b)) errorSizes
  end.

Definition fetchFailure (message : string) (st : option Z) : FetchResult :=
  {| ok := false; bytes := None; contentType := None;
     fr_error := Some message; httpStatus := st |}.

Definition fetchImage (outcome : HttpOutcome) (sourceName : option string)
    : FetchResult :=
  match outcome with
  | NetworkError message => fetchFailure message None
  | Response statusCode header body =>
      if negb (response_ok statusCode) then
        fetchFailure ("HTTP " +:+ pretty statusCode) (Some statusCode)
      else
        let contentType := match header with Some h => if truthy h then h else EmptyString | None => EmptyString end in
        if negb (String.prefix "image/" contentType) then
          fetchFailure ("Invalid content type: " +:+ contentType) (Some statusCode)
        else
          match body with
          | BodyError message => fetchFailure message None
          | BodyBytes b =>
              if truthy_opt sourceName
                 && isKnownErrorPayload b (default EmptyString sourceName)
              then fetchFailure "known_error_payload" (Some statusCode)
              else {| ok := true; bytes := Some b;
                      contentType := Some contentType;
                      fr_error := None; httpStatus := Some statusCode |}
          end
  end.

(** ** pipeline/decode.ts *)

(** [sharp(buffer).metadata()]: it throws, or reports dimensions and a
    format, each of which may be missing. *)
Inductive SharpMetadata :=
| MetadataThrows (message : string)
| Metadata (w h : option Z) (fmt : option string).

Definition decodeImage (m : SharpMetadata) (b : list Z)
    : ImageMetadata + string :=
  match m with
  | MetadataThrows message => inr message
  | Metadata w h fmt =>
      if negb (truthy_num w) || negb (truthy_num h) then
        inr "Could not determine image dimensions"%string
      else
        let w' := default 0 w in
        let h' := default 0 h in
        let pixels := w' * h' in
        if config.maxImagePixels <? pixels then
          inr ("Image too large: " +:+ pretty pixels +:+ " pixels (max: "
                 +:+ pretty config.maxImagePixels +:+ ")")
        else
          inl {| width := w'; height := h';
                 format := match fmt with
                           | Some f => if truthy f then f else "unknown"
                           | None => "unknown"
                           end;
                 size := Zlength_bytes b |}
  end.

Definition getAspectRatio (w h : Z) : Q := inject_Z w / inject_Z h.

(** ** pipeline/detect-side.ts *)

Definition EXPECTED_CARD_ASPECT_RATIO : Q := 0.716.
Definition ASPECT_RATIO_TOLERANCE : Q := 0.08.

Definition Qltb (x y : Q) : bool := negb (Qle_bool y x).

(** A pixel read from the raw buffer; a read past its end is
    [undefined], here [None]. *)
Record Pixel := { r : option Z; g : option Z; b : option Z }.

Record BorderAnalysis := {
  isBlueBack : bool;
  hasYellowBorder : bool;
  hasVariedColors : bool;
  dominantHue : option Q
}.

Definition extractBorderPixels (buf : list Z) (w h : Z) : list Pixel :=
  let borderSize := w `div` 10 in
  flat_map (fun y =>
    flat_map (fun x =>
      let inBorder := (x <? borderSize) || (w - borderSize <=? x)
                      || (y <? borderSize) || (h - borderSize <=? y) in
      if inBorder then
        let idx := Z.to_nat ((y * w + x) * 3) in
        [ {| r := buf !! idx; g := buf !! (idx + 1)%nat; b := buf !! (idx + 2)%nat |} ]
      else [])
      (seqZ 0 w))
    (seqZ 0 h).

(** Rounding toward zero, and the remainder [x % 6] of JavaScript, which
    takes the sign of [x]. *)
Definition Qtruncate (x : Q) : Z :=
  if Qle_bool 0 x then Qfloor x else Qceiling x.

Definition rem6 (x : Q) : Q := x - inject_Z (6 * Qtruncate (x / 6)).

(** [None] is [NaN]: some channel was [undefined].  The hue is kept in
    lowest terms. *)
Definition rgbToHue (p : Pixel) : option Q :=
  match r p, g p, b p with
  | Some r, Some g, Some b =>
      let max := Z.max (Z.max r g) b in
      let min := Z.min (Z.min r g) b in
      let delta := max - min in
      if delta =? 0 then Some 0%Q
      else
        let hue :=
          if max =? r then rem6 (inject_Z (g - b) / inject_Z delta)
          else if max =? g then (inject_Z (b - r) / inject_Z delta + 2)%Q
          else (inject_Z (r - g) / inject_Z delta + 4)%Q in
        Some (Qred (hue * 60))
  | _, _, _ => None
  end.

Definition isBlue (p : Pixel) : bool :=
  match r p, g p, b p with
  | Some r, Some g, Some b =>
      (120 <? b) && Qltb (inject_Z r * 1.5) (inject_Z b)
                 && Qltb (inject_Z g * 1.2) (inject_Z b)
  | _, _, _ => false
  end.

Definition isYellow (p : Pixel) : bool :=
  match r p, g p, b p with
  | Some r, Some g, Some b => (180 <? r) && (150 <? g) && (b <? 100)
  | _, _, _ => false
  end.

(** [hueHistogram[hueBucket]++] on the array of twelve counters: an index
    that is negative or [NaN] sets a property outside the array and
    leaves the twelve counters as they are. *)
Definition bumpHistogram (hist : list Z) (hue : option Q) : list Z :=
  match hue with
  | None => hist
  | Some h =>
      let hueBucket := Qfloor (h / 30) in
      if hueBucket <? 0 then hist
      else match hist !! Z.to_nat hueBucket with
           | Some c => <[ Z.to_nat hueBucket := c + 1 ]> hist
           | None => hist
           end
  end.

Definition sumHue (total : option Q) (hue : option Q) : option Q :=
  match total, hue with
  | Some t, Some h => Some (Qred (t + h))
  | _, _ => None
  end.

Definition analyzePixelColors (pixels : list Pixel) : BorderAnalysis :=
  let blueCount := Z.of_nat (length (filter (fun p => isBlue p = true) pixels)) in
  let yellowCount := Z.of_nat (length (filter (fun p => isYellow p = true) pixels)) in
  let totalHue := fold_left (fun t p => sumHue t (rgbToHue p)) pixels (Some 0%Q) in
  let hueHistogram :=
    fold_left (fun hist p => bumpHistogram hist (rgbToHue p)) pixels (replicate 12 0) in
  let len := Z.of_nat (length pixels) in
  let blueRatio := (inject_Z blueCount / inject_Z len)%Q in
  let yellowRatio := (inject_Z yellowCount / inject_Z len)%Q in
  let maxBucket := fold_right Z.max 0 hueHistogram in
  {| isBlueBack := Qltb 0.5 blueRatio;
     hasYellowBorder := Qltb 0.3 yellowRatio;
     hasVariedColors := Qltb (inject_Z maxBucket) (inject_Z len * 0.4);
     dominantHue :=
       if len =? 0 then None
       else option_map (fun t => (t / inject_Z len)%Q) totalHue |}.

(** [raw64] is what the image library returns for the 64 x 64 raw
    downscale, [None] when it throws. *)
Definition analyzeBorderColors (raw64 : option (list Z)) : option BorderAnalysis :=
  option_map (fun small => analyzePixelColors (extractBorderPixels small 64 64)) raw64.

(** The score and the aspect test are taken in exact arithmetic.  In
    doubles the test [aspectDiff <= 0.08] fails at a ratio of exactly
    0.796 (796 x 1000), where the difference of the two doubles is just
    above the double of 0.08, and the confidence of a blue back of
    matching ratio is the double just below 0.9. *)
Definition detectSide (raw64 : option (list Z)) (metadata : ImageMetadata)
    : SideDetectionResult :=
  let score0 := 0%Q in
  let aspectRatio := (inject_Z (width metadata) / inject_Z (height metadata))%Q in
  let aspectDiff := Qabs (aspectRatio - EXPECTED_CARD_ASPECT_RATIO) in
  let score1 := if Qle_bool aspectDiff ASPECT_RATIO_TOLERANCE
                then (score0 + 0.2)%Q else score0 in
  match analyzeBorderColors raw64 with
  | None => {| side := unknown; sd_confidence := 0.5; method := heuristic |}
  | Some borderAnalysis =>
      let score :=
        if isBlueBack borderAnalysis then (score1 - 0.6)%Q
        else if hasYellowBorder borderAnalysis then (score1 + 0.3)%Q
        else if hasVariedColors borderAnalysis then (score1 + 0.2)%Q
        else score1 in
      if Qle_bool 0.3 score then
        {| side := front; sd_confidence := Qmin 0.95 (0.5 + score); method := heuristic |}
      else if Qle_bool score (- 0.3) then
        {| side := back; sd_confidence := Qmin 0.95 (0.5 + Qabs score); method := heuristic |}
      else
        {| side := unknown; sd_confidence := 0.5; method := heuristic |}
  end.

(** ** pipeline/collage.ts *)

(** Sum of one column of the edge image, [None] ([NaN]) when a read falls
    outside the buffer. *)
Definition columnSum (edges : list Z) (w h x : Z) : option Z :=
  fold_left (fun acc y =>
               match acc, edges !! Z.to_nat (y * w + x) with
               | Some s, Some e => Some (s + e)
               | _, _ => None
               end)
            (seqZ 0 h) (Some 0).

(** [Math.round(200 / aspectRatio)] for [aspectRatio = width / height],
    both quotients taken in doubles. *)
Definition collageHeight (w h : Z) : Integral :=
  binary64.round
    (binary64.div (binary64.ofZ 200) (binary64.div (binary64.ofZ w) (binary64.ofZ h))).

(** [sobel h] is the raw output of the grayscale, 200 x [h], Sobel-filtered
    rendering of the image, [None] when the image library throws, as it
    does when asked for a height that is not a number.  The comparisons
    (the aspect ratio with 1.5 and 0.4, a column mean with 100, the edge
    ratio with 0.15) are exact: between whole numbers of the size of pixel
    counts they come out in doubles as they do exactly, 18 / 120 being
    rounded to the double that 0.15 denotes. *)
Definition detectCollage (m : SharpMetadata) (sobel : Z -> option (list Z)) : bool :=
  match m with
  | MetadataThrows _ => false
  | Metadata mw mh _ =>
      if negb (truthy_num mw) || negb (truthy_num mh) then false
      else
        let aspectRatio := getAspectRatio (default 0 mw) (default 0 mh) in
        if Qltb 1.5 aspectRatio || Qltb aspectRatio 0.4 then true
        else
          let w := 200 in
          match collageHeight (default 0 mw) (default 0 mh) with
          | Int h =>
          match sobel h with
          | None => false
          | Some edges =>
              let middleStart := 40 in
              let middleEnd := 160 in
              let threshold := 100%Q in
              let strongEdgeColumns :=
                Z.of_nat (length (filter (fun x =>
                  match columnSum edges w h x with
                  | Some s => Qltb threshold (inject_Z s / inject_Z h)
                  | None => false
                  end = true) (seqZ middleStart (middleEnd - middleStart)))) in
              let edgeRatio :=
                (inject_Z strongEdgeColumns / inject_Z (middleEnd - middleStart))%Q in
              Qltb 0.15 edgeRatio
          end
          | PlusInfinity | MinusInfinity | NotANumber => false
          end
  end.

(** ** pipeline/vision.ts *)

(** The chat-completions call: it fails (transport, unreadable or
    ill-shaped body), answers with a status that is not 2xx, or yields
    the content of the first choice, which may be absent. *)
Inductive VisionReply :=
| VisionThrows
| VisionNotOk (statusCode : Z)
| VisionContent (content : option string).

Fixpoint includes (needle hay : string) : bool :=
  String.prefix needle hay
  || match hay with
     | EmptyString => false
     | String _ rest => includes needle rest
     end.

(** Answers are read as ASCII text. *)
Definition toUpperCase_ascii (c : ascii) : ascii :=
  let n := nat_of_ascii c in
  if ((97 <=? n) && (n <=? 122))%nat then ascii_of_nat (n - 32) else c.

Fixpoint toUpperCase (s : string) : string :=
  match s with
  | EmptyString => EmptyString
  | String c rest => String (toUpperCase_ascii c) (toUpperCase rest)
  end.

Definition isWhiteSpace (c : ascii) : bool :=
  let n := nat_of_ascii c in
  ((n =? 32) || ((9 <=? n) && (n <=? 13)))%nat.

Fixpoint trimStart (s : string) : string :=
  match s with
  | String c rest => if isWhiteSpace c then trimStart rest else s
  | EmptyString => EmptyString
  end.

Definition trim (s : string) : string :=
  String.rev (trimStart (String.rev (trimStart s))).

(** The double quote, for the prompts that quote their keywords. *)
Definition dquote : string := String "034"%char EmptyString.

Definition quoted (s : string) : string := dquote +:+ s +:+ dquote.

Definition visionPrompt (job : ImageJob) (tier : Z) : string :=
  let base := "Is this the front of a PokÃ©mon trading card? "
              +:+ "Answer with only " +:+ quoted "FRONT" +:+ ", "
              +:+ quoted "BACK" +:+ ", or " +:+ quoted "UNKNOWN" +:+ ". " in
  match cardNumber job, setCode job with
  | Some cn, Some sc =>
      if (2 <=? tier) && truthy cn && truthy sc then
        base +:+ "Also verify: does this appear to be card number " +:+ cn
             +:+ " from set " +:+ sc +:+ "? "
             +:+ "If the card number/set don't match, answer "
             +:+ quoted "WRONG_CARD" +:+ "."
      else base
  | _, _ => base
  end.

Definition visionFallback : SideDetectionResult :=
  {| side := unknown; sd_confidence := 0.5; method := vision |}.

Definition checkWithVision (apiKey : string) (reply : VisionReply)
    : SideDetectionResult :=
  if negb (truthy apiKey) then visionFallback
  else
    match reply with
    | VisionThrows => visionFallback
    | VisionNotOk _ => visionFallback
    | VisionContent content =>
        let answer := match content with
                      | Some c => toUpperCase (trim c)
                      | None => EmptyString
                      end in
        if includes "FRONT" answer then
          {| side := front; sd_confidence := 0.95; method := vision |}
        else if includes "BACK" answer then
          {| side := back; sd_confidence := 0.95; method := vision |}
        else if includes "WRONG_CARD" answer then
          {| side := unknown; sd_confidence := 0.3; method := vision |}
        else visionFallback
    end.

(** [random] is the value [Math.random()] would yield. *)
Definition shouldRunVisionCheck (random : Q) (tier : Z) (currentConfidence : Q)
    (sampleRate : Q) : bool :=
  if tier =? 1 then false
  else if tier =? 3 then true
  else if Qle_bool config.visionCheckLowerBound currentConfidence
          && Qltb currentConfidence config.visionCheckUpperBound
       then true
  else Qltb random sampleRate.

(** ** storage/derivatives.ts *)

(** Resizing to a width and encoding as WebP, then reading the metadata of
    the result: one of the two throws, or the encoded bytes come with the
    dimensions read back (possibly missing). *)
Inductive SharpResize :=
| ResizeThrows (message : string)
| Resized (processed : list Z) (mw mh : option Z).

Definition variants : list Variant := [thumb; grid; detail].

Fixpoint generateLoop (resize : Z -> Z -> SharpResize) (sha : string)
    (originalWidth : Z) (todo : list Variant) (results : list DerivativeResult)
    : list DerivativeResult + string :=
  match todo with
  | [] => inl results
  | v :: rest =>
      let settings := config.derivativeSizes v in
      let targetWidth := Z.min (fst settings) originalWidth in
      match resize targetWidth (snd settings) with
      | ResizeThrows message => inr message
      | Resized processed mw mh =>
          generateLoop resize sha originalWidth rest
            (results ++
             [ {| variant := v;
                  buffer := processed;
                  d_width := if truthy_num mw then default 0 mw else targetWidth;
                  d_height := if truthy_num mh then default 0 mh else 0;
                  d_bytes := Zlength_bytes processed;
                  storagePath := getDerivativeStoragePath sha v |} ])
      end
  end.

(** [resize w q] stands for the library call on the job's buffer with
    [fit: 'inside'] and [withoutEnlargement]. *)
Definition generateDerivatives (resize : Z -> Z -> SharpResize) (sha : string)
    (originalWidth : Z) : list DerivativeResult + string :=
  generateLoop resize sha originalWidth variants [].

(** ** db/queries.ts and storage/upload.ts: the calls and their arguments *)

Inductive EventMetadata :=
| FetchedMeta (nbytes : Z) (ctype : option string)
| ValidationMeta (w h : Z) (s : Side) (c : Q) (isCollage : bool) (m : Method)
| CountMeta (count : Z)
| ElapsedMeta (elapsed_ms : Z).

Record IngestEvent := {
  ev_cardId : option string;
  ev_imageId : option string;
  eventType : string;
  message : option string;
  ev_httpStatus : option Z;
  metadata : option EventMetadata
}.

Record ImageRecord := {
  ir_sha256 : string;
  originalMime : string;
  originalWidth : Z;
  originalHeight : Z;
  originalBytes : Z;
  ir_status : string;
  ir_detectedSide : Side;
  sideConfidence : Q;
  ir_isCollage : bool;
  detectedMethod : Method
}.

Record DerivativeRecord := {
  dr_imageId : string;
  dr_variant : Variant;
  dr_format : string;
  dr_width : Z;
  dr_height : Z;
  dr_bytes : Z;
  dr_storagePath : string
}.

Record Assignment := {
  as_cardId : string;
  as_imageId : string;
  role : string;
  as_sourceId : option string;
  as_sourceUrl : option string
}.

(** One entry per call the pipeline makes to a collaborator or a stage. *)
Inductive Call :=
| CLogIngestEvent (e : IngestEvent)
| CGetImageSource (sourceId : string)
| CGetImageSourceByName (name : string)
| CFetchImage (url : string) (sourceName : string)
| CFindImageBySha256 (sha : string)
| CAssignImageToCard (a : Assignment)
| CDecodeImage
| CDetectSide
| CDetectCollage
| CCheckWithVision (tier : Z)
| CCreateImageRecord (rec : ImageRecord)
| CGenerateDerivatives (buf : list Z) (sha : string) (originalWidth : Z)
| CUpload (bucket : string) (path : string)
| CCreateDerivativeRecord (rec : DerivativeRecord)
| CUpdateImageStatus (imageId : string) (status : string).

(** A blob-store PUT: stored, answered with an error, or thrown. *)
Inductive UploadOutcome :=
| Uploaded
| UploadError (message : string)
| UploadThrows (message : string).

(** The answers of the collaborators during one job.  A catalog write
    answers [None] on success and [Some message] on error. *)
Record Env := {
  now_startTime : Z;
  now_initBucket : Z;
  now_tryAcquire : Z;
  now_completed : Z;
  Math_random : Q;
  Number_toString : Q -> string;
  openrouterApiKey : string;
  computeSha256 : list Z -> string;
  select_imageSource : string -> option ImageSource;
  select_imageSourceByName : string -> option ImageSource;
  select_imageBySha256 : string -> option string;
  insert_image : ImageRecord -> string + string;
  insert_derivative : DerivativeRecord -> option string;
  upsert_cardImage : Assignment -> option string;
  storage_upload : string -> list Z -> UploadOutcome;
  http_get : string -> HttpOutcome;
  sharp_metadata : list Z -> SharpMetadata;
  sharp_raw64 : list Z -> option (list Z);
  sharp_sobel : list Z -> Z -> option (list Z);
  sharp_resize_webp : list Z -> Z -> Z -> SharpResize;
  vision_post : string -> list Z -> VisionReply
}.

(** ** The effects of the pipeline: rate-limiter state, calls, exceptions *)

Inductive Outcome (A : Type) :=
| Returned (a : A)
| Thrown (message : string).
Arguments Returned {A} a.
Arguments Thrown {A} message.

(** A computation reads and updates the bucket map of the process, and
    yields its outcome together with the calls it made. *)
Definition M (A : Type) : Type :=
  gmap string TokenBucket -> Outcome A * gmap string TokenBucket * list Call.

Definition ret {A} (a : A) : M A := fun bs => (Returned a, bs, []).

Definition throw {A} (message : string) : M A := fun bs => (Thrown message, bs, []).

Definition bind {A B} (m : M A) (k : A -> M B) : M B :=
  fun bs =>
    match m bs with
    | (Returned a, bs1, calls1) =>
        match k a bs1 with
        | (out, bs2, calls2) => (out, bs2, calls1 ++ calls2)
        end
    | (Thrown message, bs1, calls1) => (Thrown message, bs1, calls1)
    end.

Definition tryCatch {A} (m : M A) (handler : string -> M A) : M A :=
  fun bs =>
    match m bs with
    | (Returned a, bs1, calls1) => (Returned a, bs1, calls1)
    | (Thrown message, bs1, calls1) =>
        match handler message bs1 with
        | (out, bs2, calls2) => (out, bs2, calls1 ++ calls2)
        end
    end.

Definition call (c : Call) : M unit := fun bs => (Returned tt, bs, [c]).

Definition getBuckets : M (gmap string TokenBucket) :=
  fun bs => (Returned bs, bs, []).

Definition setBuckets (bs' : gmap string TokenBucket) : M unit :=
  fun _ => (Returned tt, bs', []).

Definition outcomeOf {A} (run : Outcome A * gmap string TokenBucket * list Call)
    : Outcome A := fst (fst run).

Definition bucketsOf {A} (run : Outcome A * gmap string TokenBucket * list Call)
    : gmap string TokenBucket := snd (fst run).

Definition callsOf {A} (run : Outcome A * gmap string TokenBucket * list Call)
    : list Call := snd run.

Declare Scope pipeline_scope.
Delimit Scope pipeline_scope with pipeline.
Notation "'let*' x ':=' m 'in' k" := (bind m (fun x => k))
  (at level 10, x name, m at level 100, k at level 200) : pipeline_scope.
Notation "m ';;' k" := (bind m (fun _ => k))
  (at level 100, k at level 200, right associativity) : pipeline_scope.
Open Scope pipeline_scope.

(** *** db/queries.ts *)

Definition findImageBySha256 (env : Env) (sha : string) : M (option string) :=
  call (CFindImageBySha256 sha);;
  ret (select_imageBySha256 env sha).

Definition getImageSource (env : Env) (sourceId : string) : M (option ImageSource) :=
  call (CGetImageSource sourceId);;
  ret (select_imageSource env sourceId).

Definition getImageSourceByName (env : Env) (name : string) : M (option ImageSource) :=
  call (CGetImageSourceByName name);;
  ret (select_imageSourceByName env name).

Definition createImageRecord (env : Env) (params : ImageRecord) : M string :=
  call (CCreateImageRecord params);;
  match insert_image env params with
  | inl newId => ret newId
  | inr message => throw ("Failed to create image record: " +:+ message)
  end.

(** A failed update is logged and swallowed. *)
Definition updateImageStatus (imageId : string) (status : string) : M unit :=
  call (CUpdateImageStatus imageId status).

Definition createDerivativeRecord (env : Env) (params : DerivativeRecord) : M unit :=
  call (CCreateDerivativeRecord params);;
  match insert_derivative env params with
  | None => ret tt
  | Some message => throw ("Failed to create derivative record: " +:+ message)
  end.

Definition assignImageToCard (env : Env) (params : Assignment) : M unit :=
  call (CAssignImageToCard params);;
  match upsert_cardImage env params with
  | None => ret tt
  | Some message => throw ("Failed to assign image to card: " +:+ message)
  end.

(** A failed insert of an event is logged and swallowed. *)
Definition logIngestEvent (e : IngestEvent) : M unit :=
  call (CLogIngestEvent e).

Definition event (card : string) (image : option string) (type : string)
    (msg : option string) (st : option Z) (md : option EventMetadata) : IngestEvent :=
  {| ev_cardId := Some card; ev_imageId := image; eventType := type;
     message := msg; ev_httpStatus := st; metadata := md |}.

(** *** storage/upload.ts *)

Fixpoint uploadDerivatives (env : Env) (derivatives : list DerivativeResult) : M unit :=
  match derivatives with
  | [] => ret tt
  | derivative :: rest =>
      call (CUpload config.cardImagesBucket (storagePath derivative));;
      match storage_upload env (storagePath derivative) (buffer derivative) with
      | UploadError message => throw ("Upload failed: " +:+ message)
      | UploadThrows message => throw message
      | Uploaded => uploadDerivatives env rest
      end
  end.

(** ** pipeline/index.ts *)

Definition result (st : Status) (image : option string) (err : option string)
    (sha : option string) (s : option Side) (c : option Q) : ProcessResult :=
  {| status := st; imageId := image; error := err; sha256 := sha;
     detectedSide := s; confidence := c |}.

(** Step 1: the source, by id and then by name. *)
Definition resolveSource (env : Env) (job : ImageJob) : M (option ImageSource) :=
  let* source :=
    (if truthy_opt (sourceId job)
     then getImageSource env (default EmptyString (sourceId job))
     else ret None) in
  match source with
  | Some _ => ret source
  | None =>
      if truthy_opt (sourceName job)
      then getImageSourceByName env (default EmptyString (sourceName job))
      else ret None
  end.

(** Step 2: [Some r] when the job is turned away with [r]. *)
Definition checkRateLimit (env : Env) (source : option ImageSource)
    : M (option ProcessResult) :=
  match source with
  | None => ret None
  | Some src =>
      let* bs := getBuckets in
      let bs1 := initBucket (id src) (maxRps src) (now_initBucket env) bs in
      let acquired := tryAcquire (id src) (now_tryAcquire env) bs1 in
      setBuckets (snd acquired);;
      if negb (fst acquired) then
        let waitTime := getWaitTime (id src) (snd acquired) in
        ret (Some (result rate_limited None
                     (Some ("Rate limited, retry after "
                              +:+ WaitTime_toString waitTime +:+ "ms"))
                     None None None))
      else ret None
  end.

(** Steps 6 to 8: heuristic side, collage, and the vision check when due. *)
Definition classify (env : Env) (job : ImageJob) (tier : Z) (fetched : list Z)
    (md : ImageMetadata) : M (SideDetectionResult * bool) :=
  call CDetectSide;;
  let sideResult := detectSide (sharp_raw64 env fetched) md in
  call CDetectCollage;;
  let isCollage := detectCollage (sharp_metadata env fetched) (sharp_sobel env fetched) in
  if shouldRunVisionCheck (Math_random env) tier (sd_confidence sideResult) 0.1 then
    call (CCheckWithVision tier);;
    let visionResult :=
      checkWithVision (openrouterApiKey env)
        (vision_post env (visionPrompt job tier) fetched) in
    if Qltb (sd_confidence sideResult) (sd_confidence visionResult)
    then ret (visionResult, isCollage)
    else ret (sideResult, isCollage)
  else ret (sideResult, isCollage).

Definition derivativeRecordOf (imageId : string) (derivative : DerivativeResult)
    : DerivativeRecord :=
  {| dr_imageId := imageId;
     dr_variant := variant derivative;
     dr_format := "webp";
     dr_width := d_width derivative;
     dr_height := d_height derivative;
     dr_bytes := d_bytes derivative;
     dr_storagePath := storagePath derivative |}.

Fixpoint recordDerivatives (env : Env) (imageId : string)
    (derivatives : list DerivativeResult) : M unit :=
  match derivatives with
  | [] => ret tt
  | derivative :: rest =>
      createDerivativeRecord env (derivativeRecordOf imageId derivative);;
      recordDerivatives env imageId rest
  end.

(** The card assignment both the deduplication branch and the gate make. *)
Definition assignmentOf (job : ImageJob) (source : option ImageSource)
    (imageId : string) : Assignment :=
  {| as_cardId := cardId job; as_imageId := imageId; role := "primary_front";
     as_sourceId := option_map id source; as_sourceUrl := Some (sourceUrl job) |}.

Definition imageRecordOf (fetched : list Z) (ctype : option string) (sha : string)
    (md : ImageMetadata) (sideResult : SideDetectionResult) (isCollage : bool)
    : ImageRecord :=
  {| ir_sha256 := sha;
     originalMime := match ctype with
                     | Some c => if truthy c then c else "image/unknown"
                     | None => "image/unknown"
                     end;
     originalWidth := width md;
     originalHeight := height md;
     originalBytes := Zlength_bytes fetched;
     ir_status := "processing";
     ir_detectedSide := side sideResult;
     sideConfidence := sd_confidence sideResult;
     ir_isCollage := isCollage;
     detectedMethod := method sideResult |}.

Definition canAssign (sideResult : SideDetectionResult) (isCollage : bool) : bool :=
  Side_eqb (side sideResult) front
  && Qle_bool config.minConfidenceForAssignment (sd_confidence sideResult)
  && negb isCollage.

Definition rejectedError (sideResult : SideDetectionResult) (isCollage : bool) : string :=
  "Not assigned: side=" +:+ Side_toString (side sideResult)
    +:+ ", confidence=" +:+ toFixed2 (sd_confidence sideResult)
    +:+ ", isCollage=" +:+ Boolean_toString isCollage.

(** Step 14: the assignment gate. *)
Definition assignOrReject (env : Env) (job : ImageJob) (source : option ImageSource)
    (imageId sha : string) (sideResult : SideDetectionResult) (isCollage : bool)
    : M ProcessResult :=
  if canAssign sideResult isCollage then
    assignImageToCard env (assignmentOf job source imageId);;
    logIngestEvent (event (cardId job) (Some imageId) "assigned"
                      (Some "primary_front"%string) None None);;
    ret (result completed (Some imageId) None (Some sha)
           (Some (side sideResult)) (Some (sd_confidence sideResult)))
  else
    logIngestEvent
      (event (cardId job) (Some imageId) "rejected"
         (Some ("side=" +:+ Side_toString (side sideResult)
                  +:+ ", confidence=" +:+ Number_toString env (sd_confidence sideResult)
                  +:+ ", isCollage=" +:+ Boolean_toString isCollage))
         None None);;
    ret (result rejected (Some imageId) (Some (rejectedError sideResult isCollage))
           (Some sha) (Some (side sideResult)) (Some (sd_confidence sideResult))).

(** Steps 9 to 14: the image row, the derivatives, the status update. *)
Definition persist (env : Env) (job : ImageJob) (source : option ImageSource)
    (fetched : list Z) (ctype : option string) (sha : string) (md : ImageMetadata)
    (sideResult : SideDetectionResult) (isCollage : bool) : M ProcessResult :=
  logIngestEvent (event (cardId job) None "processing_started" None None None);;
  let* imageId :=
    createImageRecord env (imageRecordOf fetched ctype sha md sideResult isCollage) in
  call (CGenerateDerivatives fetched sha (width md));;
  match generateDerivatives (sharp_resize_webp env fetched) sha (width md) with
  | inr message => throw message
  | inl derivatives =>
      logIngestEvent (event (cardId job) (Some imageId) "derivatives_generated" None None
                        (Some (CountMeta (Z.of_nat (length derivatives)))));;
      uploadDerivatives env derivatives;;
      logIngestEvent (event (cardId job) (Some imageId) "upload_completed" None None None);;
      recordDerivatives env imageId derivatives;;
      updateImageStatus imageId "completed";;
      logIngestEvent (event (cardId job) (Some imageId) "processing_completed" None None
                        (Some (ElapsedMeta (now_completed env - now_startTime env))));;
      assignOrReject env job source imageId sha sideResult isCollage
  end.

(** Steps 4 to 8, once the bytes are there. *)
Definition afterFetch (env : Env) (job : ImageJob) (source : option ImageSource)
    (tier : Z) (fetched : list Z) (ctype : option string) (st : option Z)
    : M ProcessResult :=
  logIngestEvent (event (cardId job) None "fetch_completed" None st
                    (Some (FetchedMeta (Zlength_bytes fetched) ctype)));;
  let sha := computeSha256 env fetched in
  let* existing := findImageBySha256 env sha in
  match existing with
  | Some existingId =>
      logIngestEvent (event (cardId job) (Some existingId) "deduplicated" None None None);;
      assignImageToCard env (assignmentOf job source existingId);;
      ret (result deduplicated (Some existingId) None (Some sha) None None)
  | None =>
      call CDecodeImage;;
      match decodeImage (sharp_metadata env fetched) fetched with
      | inr message =>
          logIngestEvent (event (cardId job) None "validation_failed" (Some message) None None);;
          ret (result failed None (Some message) None None None)
      | inl md =>
          let* verdict := classify env job tier fetched md in
          let sideResult := fst verdict in
          let isCollage := snd verdict in
          logIngestEvent
            (event (cardId job) None "validation_passed" None None
               (Some (ValidationMeta (width md) (height md) (side sideResult)
                        (sd_confidence sideResult) isCollage (method sideResult))));;
          persist env job source fetched ctype sha md sideResult isCollage
      end
  end.

(** [source?.trustTier ?? job.trustTier ?? 3]. *)
Definition trustTierOf (source : option ImageSource) (job : ImageJob) : Z :=
  match source with
  | Some src => src_trustTier src
  | None => default 3 (trustTier job)
  end.

(** [source?.name ?? job.sourceName ?? 'unknown']. *)
Definition sourceNameOf (source : option ImageSource) (job : ImageJob) : string :=
  match source with
  | Some src => name src
  | None => default "unknown"%string (sourceName job)
  end.

(** The body of the [try] block. *)
Definition processBody (env : Env) (job : ImageJob) : M ProcessResult :=
  let* source := resolveSource env job in
  let tier := trustTierOf source job in
  let sourceName' := sourceNameOf source job in
  let* limited := checkRateLimit env source in
  match limited with
  | Some r => ret r
  | None =>
      call (CFetchImage (sourceUrl job) sourceName');;
      let fetchResult := fetchImage (http_get env (sourceUrl job)) (Some sourceName') in
      match ok fetchResult, bytes fetchResult with
      | true, Some fetched =>
          afterFetch env job source tier fetched (contentType fetchResult)
            (httpStatus fetchResult)
      | _, _ =>
          logIngestEvent (event (cardId job) None "fetch_failed" (fr_error fetchResult)
                            (httpStatus fetchResult) None);;
          ret (result failed None (fr_error fetchResult) None None None)
      end
  end.

(** The [catch] block. *)
Definition handler (job : ImageJob) (message : string) : M ProcessResult :=
  logIngestEvent (event (cardId job) None "fetch_failed" (Some message) None None);;
  ret (result failed None (Some message) None None None).

Definition processImage (env : Env) (job : ImageJob) : M ProcessResult :=
  logIngestEvent (event (cardId job) None "fetch_started" (Some (sourceUrl job)) None None);;
  tryCatch (processBody env job) (handler job).

(** ** Vocabulary of the statements *)

(** The calls that create the image row, start derivative generation or
    write the image status. *)
Definition persistMark (c : Call) : bool :=
  match c with
  | CCreateImageRecord _ | CGenerateDerivatives _ _ _ | CUpdateImageStatus _ _ => true
  | _ => false
  end.

Definition unmarked (calls : list Call) : Prop :=
  Forall (fun c => persistMark c = false) calls.

Definition uploaded (env : Env) (d : DerivativeResult) : bool :=
  match storage_upload env (storagePath d) (buffer d) with
  | Uploaded => true
  | _ => false
  end.

Definition recorded (env : Env) (imageId : string) (d : DerivativeResult) : bool :=
  match insert_derivative env (derivativeRecordOf imageId d) with
  | None => true
  | Some _ => false
  end.

(** Derivative generation, upload and derivative-record insertion all go
    through for the image row [imageId]. *)
Definition laterStagesSucceed (env : Env) (imageId : string) (buf : list Z)
    (sha : string) (originalWidth : Z) : bool :=
  match generateDerivatives (sharp_resize_webp env buf) sha originalWidth with
  | inr _ => false
  | inl derivatives =>
      forallb (uploaded env) derivatives && forallb (recorded env imageId) derivatives
  end.


(** A run with the calls [pre] made before it. *)
Definition after {A} (pre : list Call)
    (run : Outcome A * gmap string TokenBucket * list Call)
    : Outcome A * gmap string TokenBucket * list Call :=
  (outcomeOf run, bucketsOf run, pre ++ callsOf run).

(** How a run of [persist] can go, read off the answers of the catalog,
    the image library and the blob store. *)
Inductive PersistRun (env : Env) (job : ImageJob) (source : option ImageSource)
    (fetched : list Z) (ctype : option string) (sha : string) (md : ImageMetadata)
    (sideResult : SideDetectionResult) (isCollage : bool)
    (bs : gmap string TokenBucket)
    : Outcome ProcessResult * gmap string TokenBucket * list Call -> Prop :=
| InsertFails message :
    insert_image env (imageRecordOf fetched ctype sha md sideResult isCollage)
      = inr message ->
    PersistRun env job source fetched ctype sha md sideResult isCollage bs
      (Thrown ("Failed to create image record: " +:+ message), bs,
       [ CLogIngestEvent (event (cardId job) None "processing_started" None None None);
         CCreateImageRecord (imageRecordOf fetched ctype sha md sideResult isCollage) ])
| LaterStageThrows imageId message calls :
    insert_image env (imageRecordOf fetched ctype sha md sideResult isCollage)
      = inl imageId ->
    laterStagesSucceed env imageId fetched sha (width md) = false ->
    unmarked calls ->
    PersistRun env job source fetched ctype sha md sideResult isCollage bs
      (Thrown message, bs,
       [ CLogIngestEvent (event (cardId job) None "processing_started" None None None);
         CCreateImageRecord (imageRecordOf fetched ctype sha md sideResult isCollage);
         CGenerateDerivatives fetched sha (width md) ] ++ calls)
| ReachesGate imageId calls out gateCalls :
    insert_image env (imageRecordOf fetched ctype sha md sideResult isCollage)
      = inl imageId ->
    laterStagesSucceed env imageId fetched sha (width md) = true ->
    unmarked calls ->
    assignOrReject env job source imageId sha sideResult isCollage bs
      = (out, bs, gateCalls) ->
    PersistRun env job source fetched ctype sha md sideResult isCollage bs
      (out, bs,
       [ CLogIngestEvent (event (cardId job) None "processing_started" None None None);
         CCreateImageRecord (imageRecordOf fetched ctype sha md sideResult isCollage);
         CGenerateDerivatives fetched sha (width md) ] ++ calls
       ++ [ CUpdateImageStatus imageId "completed";
            CLogIngestEvent
              (event (cardId job) (Some imageId) "processing_completed" None None
                 (Some (ElapsedMeta (now_completed env - now_startTime env)))) ]
       ++ gateCalls).

(** The calls of decoding, classification and derivative generation. *)
Definition classifiesOrDerives (c : Call) : bool :=
  match c with
  | CDecodeImage | CDetectSide | CDetectCollage | CCheckWithVision _
  | CCreateImageRecord _ | CGenerateDerivatives _ _ _ | CUpload _ _
  | CCreateDerivativeRecord _ => true
  | _ => false
  end.

(** A run that stops before the image row is created. *)
Definition stopsEarly (run : Outcome ProcessResult * gmap string TokenBucket * list Call)
    : Prop :=
  unmarked (callsOf run) /\
  match outcomeOf run with
  | Returned r => status r = failed \/ status r = deduplicated \/ status r = rate_limited
  | Thrown _ => True
  end.

(** A run that goes on into [persist] after the calls [pre]. *)
Definition entersPersist (env : Env) (job : ImageJob)
    (run : Outcome ProcessResult * gmap string TokenBucket * list Call) : Prop :=
  exists pre source fetched ctype md sr ic bs1,
    unmarked pre /\
    run = after pre (persist env job source fetched ctype
                       (computeSha256 env fetched) md sr ic bs1).

(** What [fit: 'inside'] promises of a resize: the output is no wider
    than asked. *)
Definition fitsInside (resize : Z -> Z -> SharpResize) : Prop :=
  forall w q processed mw mh x,
    resize w q = Resized processed mw mh -> mw = Some x -> x <= w.

Definition widthBounded (originalWidth : Z) (d : DerivativeResult) : Prop :=
  d_width d <= Z.min (fst (config.derivativeSizes (variant d))) originalWidth.

(** ** The rate limiter as the specification words it

    Refill [floor(elapsedSeconds * refillRate)] tokens, capped at the
    capacity; then debit one token and admit when a token is there, and
    refuse without a debit otherwise.  The pair is the verdict and the
    tokens left. *)
Definition tryAcquire_described (bucket : TokenBucket) (elapsedSeconds : Q)
    : bool * Z :=
  let refill := Qfloor (elapsedSeconds * inject_Z (refillRate bucket)) in
  let available := Z.min (maxTokens bucket) (tokens bucket + refill) in
  if 0 <? available then (true, available - 1) else (false, available).

(** The same wording with the product a double, [elapsedSeconds] being
    the double the source divides out: the refill is the floor of the
    rounded product; a product that overflows fills the bucket and one
    that is not a number refills nothing. *)
Definition tryAcquire_described64 (bucket : TokenBucket) (elapsedSeconds : spec_float)
    : bool * Z :=
  let available :=
    match binary64.floor
            (binary64.mul elapsedSeconds (binary64.ofZ (refillRate bucket))) with
    | Int refill => Z.min (maxTokens bucket) (tokens bucket + refill)
    | PlusInfinity => maxTokens bucket
    | MinusInfinity | NotANumber => tokens bucket
    end in
  if 0 <? available then (true, available - 1) else (false, available).

(** A bucket never holds more than its capacity. *)
Definition withinCapacity (bucket : TokenBucket) : Prop :=
  tokens bucket <= maxTokens bucket.

(** A double without the minus sign: [+0], a positive number or
    [Infinity]; or not a number at all. *)
Definition notNegative (x : spec_float) : Prop :=
  match x with
  | S754_nan => True
  | S754_zero s | S754_infinity s | S754_finite s _ _ => s = false
  end.

(** ** A sample source, job and collaborators

    The source [s1] is of the least trusted tier and admits one request
    per second.  The image is a 734 x 1024 JPEG on which the border
    analysis fails, so that the side is settled by the vision model,
    which replies [answer]; the catalog and the blob store answer without
    error.  [src] is what the catalog holds for [s1], [now] the clock
    reading when the job starts and [existing] the catalog's answer to
    the lookup by SHA-256. *)

Definition sampleSource : ImageSource :=
  {| id := "s1"; name := "pokemontcg_api"; baseUrl := None;
     src_trustTier := 3; maxRps := 1; maxConcurrency := 1; isAllowed := true |}.

(** The same source with no capacity at all. *)
Definition closedSource : ImageSource :=
  {| id := "s1"; name := "pokemontcg_api"; baseUrl := None;
     src_trustTier := 3; maxRps := 0; maxConcurrency := 1; isAllowed := true |}.

Definition sampleJob : ImageJob :=
  {| cardId := "c1"; sourceUrl := "http://x/a.jpg"; sourceId := Some "s1"%string;
     sourceName := None; trustTier := None; priority := None;
     cardNumber := None; setCode := None |}.

Definition sampleBytes : list Z := [255; 216; 255; 224].

(** Shortest decimal of the confidences the classifiers produce. *)
Definition sampleNumberToString (q : Q) : string :=
  if Qeq_bool q 0.5 then "0.5"
  else if Qeq_bool q 0.3 then "0.3"
  else if Qeq_bool q 0.8 then "0.8"
  else if Qeq_bool q 0.9 then "0.9"
  else toFixed2 q.

Definition sampleEnv (src : ImageSource) (now : Z) (existing : option string)
    (answer : string) : Env :=
  {| now_startTime := now;
     now_initBucket := now + 1;
     now_tryAcquire := now + 1;
     now_completed := now + 40;
     Math_random := 0.5;
     Number_toString := sampleNumberToString;
     openrouterApiKey := "sk-or-sample";
     computeSha256 := fun _ => "ab12cd34"%string;
     select_imageSource :=
       fun sourceId => if String.eqb sourceId "s1" then Some src else None;
     select_imageSourceByName := fun _ => None;
     select_imageBySha256 := fun _ => existing;
     insert_image := fun _ => inl "img-1"%string;
     insert_derivative := fun _ => None;
     upsert_cardImage := fun _ => None;
     storage_upload := fun _ _ => Uploaded;
     http_get := fun _ => Response 200 (Some "image/jpeg"%string) (BodyBytes sampleBytes);
     sharp_metadata := fun _ => Metadata (Some 734) (Some 1024) (Some "jpeg"%string);
     sharp_raw64 := fun _ => None;
     sharp_sobel := fun _ _ => None;
     sharp_resize_webp :=
       fun _ w _ => Resized [82; 73; 70; 70] (Some w) (Some ((w * 1024) `div` 734));
     vision_post := fun _ _ => VisionContent (Some answer) |}.

(** The same collaborators, with a blob store that refuses every PUT. *)
Definition failingUploadEnv (now : Z) : Env :=
  let env := sampleEnv sampleSource now None "FRONT" in
  {| now_startTime := now_startTime env;
     now_initBucket := now_initBucket env;
     now_tryAcquire := now_tryAcquire env;
     now_completed := now_completed env;
     Math_random := Math_random env;
     Number_toString := Number_toString env;
     openrouterApiKey := openrouterApiKey env;
     computeSha256 := computeSha256 env;
     select_imageSource := select_imageSource env;
     select_imageSourceByName := select_imageSourceByName env;
     select_imageBySha256 := select_imageBySha256 env;
     insert_image := insert_image env;
     insert_derivative := insert_derivative env;
     upsert_cardImage := upsert_cardImage env;
     storage_upload := fun _ _ => UploadError "bucket not found";
     http_get := http_get env;
     sharp_metadata := sharp_metadata env;
     sharp_raw64 := sharp_raw64 env;
     sharp_sobel := sharp_sobel env;
     sharp_resize_webp := sharp_resize_webp env;
     vision_post := vision_post env |}.

(** The sample collaborators with the image already in the catalog, which
    refuses to link it to the card. *)
Definition refusingAssignmentEnv (now : Z) : Env :=
  let env := sampleEnv sampleSource now (Some "img-1"%string) "FRONT" in
  {| now_startTime := now_startTime env;
     now_initBucket := now_initBucket env;
     now_tryAcquire := now_tryAcquire env;
     now_completed := now_completed env;
     Math_random := Math_random env;
     Number_toString := Number_toString env;
     openrouterApiKey := openrouterApiKey env;
     computeSha256 := computeSha256 env;
     select_imageSource := select_imageSource env;
     select_imageSourceByName := select_imageSourceByName env;
     select_imageBySha256 := select_imageBySha256 env;
     insert_image := insert_image env;
     insert_derivative := insert_derivative env;
     upsert_cardImage := fun _ => Some "insert or update violates foreign key"%string;
     storage_upload := storage_upload env;
     http_get := http_get env;
     sharp_metadata := sharp_metadata env;
     sharp_raw64 := sharp_raw64 env;
     sharp_sobel := sharp_sobel env;
     sharp_resize_webp := sharp_resize_webp env;
     vision_post := vision_post env |}.

Definition sampleMetadata : ImageMetadata :=
  {| width := 734; height := 1024; format := "jpeg"; size := 4 |}.

(** The image row the sample job inserts when the vision model replies
    [FRONT]. *)
Definition sampleRecord : ImageRecord :=
  imageRecordOf sampleBytes (Some "image/jpeg"%string) "ab12cd34" sampleMetadata
    {| side := front; sd_confidence := 0.95; method := vision |} false.

(** The image row when the vision model is of no help. *)
Definition sampleUnknownRecord : ImageRecord :=
  imageRecordOf sampleBytes (Some "image/jpeg"%string) "ab12cd34" sampleMetadata
    {| side := unknown; sd_confidence := 0.5; method := heuristic |} false.

(** A bucket that was emptied at time 0. *)
Definition drainedBucket : TokenBucket :=
  {| tokens := 0; lastRefill := 0; maxTokens := 5; refillRate := 5 |}.

(** An empty bucket of fifty tokens a second, last refilled at time 0. *)
Definition emptyFiftyBucket : TokenBucket :=
  {| tokens := 0; lastRefill := 0; maxTokens := 50; refillRate := 50 |}.

(** A resize that always yields the width asked for. *)
Definition exactResize (w q : Z) : SharpResize :=
  Resized [82; 73; 70; 70] (Some w) (Some 1).

(** ** Further vocabulary *)

(** A bucket whose tokens are neither negative nor above its capacity. *)
Definition bucketInRange (bucket : TokenBucket) : Prop :=
  0 <= tokens bucket <= maxTokens bucket.





(** ** index.ts: the HTTP endpoints *)

(** The value of a request header: absent, given once, or repeated. *)
Inductive HeaderValue :=
| NoHeader
| SingleHeader (value : string)
| RepeatedHeader (values : list string).

(** [receiver.verify]: it answers, or throws. *)
Inductive VerifyOutcome :=
| Verified (isValid : bool)
| VerifyThrows (message : string).

Inductive ReplyBody :=
| ErrorBody (error : string)
| ResultBody (r : ProcessResult)
| BatchBody (results : list (string * ProcessResult)) (count : Z).

Record Reply := {
  replyStatus : Z;
  replyBody : ReplyBody
}.

(** A job read from a request body; a field that is missing reads as the
    empty string, which is falsy like [undefined]. *)
Definition validJob (job : ImageJob) : bool :=
  truthy (cardId job) && truthy (sourceUrl job).

Definition replyError (st : Z) (error : string) : M Reply :=
  ret {| replyStatus := st; replyBody := ErrorBody error |}.

(** [POST /webhook/qstash]. *)
Definition webhookHandler (env : Env) (signature : HeaderValue) (verify : VerifyOutcome)
    (job : ImageJob) : M Reply :=
  match signature with
  | SingleHeader s =>
      if negb (truthy s) then replyError 401 "Missing signature"
      else
        match verify with
        | VerifyThrows message => replyError 500 message
        | Verified false => replyError 401 "Invalid signature"
        | Verified true =>
            if negb (validJob job) then replyError 400 "Missing cardId or sourceUrl"
            else
              tryCatch
                (let* r := processImage env job in
                 if match status r with rate_limited => true | _ => false end
                 then ret {| replyStatus := 429; replyBody := ResultBody r |}
                 else ret {| replyStatus := 200; replyBody := ResultBody r |})
                (fun message => replyError 500 message)
        end
  | _ => replyError 401 "Missing signature"
  end.

(** [authHeader?.startsWith('Bearer ')]. *)
Definition hasBearer (authHeader : option string) : bool :=
  match authHeader with
  | Some h => String.prefix "Bearer " h
  | None => false
  end.

(** [authHeader.substring(7)]. *)
Definition bearerToken (authHeader : option string) : string :=
  match authHeader with
  | Some h => String.substring 7 (String.length h - 7) h
  | None => EmptyString
  end.

(** [POST /process]. *)
Definition processHandler (env : Env) (serviceKey : string) (authHeader : option string)
    (job : ImageJob) : M Reply :=
  if negb (hasBearer authHeader) then replyError 401 "Missing authorization"
  else if negb (String.eqb (bearerToken authHeader) serviceKey)
  then replyError 403 "Invalid token"
  else if negb (validJob job) then replyError 400 "Missing cardId or sourceUrl"
  else
    tryCatch
      (let* r := processImage env job in
       ret {| replyStatus := 200; replyBody := ResultBody r |})
      (fun message => replyError 500 message).



(** ** config.ts: [validateConfig] *)

Record RequiredConfig := {
  supabaseServiceKey : string;
  qstashCurrentSigningKey : string;
  qstashNextSigningKey : string
}.

Fixpoint join (sep : string) (parts : list string) : string :=
  match parts with
  | [] => EmptyString
  | [p] => p
  | p :: rest => p +:+ sep +:+ join sep rest
  end.

(** [None] when the configuration passes, [Some message] for the error
    thrown. *)
Definition validateConfig (cfg : RequiredConfig) : option string :=
  let required :=
    [ ("supabaseServiceKey"%string, supabaseServiceKey cfg);
      ("qstashCurrentSigningKey"%string, qstashCurrentSigningKey cfg);
      ("qstashNextSigningKey"%string, qstashNextSigningKey cfg) ] in
  let missing := filter (fun kv => negb (truthy (snd kv)) = true) required in
  if (0 <? length missing)%nat
  then Some ("Missing required config: " +:+ join ", " (map fst missing))
  else None.

(** ** The courses a run of [processImage] can take *)

Definition fetchStarted (job : ImageJob) : Call :=
  CLogIngestEvent (event (cardId job) None "fetch_started" (Some (sourceUrl job)) None None).

(** The fetch the pipeline makes for a job whose source resolved to
    [source]. *)
Definition fetchFor (env : Env) (job : ImageJob) (source : option ImageSource)
    : FetchResult :=
  fetchImage (http_get env (sourceUrl job)) (Some (sourceNameOf source job)).

Definition fetchCompleted (job : ImageJob) (fetchResult : FetchResult) (fetched : list Z)
    : Call :=
  CLogIngestEvent
    (event (cardId job) None "fetch_completed" None (httpStatus fetchResult)
       (Some (FetchedMeta (Zlength_bytes fetched) (contentType fetchResult)))).

Definition failureEvent (job : ImageJob) (type : string) (msg : option string)
    (st : option Z) : Call :=
  CLogIngestEvent (event (cardId job) None type msg st None).

Definition validationPassed (job : ImageJob) (md : ImageMetadata)
    (verdict : SideDetectionResult * bool) : Call :=
  CLogIngestEvent
    (event (cardId job) None "validation_passed" None None
       (Some (ValidationMeta (width md) (height md) (side (fst verdict))
                (sd_confidence (fst verdict)) (snd verdict) (method (fst verdict))))).

(** Every run resolves the source and then takes one of five courses: it
    is turned away by the rate limiter, the fetch fails, the image is
    already known, validation fails, or the image is classified and
    persisted. *)
Inductive ProcessRun (env : Env) (job : ImageJob) (bs : gmap string TokenBucket)
    : Outcome ProcessResult * gmap string TokenBucket * list Call -> Prop :=
| RunRateLimited src pre bs1 r :
    resolveSource env job bs = (Returned (Some src), bs, pre) ->
    checkRateLimit env (Some src) bs = (Returned (Some r), bs1, []) ->
    status r = rate_limited ->
    ProcessRun env job bs (Returned r, bs1, fetchStarted job :: pre)
| RunFetchFailed source pre bs1 :
    resolveSource env job bs = (Returned source, bs, pre) ->
    checkRateLimit env source bs = (Returned None, bs1, []) ->
    ok (fetchFor env job source) = false ->
    ProcessRun env job bs
      (Returned (result failed None (fr_error (fetchFor env job source)) None None None),
       bs1,
       fetchStarted job :: pre
       ++ [CFetchImage (sourceUrl job) (sourceNameOf source job);
           failureEvent job "fetch_failed" (fr_error (fetchFor env job source))
             (httpStatus (fetchFor env job source))])
| RunDeduplicated source pre bs1 fetched existingId :
    resolveSource env job bs = (Returned source, bs, pre) ->
    checkRateLimit env source bs = (Returned None, bs1, []) ->
    ok (fetchFor env job source) = true ->
    bytes (fetchFor env job source) = Some fetched ->
    select_imageBySha256 env (computeSha256 env fetched) = Some existingId ->
    ProcessRun env job bs
      (Returned
         match upsert_cardImage env (assignmentOf job source existingId) with
         | None => result deduplicated (Some existingId) None
                     (Some (computeSha256 env fetched)) None None
         | Some message =>
             result failed None (Some ("Failed to assign image to card: " +:+ message))
               None None None
         end,
       bs1,
       fetchStarted job :: pre
       ++ [CFetchImage (sourceUrl job) (sourceNameOf source job);
           fetchCompleted job (fetchFor env job source) fetched;
           CFindImageBySha256 (computeSha256 env fetched);
           CLogIngestEvent (event (cardId job) (Some existingId) "deduplicated"
                              None None None);
           CAssignImageToCard (assignmentOf job source existingId)]
       ++ match upsert_cardImage env (assignmentOf job source existingId) with
          | None => []
          | Some message =>
              [failureEvent job "fetch_failed"
                 (Some ("Failed to assign image to card: " +:+ message)) None]
          end)
| RunValidationFailed source pre bs1 fetched message :
    resolveSource env job bs = (Returned source, bs, pre) ->
    checkRateLimit env source bs = (Returned None, bs1, []) ->
    ok (fetchFor env job source) = true ->
    bytes (fetchFor env job source) = Some fetched ->
    select_imageBySha256 env (computeSha256 env fetched) = None ->
    decodeImage (sharp_metadata env fetched) fetched = inr message ->
    ProcessRun env job bs
      (Returned (result failed None (Some message) None None None),
       bs1,
       fetchStarted job :: pre
       ++ [CFetchImage (sourceUrl job) (sourceNameOf source job);
           fetchCompleted job (fetchFor env job source) fetched;
           CFindImageBySha256 (computeSha256 env fetched);
           CDecodeImage;
           failureEvent job "validation_failed" (Some message) None])
| RunPersisted source pre bs1 fetched md verdict classifying :
    resolveSource env job bs = (Returned source, bs, pre) ->
    checkRateLimit env source bs = (Returned None, bs1, []) ->
    ok (fetchFor env job source) = true ->
    bytes (fetchFor env job source) = Some fetched ->
    select_imageBySha256 env (computeSha256 env fetched) = None ->
    decodeImage (sharp_metadata env fetched) fetched = inl md ->
    classify env job (trustTierOf source job) fetched md bs1
      = (Returned verdict, bs1, classifying) ->
    ProcessRun env job bs
      (after
         (fetchStarted job :: pre
          ++ [CFetchImage (sourceUrl job) (sourceNameOf source job);
              fetchCompleted job (fetchFor env job source) fetched;
              CFindImageBySha256 (computeSha256 env fetched);
              CDecodeImage]
          ++ classifying ++ [validationPassed job md verdict])
         (tryCatch
            (persist env job source fetched (contentType (fetchFor env job source))
               (computeSha256 env fetched) md (fst verdict) (snd verdict))
            (handler job) bs1)).

(** The calls to the vision model among the calls of a run. *)
Definition isVisionCall (c : Call) : bool :=
  match c with
  | CCheckWithVision _ => true
  | _ => false
  end.

Definition visionChecks (calls : list Call) : nat :=
  length (List.filter isVisionCall calls).

Definition uploadCall (d : DerivativeResult) : Call :=
  CUpload config.cardImagesBucket (storagePath d).

(** The requests the endpoints let through to the pipeline. *)
Definition webhookAdmits (signature : HeaderValue) (verify : VerifyOutcome)
    (job : ImageJob) : bool :=
  match signature, verify with
  | SingleHeader s, Verified true => truthy s && validJob job
  | _, _ => false
  end.

Definition authorized (serviceKey : string) (authHeader : option string) : bool :=
  hasBearer authHeader && String.eqb (bearerToken authHeader) serviceKey.


(** The width and quality [generateDerivatives] asks of the image
    library for a variant. *)
Definition targetWidthOf (originalWidth : Z) (v : Variant) : Z :=
  Z.min (fst (config.derivativeSizes v)) originalWidth.

(** A derivative as made from one successful resize of its variant. *)
Definition derivativeMade (resize : Z -> Z -> SharpResize) (sha : string)
    (originalWidth : Z) (d : DerivativeResult) : Prop :=
  storagePath d = getDerivativeStoragePath sha (variant d) /\
  d_bytes d = Zlength_bytes (buffer d) /\
  exists mw mh,
    resize (targetWidthOf originalWidth (variant d))
      (snd (config.derivativeSizes (variant d))) = Resized (buffer d) mw mh.

(** The columns of the middle three fifths of the 200-pixel-wide edge
    image whose mean edge strength is above 100. *)
Definition strongEdgeColumns (edges : list Z) (h : Z) : Z :=
  Z.of_nat (length (filter (fun x =>
    match columnSum edges 200 h x with
    | Some s => Qltb 100 (inject_Z s / inject_Z h)
    | None => false
    end = true) (seqZ 40 (160 - 40)))).

(** The image rows a run asked the catalog to create, in order. *)
Definition imageRowsCreated (calls : list Call) : list ImageRecord :=
  flat_map (fun c => match c with CCreateImageRecord rec => [rec] | _ => [] end) calls.

(** An edge image of 200 columns and [h] rows in which every value is
    [v]. *)
Definition uniformEdges (v h : Z) : list Z := replicate (Z.to_nat (200 * h)) v.

(** * Properties *)

#[local] Arguments classify : simpl never.
#[local] Arguments persist : simpl never.
#[local] Arguments afterFetch : simpl never.
#[local] Arguments resolveSource : simpl never.
#[local] Arguments checkRateLimit : simpl never.
#[local] Arguments fetchImage : simpl never.
#[local] Arguments decodeImage : simpl never.
#[local] Arguments processBody : simpl never.



Lemma tryAcquire_after_initBucket sourceId rps t0 t1 (bs : gmap string TokenBucket) :
  1 <= rps -> fst (tryAcquire sourceId t1 (initBucket sourceId rps t0 bs)) = true.
Proof.
  intros Hrps. unfold tryAcquire, initBucket.
  rewrite lookup_insert_eq.
  unfold refillBucket. 
  destruct (0 <? refillAmount _ t1) eqn:Hre; cbn [tokens maxTokens].
  - apply Z.ltb_lt in Hre.
    destruct (0 <? Z.min rps (rps + _)) eqn:Hlt; [reflexivity|].
    apply Z.ltb_ge in Hlt. lia.
  - destruct (0 <? rps) eqn:Hlt; [reflexivity|]. apply Z.ltb_ge in Hlt. lia.
Qed.


Lemma initBucket_withinCapacity sourceId rps now (bs : gmap string TokenBucket) bucket :
  initBucket sourceId rps now bs !! sourceId = Some bucket -> withinCapacity bucket.
Proof.
  unfold initBucket. rewrite lookup_insert_eq. intros [= <-].
  unfold withinCapacity. simpl. lia.
Qed.

Lemma refillBucket_withinCapacity bucket now :
  withinCapacity bucket -> withinCapacity (refillBucket bucket now).
Proof.
  unfold withinCapacity, refillBucket. intros H.
  destruct (0 <? refillAmount bucket now); simpl; lia.
Qed.

Lemma tryAcquire_withinCapacity sourceId now (bs : gmap string TokenBucket) :
  (forall k b, bs !! k = Some b -> withinCapacity b) ->
  forall k b, snd (tryAcquire sourceId now bs) !! k = Some b -> withinCapacity b.
Proof.
  intros Hall k b. unfold tryAcquire.
  destruct (bs !! sourceId) as [bucket|] eqn:Hb; simpl; [|apply Hall].
  pose proof (refillBucket_withinCapacity bucket now (Hall _ _ Hb)) as Hwc.
  destruct (0 <? tokens (refillBucket bucket now)); simpl;
    (destruct (decide (sourceId = k)) as [->|Hne];
     [rewrite lookup_insert_eq; intros [= <-]
     | rewrite lookup_insert_ne by assumption; apply Hall]).
  - unfold withinCapacity, debit in *. simpl. lia.
  - exact Hwc.
Qed.

(** Rounding keeps the sign it is given. *)
Lemma binary_round_aux_sign s m e l :
  match binary_round_aux binary64.prec binary64.emax s m e l with
  | S754_zero s' | S754_infinity s' | S754_finite s' _ _ => s' = s
  | S754_nan => True
  end.
Proof.
  unfold binary_round_aux.
  destruct (shr_fexp _ _ m e l) as [mrs' e'].
  destruct (shr_fexp _ _ _ e' loc_Exact) as [mrs'' e''].
  destruct (shr_m mrs'') as [|p|p]; [reflexivity | | exact I].
  destruct (e'' <=? _); reflexivity.
Qed.

Lemma ofZ_notNegative z : 0 <= z -> notNegative (binary64.ofZ z).
Proof.
  intros Hz. unfold binary64.ofZ, binary_normalize.
  destruct z as [|p|p]; [reflexivity | | lia].
  unfold binary_round.
  destruct (shl_align p 0 _) as [mz ez].
  pose proof (binary_round_aux_sign false (Z.pos mz) ez loc_Exact) as Hsign.
  unfold notNegative.
  destruct (binary_round_aux _ _ false (Z.pos mz) ez loc_Exact); auto.
Qed.

Lemma div_notNegative x y :
  notNegative x -> notNegative y -> notNegative (binary64.div x y).
Proof.
  unfold binary64.div, SFdiv, notNegative.
  destruct x as [sx | sx | | sx mx ex], y as [sy | sy | | sy my ey];
    intros Hx Hy; subst; try exact I; try reflexivity.
  destruct (SFdiv_core_binary _ _ (Z.pos mx) ex (Z.pos my) ey) as [[mz ez] lz].
  pose proof (binary_round_aux_sign (xorb false false) mz ez lz) as Hsign.
  destruct (binary_round_aux _ _ (xorb false false) mz ez lz); auto.
Qed.

Lemma mul_notNegative x y :
  notNegative x -> notNegative y -> notNegative (binary64.mul x y).
Proof.
  unfold binary64.mul, SFmul, notNegative.
  destruct x as [sx | sx | | sx mx ex], y as [sy | sy | | sy my ey];
    intros Hx Hy; subst; try exact I; try reflexivity.
  pose proof (binary_round_aux_sign (xorb false false) (Z.pos (mx * my)) (ex + ey) loc_Exact)
    as Hsign.
  destruct (binary_round_aux _ _ (xorb false false) _ _ loc_Exact); auto.
Qed.

Lemma floor_notNegative x :
  notNegative x ->
  match binary64.floor x with
  | Int z => 0 <= z
  | MinusInfinity => False
  | PlusInfinity | NotANumber => True
  end.
Proof.
  unfold notNegative, binary64.floor.
  destruct x as [s | s | | s m e]; intros Hx; subst; try exact I; [lia|].
  cbn [cond_Zopp]. destruct (0 <=? e) eqn:He.
  - apply Z.leb_le in He. apply Z.mul_nonneg_nonneg; [lia|]. apply Z.pow_nonneg. lia.
  - apply Z.leb_gt in He. apply Z.div_pos; [lia|]. apply Z.pow_pos_nonneg; lia.
Qed.

Lemma refillAmount64_notNegative bucket now :
  lastRefill bucket <= now -> 0 <= refillRate bucket ->
  match refillAmount64 bucket now with
  | Int z => 0 <= z
  | MinusInfinity => False
  | PlusInfinity | NotANumber => True
  end.
Proof.
  intros Hnow Hrate. unfold refillAmount64. apply floor_notNegative.
  apply mul_notNegative; [apply div_notNegative|]; apply ofZ_notNegative; lia.
Qed.

(** C4: [tryAcquire], with the refill as the source computes it in
    doubles, does what the specification describes once the product is
    read as a double.  For a source without a bucket, in any map, it
    admits and leaves the map as it is.  For a bucket that exists (last
    refilled not in the future, with a rate that is not negative, within
    its capacity) it refills the floor of the rounded product of the
    elapsed seconds and the rate, capped at the capacity, then admits
    with a debit of exactly one token when a token is there and refuses
    without a debit otherwise; capacity and rate stay as they were. *)
Theorem tryAcquire_as_described now :
  (forall unknownId (bs : gmap string TokenBucket),
     bs !! unknownId = None -> tryAcquire64 unknownId now bs = (true, bs)) /\
  (forall sourceId (bs : gmap string TokenBucket) bucket,
     bs !! sourceId = Some bucket ->
     lastRefill bucket <= now ->
     0 <= refillRate bucket ->
     withinCapacity bucket ->
     exists bucket',
       snd (tryAcquire64 sourceId now bs) !! sourceId = Some bucket' /\
       (fst (tryAcquire64 sourceId now bs), tokens bucket')
       = tryAcquire_described64 bucket
           (binary64.div (binary64.ofZ (now - lastRefill bucket)) (binary64.ofZ 1000)) /\
       maxTokens bucket' = maxTokens bucket /\
       refillRate bucket' = refillRate bucket).
Proof.
  split.
  - intros unknownId bs Hnone. unfold tryAcquire64. rewrite Hnone. reflexivity.
  - intros sourceId bs bucket Hsome Hnow Hrate Hcap.
    unfold tryAcquire64. rewrite Hsome.
    unfold tryAcquire_described64. fold (refillAmount64 bucket now).
    pose proof (refillAmount64_notNegative bucket now Hnow Hrate) as Hre.
    unfold withinCapacity in Hcap.
    assert (Htok : tokens (refillBucket64 bucket now)
                   = match refillAmount64 bucket now with
                     | Int refill => Z.min (maxTokens bucket) (tokens bucket + refill)
                     | PlusInfinity => maxTokens bucket
                     | MinusInfinity | NotANumber => tokens bucket
                     end).
    { unfold refillBucket64. destruct (refillAmount64 bucket now) as [refill | | |];
        try reflexivity.
      destruct (0 <? refill) eqn:Hpos; cbn [tokens]; [reflexivity|].
      apply Z.ltb_ge in Hpos. lia. }
    assert (Hmax : maxTokens (refillBucket64 bucket now) = maxTokens bucket).
    { unfold refillBucket64. destruct (refillAmount64 bucket now) as [refill | | |];
        try reflexivity. destruct (0 <? refill); reflexivity. }
    assert (Hrr : refillRate (refillBucket64 bucket now) = refillRate bucket).
    { unfold refillBucket64. destruct (refillAmount64 bucket now) as [refill | | |];
        try reflexivity. destruct (0 <? refill); reflexivity. }
    rewrite <- Htok.
    destruct (0 <? tokens (refillBucket64 bucket now)); cbn [fst snd];
      rewrite lookup_insert_eq; eexists; (split; [reflexivity|]);
      cbn [debit tokens maxTokens refillRate]; auto.
Qed.

Lemma prefix_truthy p s : String.prefix p s = true -> truthy p = true -> truthy s = true.
Proof. destruct s; destruct p; simpl; congruence. Qed.

Lemma known_source_truthy sourceName sizes :
  KNOWN_ERROR_PAYLOADS !! sourceName = Some sizes ->
  truthy sourceName = true /\ sizes = [186316].
Proof.
  unfold KNOWN_ERROR_PAYLOADS. intros H.
  apply lookup_singleton_Some in H. destruct H as [<- <-]. split; reflexivity.
Qed.

(** C5: a 2xx response with an [image/] content type whose body length is
    listed in [KNOWN_ERROR_PAYLOADS] for the named source makes
    [fetchImage] return [ok = false] with the error
    [known_error_payload]. *)
Theorem known_error_payload_rejected statusCode ct body sourceName sizes :
  response_ok statusCode = true ->
  String.prefix "image/" ct = true ->
  KNOWN_ERROR_PAYLOADS !! sourceName = Some sizes ->
  In (Zlength_bytes body) sizes ->
  fetchImage (Response statusCode (Some ct) (BodyBytes body)) (Some sourceName)
  = {| ok := false; bytes := None; contentType := None;
       fr_error := Some "known_error_payload"%string;
       httpStatus := Some statusCode |}.
Proof.
  intros Hok Hct Htable Hin.
  destruct (known_source_truthy _ _ Htable) as [Hname _].
  unfold fetchImage. rewrite Hok. cbn [negb].
  rewrite (prefix_truthy _ _ Hct eq_refl), Hct. cbn [negb truthy_opt default from_option Datatypes.id].
  rewrite Hname. unfold isKnownErrorPayload. rewrite Htable.
  assert (Hex : existsb (Z.eqb (Zlength_bytes body)) sizes = true).
  { apply existsb_exists. exists (Zlength_bytes body). split; [exact Hin | apply Z.eqb_refl]. }
  rewrite Hex. reflexivity.
Qed.

(** C6: [shouldRunVisionCheck] is [false] for tier 1 and [true] for
    tier 3, whatever the confidence and the random draw; for tier 2 it is
    [true] whenever the confidence lies in [0.6, 0.9). *)
Theorem shouldRunVisionCheck_tiers random sampleRate c c2 :
  (0.6 <= c2)%Q -> (c2 < 0.9)%Q ->
  shouldRunVisionCheck random 1 c sampleRate = false /\
  shouldRunVisionCheck random 3 c sampleRate = true /\
  shouldRunVisionCheck random 2 c2 sampleRate = true.
Proof.
  intros Hlo Hhi. repeat split.
  unfold shouldRunVisionCheck. cbn [Z.eqb Pos.eqb].
  assert (H1 : Qle_bool config.visionCheckLowerBound c2 = true)
    by (apply Qle_bool_iff; exact Hlo).
  assert (H2 : Qltb c2 config.visionCheckUpperBound = true).
  { unfold Qltb. apply negb_true_iff. apply not_true_is_false.
    rewrite Qle_bool_iff. apply Qlt_not_le. exact Hhi. }
  rewrite H1, H2. reflexivity.
Qed.

Section Derivatives.
Variable resize : Z -> Z -> SharpResize.
Variables (sha : string) (originalWidth : Z).

Lemma generateLoop_bounded todo acc ds :
  fitsInside resize ->
  Forall (widthBounded originalWidth) acc ->
  generateLoop resize sha originalWidth todo acc = inl ds ->
  Forall (widthBounded originalWidth) ds /\ map variant ds = map variant acc ++ todo.
Proof.
  intros Hfit. revert acc.
  induction todo as [|v rest IH]; intros acc Hacc Hrun; simpl in Hrun.
  - injection Hrun as <-. rewrite app_nil_r. split; [assumption | reflexivity].
  - destruct (resize _ _) as [message | processed mw mh] eqn:Hres; [discriminate|].
    apply IH in Hrun.
    + destruct Hrun as [Hall Hmap]. split; [assumption|].
      rewrite Hmap, map_app. simpl. rewrite <- app_assoc. reflexivity.
    + apply Forall_app. split; [assumption|]. constructor; [|constructor].
      unfold widthBounded. cbn [d_width variant].
      destruct mw as [x|]; cbn [truthy_num default].
      * destruct (negb (x =? 0)); [|lia].
        exact (Hfit _ _ _ _ _ x Hres eq_refl).
      * lia.
Qed.

Lemma generateLoop_total todo acc :
  (forall w q, exists processed mw mh, resize w q = Resized processed mw mh) ->
  exists ds, generateLoop resize sha originalWidth todo acc = inl ds.
Proof.
  intros Hok. revert acc. induction todo as [|v rest IH]; intros acc; simpl.
  - eauto.
  - destruct (Hok (Z.min (fst (config.derivativeSizes v)) originalWidth)
                (snd (config.derivativeSizes v))) as (p & mw & mh & ->).
    apply IH.
Qed.

(** C7: when the resize honours [fit: 'inside'], the derivatives come in
    the order thumb, grid, detail and the width recorded for each never
    exceeds the smaller of its target width (160, 360, 960) and the
    original width; in particular none is wider than the original. *)
Theorem derivative_width_bounded ds :
  fitsInside resize ->
  generateDerivatives resize sha originalWidth = inl ds ->
  map variant ds = [thumb; grid; detail] /\
  Forall (fun d => d_width d <= Z.min (fst (config.derivativeSizes (variant d)))
                                      originalWidth
                   /\ d_width d <= originalWidth) ds.
Proof.
  intros Hfit Hrun. unfold generateDerivatives in Hrun.
  apply generateLoop_bounded in Hrun; [|assumption|constructor].
  destruct Hrun as [Hall Hmap]. split; [exact Hmap|].
  eapply Forall_impl; [exact Hall|].
  intros d Hd. unfold widthBounded in Hd. simpl in Hd. split; [exact Hd | lia].
Qed.
End Derivatives.

Lemma Qfloor_unit (x : Q) : (0 <= x)%Q -> (x < 1)%Q -> Qfloor x = 0.
Proof.
  intros H0 H1.
  pose proof (Qfloor_le x) as Hle. pose proof (Qlt_floor x) as Hlt.
  assert (Hlo : (inject_Z (-1) < inject_Z (Qfloor x))%Q).
  { rewrite inject_Z_plus in Hlt. change (inject_Z 1) with 1%Q in Hlt.
    change (inject_Z (-1)) with (-1)%Q. lra. }
  assert (Hhi : (inject_Z (Qfloor x) < inject_Z 1)%Q).
  { change (inject_Z 1) with 1%Q. lra. }
  rewrite <- Zlt_Qlt in Hlo, Hhi. lia.
Qed.

Lemma Qtruncate_small (x : Q) : (-1 < x)%Q -> (x < 1)%Q -> Qtruncate x = 0.
Proof.
  intros Hlo Hhi. unfold Qtruncate.
  destruct (Qle_bool 0 x) eqn:Hsign.
  - apply Qle_bool_iff in Hsign. apply Qfloor_unit; assumption.
  - assert (Hneg : (x < 0)%Q).
    { apply Qnot_le_lt. intros Hle. apply Qle_bool_iff in Hle. congruence. }
    clear Hsign. unfold Qceiling. rewrite Qfloor_unit; [reflexivity | lra | lra].
Qed.

Lemma rem6_small (q : Q) : (-1 <= q)%Q -> (q <= 1)%Q -> (rem6 q == q)%Q.
Proof.
  intros Hlo Hhi. unfold rem6.
  assert (H6 : (q / 6 * 6 == q)%Q) by (apply Qdiv_mult_l; discriminate).
  rewrite Qtruncate_small by lra. change (inject_Z (6 * 0)) with 0%Q. lra.
Qed.

Lemma ratio_bounds (a d : Z) :
  0 < d -> - d <= a <= d -> (-1 <= inject_Z a / inject_Z d <= 1)%Q.
Proof.
  intros Hd Ha.
  assert (Hdq : (0 < inject_Z d)%Q) by (change 0%Q with (inject_Z 0); rewrite <- Zlt_Qlt; lia).
  assert (Hlo : (inject_Z (- d) <= inject_Z a)%Q) by (rewrite <- Zle_Qle; lia).
  assert (Hhi : (inject_Z a <= inject_Z d)%Q) by (rewrite <- Zle_Qle; lia).
  rewrite inject_Z_opp in Hlo.
  split.
  - apply Qle_shift_div_l; [assumption | lra].
  - apply Qle_shift_div_r; [assumption | lra].
Qed.

Lemma rgbToHue_range p h : rgbToHue p = Some h -> (-60 <= h <= 300)%Q.
Proof.
  unfold rgbToHue.
  destruct (r p) as [r|]; [|discriminate].
  destruct (g p) as [g|]; [|discriminate].
  destruct (b p) as [b|]; [|discriminate].
  cbv zeta.
  set (mx := Z.max (Z.max r g) b). set (mn := Z.min (Z.min r g) b).
  destruct (mx - mn =? 0) eqn:Hdelta.
  { intros [= <-]. lra. }
  apply Z.eqb_neq in Hdelta.
  assert (Hd : 0 < mx - mn) by (unfold mx, mn in *; lia).
  destruct (mx =? r) eqn:Hr.
  - apply Z.eqb_eq in Hr. intros [= <-]. rewrite Qred_correct.
    destruct (ratio_bounds (g - b) (mx - mn) Hd) as [Hlo Hhi];
      [unfold mx, mn in *; lia|].
    rewrite rem6_small by assumption. lra.
  - destruct (mx =? g) eqn:Hg.
    + intros [= <-]. rewrite Qred_correct.
      destruct (ratio_bounds (b - r) (mx - mn) Hd) as [Hlo Hhi];
        [unfold mx, mn in *; lia|].
      lra.
    + intros [= <-]. rewrite Qred_correct.
      destruct (ratio_bounds (r - g) (mx - mn) Hd) as [Hlo Hhi];
        [unfold mx, mn in *; lia|].
      lra.
Qed.

Lemma hueBucket_range p h : rgbToHue p = Some h -> -2 <= Qfloor (h / 30) <= 10.
Proof.
  intros Hhue. apply rgbToHue_range in Hhue. destruct Hhue as [Hlo Hhi].
  assert (H30 : (h / 30 * 30 == h)%Q) by (apply Qdiv_mult_l; discriminate).
  split.
  - change (-2) with (Qfloor (inject_Z (-2))). apply Qfloor_resp_le.
    change (inject_Z (-2)) with (-2)%Q. lra.
  - change 10 with (Qfloor (inject_Z 10)). apply Qfloor_resp_le.
    change (inject_Z 10) with 10%Q. lra.
Qed.

Lemma bumpHistogram_length hist hue : length (bumpHistogram hist hue) = length hist.
Proof.
  unfold bumpHistogram. destruct hue as [h|]; [|reflexivity].
  destruct (Qfloor (h / 30) <? 0); [reflexivity|].
  destruct (hist !! _); [apply length_insert | reflexivity].
Qed.

(** On the twelve counters the bucket of a hue is a negative number or a
    valid index: the array is never extended. *)
Lemma hueBucket_is_index (hist : list Z) p h :
  length hist = 12%nat ->
  rgbToHue p = Some h ->
  0 <= Qfloor (h / 30) ->
  is_Some (hist !! Z.to_nat (Qfloor (h / 30))).
Proof.
  intros Hlen Hhue Hpos. apply hueBucket_range in Hhue.
  apply lookup_lt_is_Some. rewrite Hlen. lia.
Qed.

Lemma detectSide_confidence raw64 md :
  (0 <= sd_confidence (detectSide raw64 md) <= 1)%Q.
Proof.
  unfold detectSide.
  destruct (analyzeBorderColors raw64) as [ba|]; [|simpl; lra].
  cbv zeta.
  match goal with
  | |- context [Qle_bool 0.3 ?s] => generalize s; intros score
  end.
  destruct (Qle_bool 0.3 score) eqn:Hfront.
  - apply Qle_bool_iff in Hfront. cbn [sd_confidence].
    split.
    + apply Q.min_glb; lra.
    + apply Qle_trans with 0.95%Q; [apply Q.le_min_l | lra].
  - destruct (Qle_bool score (- 0.3)) eqn:Hback; cbn [sd_confidence]; [|lra].
    split.
    + apply Q.min_glb; [lra|]. pose proof (Qabs_nonneg score). lra.
    + apply Qle_trans with 0.95%Q; [apply Q.le_min_l | lra].
Qed.

Lemma checkWithVision_confidence apiKey reply :
  (0 <= sd_confidence (checkWithVision apiKey reply) <= 1)%Q.
Proof.
  unfold checkWithVision, visionFallback.
  destruct (negb (truthy apiKey)); [simpl; lra|].
  destruct reply as [| statusCode | content]; try (simpl; lra).
  destruct (includes "FRONT" _); [simpl; lra|].
  destruct (includes "BACK" _); [simpl; lra|].
  destruct (includes "WRONG_CARD" _); simpl; lra.
Qed.

(** C10: the confidence of every result of the heuristic side detector
    and of the vision checker lies in [0, 1], on the fallback and error
    paths too. *)
Theorem confidence_in_unit_interval raw64 md apiKey reply :
  (0 <= sd_confidence (detectSide raw64 md) <= 1)%Q /\
  (0 <= sd_confidence (checkWithVision apiKey reply) <= 1)%Q.
Proof. split; [apply detectSide_confidence | apply checkWithVision_confidence]. Qed.



Section Runs.
Variable env : Env.

Lemma unmarked_app cs1 cs2 : unmarked cs1 -> unmarked cs2 -> unmarked (cs1 ++ cs2).
Proof. unfold unmarked. intros. apply Forall_app. split; assumption. Qed.

Lemma unmarked_cons c cs : persistMark c = false -> unmarked cs -> unmarked (c :: cs).
Proof. unfold unmarked. intros. constructor; assumption. Qed.

Lemma unmarked_nil : unmarked [].
Proof. constructor. Qed.

Lemma unmarked_not_In c cs : unmarked cs -> persistMark c = true -> ~ In c cs.
Proof.
  unfold unmarked. intros Hall Hc Hin.
  rewrite Forall_forall in Hall. apply list_elem_of_In in Hin. specialize (Hall c Hin). congruence.
Qed.

Lemma uploadDerivatives_run ds bs :
  exists out cs,
    uploadDerivatives env ds bs = (out, bs, cs) /\ unmarked cs /\
    (forallb (uploaded env) ds = true -> out = Returned tt) /\
    (forallb (uploaded env) ds = false -> exists msg, out = Thrown msg).
Proof.
  induction ds as [|d ds IH]; simpl.
  - exists (Returned tt), []. repeat split; try constructor; intros; congruence.
  - destruct IH as (out & cs & Hrun & Hun & Hok & Hko).
    unfold bind, call, uploaded at 1 3. 
    destruct (storage_upload env (storagePath d) (buffer d)) eqn:Hup; simpl.
    + rewrite Hrun. exists out, (CUpload config.cardImagesBucket (storagePath d) :: cs).
      repeat split; auto. apply unmarked_cons; auto.
    + eexists _, _. split; [reflexivity|]. split; [repeat constructor|].
      split; [congruence|]. eauto.
    + eexists _, _. split; [reflexivity|]. split; [repeat constructor|].
      split; [congruence|]. eauto.
Qed.

Lemma recordDerivatives_run imageId ds bs :
  exists out cs,
    recordDerivatives env imageId ds bs = (out, bs, cs) /\ unmarked cs /\
    (forallb (recorded env imageId) ds = true -> out = Returned tt) /\
    (forallb (recorded env imageId) ds = false -> exists msg, out = Thrown msg).
Proof.
  induction ds as [|d ds IH]; simpl.
  - exists (Returned tt), []. repeat split; try constructor; intros; congruence.
  - destruct IH as (out & cs & Hrun & Hun & Hok & Hko).
    unfold bind, createDerivativeRecord, bind, call, recorded at 1 3.
    destruct (insert_derivative env (derivativeRecordOf imageId d)) eqn:Hins; simpl.
    + eexists _, _. split; [reflexivity|]. split; [repeat constructor|].
      split; [congruence|]. eauto.
    + rewrite Hrun. eexists _, _. split; [reflexivity|].
      split; [apply unmarked_cons; auto|]. auto.
Qed.
End Runs.

Section Persist.
Variables (env : Env) (job : ImageJob) (source : option ImageSource).

Lemma assignOrReject_buckets imageId sha sr ic bs :
  bucketsOf (assignOrReject env job source imageId sha sr ic bs) = bs.
Proof.
  unfold assignOrReject, assignImageToCard, logIngestEvent, bind, call, ret, throw, bucketsOf.
  destruct (canAssign sr ic); simpl; [|reflexivity].
  destruct (upsert_cardImage env _); reflexivity.
Qed.

Lemma assignOrReject_unmarked imageId sha sr ic bs :
  unmarked (callsOf (assignOrReject env job source imageId sha sr ic bs)).
Proof.
  unfold assignOrReject, assignImageToCard, logIngestEvent, bind, call, ret, throw, callsOf.
  destruct (canAssign sr ic); simpl; [|repeat constructor].
  destruct (upsert_cardImage env _); simpl; repeat constructor.
Qed.

Lemma persist_run fetched ctype sha md sr ic bs :
  PersistRun env job source fetched ctype sha md sr ic bs
    (persist env job source fetched ctype sha md sr ic bs).
Proof.
  unfold persist, createImageRecord, logIngestEvent, updateImageStatus.
  unfold bind, call, ret, throw. simpl.
  destruct (insert_image env _) as [imageId|message] eqn:Hins; simpl.
  2:{ apply InsertFails. assumption. }
  destruct (generateDerivatives (sharp_resize_webp env fetched) sha (width md))
    as [ds|message] eqn:Hgen.
  2:{ apply (LaterStageThrows env job source fetched ctype sha md sr ic bs imageId message []).
      - assumption.
      - unfold laterStagesSucceed. rewrite Hgen. reflexivity.
      - constructor. }
  destruct (uploadDerivatives_run env ds bs) as (uout & ucs & Hup & Hucs & Huok & Huko).
  destruct (recordDerivatives_run env imageId ds bs) as (rout & rcs & Hrec & Hrcs & Hrok & Hrko).
  rewrite Hup.
  destruct (forallb (uploaded env) ds) eqn:Hu.
  2:{ destruct (Huko eq_refl) as [msg ->]. simpl.
      apply (LaterStageThrows env job source fetched ctype sha md sr ic bs imageId msg
               (_ :: ucs)).
      - assumption.
      - unfold laterStagesSucceed. rewrite Hgen, Hu. reflexivity.
      - apply unmarked_cons; [reflexivity | assumption]. }
  rewrite (Huok eq_refl). simpl. rewrite Hrec.
  destruct (forallb (recorded env imageId) ds) eqn:Hr.
  2:{ destruct (Hrko eq_refl) as [msg ->]. simpl.
      apply (LaterStageThrows env job source fetched ctype sha md sr ic bs imageId msg
               (_ :: ucs ++ _ :: rcs)).
      - assumption.
      - unfold laterStagesSucceed. rewrite Hgen, Hu, Hr. reflexivity.
      - apply unmarked_cons; [reflexivity|]. apply unmarked_app; [assumption|].
        apply unmarked_cons; [reflexivity | assumption]. }
  rewrite (Hrok eq_refl). simpl.
  destruct (assignOrReject env job source imageId sha sr ic bs) as [[out bs2] gcs] eqn:Hgate.
  assert (bs2 = bs) as ->.
  { pose proof (assignOrReject_buckets imageId sha sr ic bs) as Hb.
    rewrite Hgate in Hb. exact Hb. }
  assert (Hlater : laterStagesSucceed env imageId fetched sha (width md) = true).
  { unfold laterStagesSucceed. rewrite Hgen, Hu, Hr. reflexivity. }
  assert (Hunm : unmarked
    (CLogIngestEvent (event (cardId job) (Some imageId) "derivatives_generated"
                        None None (Some (CountMeta (Z.of_nat (length ds)))))
     :: ucs ++
     CLogIngestEvent (event (cardId job) (Some imageId) "upload_completed" None None None)
     :: rcs)).
  { apply unmarked_cons; [reflexivity|]. apply unmarked_app; [assumption|].
    apply unmarked_cons; [reflexivity | assumption]. }
  generalize (ReachesGate env job source fetched ctype sha md sr ic bs imageId _ out gcs
                Hins Hlater Hunm Hgate).
  simpl. rewrite <- !app_assoc. simpl. intros Hrun. exact Hrun.
Qed.
End Persist.

Section Stages.
Variables (env : Env) (job : ImageJob).

Lemma resolveSource_run bs :
  exists source cs,
    resolveSource env job bs = (Returned source, bs, cs) /\ unmarked cs.
Proof.
  unfold resolveSource, getImageSource, getImageSourceByName, bind, call, ret.
  destruct (truthy_opt (sourceId job)); simpl.
  - destruct (select_imageSource env _) as [src|]; simpl.
    + eexists _, _. split; [reflexivity | repeat constructor].
    + destruct (truthy_opt (sourceName job)); simpl;
        eexists _, _; (split; [reflexivity | repeat constructor]).
  - destruct (truthy_opt (sourceName job)); simpl;
      eexists _, _; (split; [reflexivity | repeat constructor]).
Qed.

Lemma checkRateLimit_run source bs :
  exists limited bs',
    checkRateLimit env source bs = (Returned limited, bs', []) /\
    (limited = None \/
     exists src r, source = Some src /\ limited = Some r /\ maxRps src < 1 /\
       r = result rate_limited None
             (Some ("Rate limited, retry after "
                      +:+ WaitTime_toString (getWaitTime (id src) bs') +:+ "ms"))
             None None None).
Proof.
  unfold checkRateLimit. destruct source as [src|].
  - unfold bind, getBuckets, setBuckets, ret. simpl.
    destruct (fst (tryAcquire (id src) (now_tryAcquire env)
                     (initBucket (id src) (maxRps src) (now_initBucket env) bs))) eqn:Hacq;
      simpl.
    + eexists _, _. split; [reflexivity | left; reflexivity].
    + eexists _, _. split; [reflexivity|]. right. exists src. eexists.
      split; [reflexivity|]. split; [reflexivity|]. split; [|reflexivity].
      destruct (Z_lt_le_dec (maxRps src) 1) as [Hlt|Hge]; [assumption|].
      rewrite tryAcquire_after_initBucket in Hacq by assumption. discriminate.
  - eexists _, _. split; [reflexivity | left; reflexivity].
Qed.

Lemma classify_run tier fetched md bs :
  exists verdict cs,
    classify env job tier fetched md bs = (Returned verdict, bs, cs) /\ unmarked cs.
Proof.
  unfold classify, bind, call, ret. simpl.
  destruct (shouldRunVisionCheck _ _ _ _); simpl.
  - destruct (Qltb _ _); simpl; eexists _, _; (split; [reflexivity | repeat constructor]).
  - eexists _, _. split; [reflexivity | repeat constructor].
Qed.
End Stages.


Section Running.
Context {A B : Type}.

Lemma after_nil (run : Outcome A * gmap string TokenBucket * list Call) :
  after [] run = run.
Proof. destruct run as [[out bs] cs]. reflexivity. Qed.

Lemma outcomeOf_after pre (run : Outcome A * gmap string TokenBucket * list Call) :
  outcomeOf (after pre run) = outcomeOf run.
Proof. reflexivity. Qed.

Lemma callsOf_after pre (run : Outcome A * gmap string TokenBucket * list Call) :
  callsOf (after pre run) = pre ++ callsOf run.
Proof. reflexivity. Qed.

Lemma after_after pre1 pre2 (run : Outcome A * gmap string TokenBucket * list Call) :
  after pre1 (after pre2 run) = after (pre1 ++ pre2) run.
Proof. unfold after. simpl. rewrite app_assoc. reflexivity. Qed.

Lemma bind_call c (k : unit -> M B) bs :
  bind (call c) k bs = after [c] (k tt bs).
Proof. unfold bind, call, after. destruct (k tt bs) as [[out bs2] cs]. reflexivity. Qed.

Lemma bind_ret (a : A) (k : A -> M B) bs : bind (ret a) k bs = k a bs.
Proof. unfold bind, ret. destruct (k a bs) as [[out bs2] cs]. reflexivity. Qed.

Lemma bind_throw message (k : A -> M B) bs :
  bind (throw message) k bs = (Thrown message, bs, []).
Proof. reflexivity. Qed.

Lemma bind_returned (m : M A) (k : A -> M B) bs a bs1 cs1 :
  m bs = (Returned a, bs1, cs1) -> bind m k bs = after cs1 (k a bs1).
Proof.
  intros Hm. unfold bind, after. rewrite Hm.
  destruct (k a bs1) as [[out bs2] cs]. reflexivity.
Qed.

Lemma bind_thrown (m : M A) (k : A -> M B) bs message bs1 cs1 :
  m bs = (Thrown message, bs1, cs1) -> bind m k bs = (Thrown message, bs1, cs1).
Proof. intros Hm. unfold bind. rewrite Hm. reflexivity. Qed.
End Running.

Ltac unmarked_tac :=
  repeat first
    [ assumption
    | apply unmarked_nil
    | apply unmarked_app
    | apply unmarked_cons; [reflexivity|] ].

Section Shape.
Variables (env : Env) (job : ImageJob).

Lemma afterFetch_run source tier fetched ctype st bs :
  let run := afterFetch env job source tier fetched ctype st bs in
  (stopsEarly run /\ forall r, outcomeOf run = Returned r -> status r <> rate_limited)
  \/ entersPersist env job run.
Proof.
  unfold afterFetch, findImageBySha256, assignImageToCard, logIngestEvent.
  rewrite bind_call. erewrite bind_returned by (rewrite bind_call; reflexivity).
  destruct (select_imageBySha256 env (computeSha256 env fetched)) as [existingId|].
  - left. rewrite bind_call.
    destruct (upsert_cardImage env _) eqn:Hup.
    + erewrite bind_thrown by (rewrite bind_call; reflexivity).
      unfold stopsEarly. simpl.
      split; [split; [repeat constructor | exact I] | intros r H; discriminate H].
    + erewrite bind_returned by (rewrite bind_call; reflexivity).
      unfold stopsEarly. simpl.
      split; [split; [repeat constructor | right; left; reflexivity]|].
      intros r H. injection H as <-. discriminate.
  - rewrite bind_call.
    destruct (decodeImage (sharp_metadata env fetched) fetched) as [md|message].
    + right. destruct (classify_run env job tier fetched md bs)
        as ([sr ic] & cs & Hrun & Hcs).
      erewrite bind_returned by exact Hrun. rewrite bind_call.
      rewrite !after_after. simpl.
      eexists _, source, fetched, ctype, md, sr, ic, bs.
      split; [|reflexivity].
      repeat (apply unmarked_cons; [reflexivity|]).
      apply unmarked_app; [assumption | repeat constructor].
    + left. rewrite bind_call. unfold stopsEarly. simpl.
      split; [split; [repeat constructor | left; reflexivity]|].
      intros r H. injection H as <-. discriminate.
Qed.

Lemma processBody_run bs :
  let run := processBody env job bs in
  (stopsEarly run /\
   forall r, outcomeOf run = Returned r -> status r = rate_limited ->
     exists src, outcomeOf (resolveSource env job bs) = Returned (Some src)
                 /\ maxRps src < 1)
  \/ entersPersist env job run.
Proof.
  unfold processBody.
  destruct (resolveSource_run env job bs) as (source & rcs & Hres & Hrcs).
  erewrite bind_returned by exact Hres.
  destruct (checkRateLimit_run env source bs) as (limited & bs' & Hlim & Hcases).
  erewrite bind_returned by exact Hlim. rewrite after_nil.
  destruct Hcases as [-> | (src & r & -> & -> & Hrps & ->)].
  - rewrite bind_call.
    destruct (fetchImage _ _) as [[|] [fetched|] ctype err st];
      cbn [ok bytes fr_error httpStatus contentType].
    2-4: left; unfold logIngestEvent; rewrite bind_call, !after_after;
           unfold stopsEarly; simpl;
           (split; [split; [unmarked_tac | left; reflexivity]
                   | intros r0 H; injection H as <-; discriminate]).
    rewrite after_after.
    destruct (afterFetch_run source (trustTierOf source job) fetched ctype st bs')
      as [[[Hun Hout] Hnrl] | Hpersist].
    + left. unfold stopsEarly, after. simpl. split; [split|].
      * apply unmarked_app; [apply unmarked_app; [assumption | repeat constructor]
                            | assumption].
      * exact Hout.
      * intros r0 Hr0 Hst. exfalso. exact (Hnrl r0 Hr0 Hst).
    + right. destruct Hpersist as (pre & source' & fetched' & ctype' & md & sr & ic & bs1
                                   & Hpre & Heq).
      rewrite Heq, after_after.
      eexists _, source', fetched', ctype', md, sr, ic, bs1. split; [|reflexivity].
      apply unmarked_app; [apply unmarked_app; [assumption | repeat constructor]
                          | assumption].
  - left. unfold stopsEarly, after, ret. simpl. rewrite app_nil_r.
    split; [split; [assumption | right; right; reflexivity]|].
    intros r0 _ _. exists src. rewrite Hres. split; [reflexivity | assumption].
Qed.

Lemma tryCatch_after (body m : M ProcessResult) h pre bs bs1 :
  body bs = after pre (m bs1) ->
  tryCatch body h bs = after pre (tryCatch m h bs1).
Proof.
  intros Hbody. unfold tryCatch. rewrite Hbody. unfold after, outcomeOf, bucketsOf, callsOf.
  destruct (m bs1) as [[[r|message] b] cs]; simpl; [reflexivity|].
  destruct (h message b) as [[out b2] cs2]. simpl. rewrite app_assoc. reflexivity.
Qed.

Lemma processImage_run bs :
  let run := processImage env job bs in
  (unmarked (callsOf run) /\
   exists r, outcomeOf run = Returned r /\
     (status r = failed \/ status r = deduplicated \/
      (status r = rate_limited /\
       exists src, outcomeOf (resolveSource env job bs) = Returned (Some src)
                   /\ maxRps src < 1)))
  \/ exists pre source fetched ctype md sr ic bs1,
       unmarked pre /\
       run = after pre (tryCatch (persist env job source fetched ctype
                                    (computeSha256 env fetched) md sr ic)
                          (handler job) bs1).
Proof.
  unfold processImage, logIngestEvent. rewrite bind_call.
  destruct (processBody_run bs) as [[[Hun Hout] Hrl] | Hpersist].
  - left. unfold tryCatch.
    destruct (processBody env job bs) as [[[r|message] b] cs]; simpl in *.
    + split; [apply unmarked_cons; [reflexivity | assumption]|].
      exists r. split; [reflexivity|].
      destruct Hout as [H | [H | H]]; auto.
      right; right. split; [assumption|]. apply (Hrl r eq_refl H).
    + split.
      * apply unmarked_cons; [reflexivity|].
        apply unmarked_app; [assumption | repeat constructor].
      * eexists. split; [reflexivity | left; reflexivity].
  - right. destruct Hpersist as (pre & source & fetched & ctype & md & sr & ic & bs1
                                 & Hpre & Heq).
    rewrite (tryCatch_after _ _ _ _ _ _ Heq), after_after.
    eexists _, source, fetched, ctype, md, sr, ic, bs1. split; [|reflexivity].
    apply unmarked_cons; [reflexivity | assumption].
Qed.
End Shape.

Section Handled.
Variables (env : Env) (job : ImageJob) (source : option ImageSource).
Variables (fetched : list Z) (ctype : option string) (sha : string).
Variables (md : ImageMetadata) (sr : SideDetectionResult) (ic : bool).

#[local] Abbreviation rec := (imageRecordOf fetched ctype sha md sr ic).
#[local] Abbreviation started :=
  (CLogIngestEvent (event (cardId job) None "processing_started" None None None)).

Lemma assignOrReject_cases imageId bs :
  let run := assignOrReject env job source imageId sha sr ic bs in
  unmarked (callsOf run) /\ bucketsOf run = bs /\
  ((canAssign sr ic = true /\
    outcomeOf run = Returned (result completed (Some imageId) None (Some sha)
                                (Some (side sr)) (Some (sd_confidence sr))))
   \/ (canAssign sr ic = true /\ exists message, outcomeOf run = Thrown message)
   \/ (canAssign sr ic = false /\
       outcomeOf run = Returned (result rejected (Some imageId)
                                   (Some (rejectedError sr ic)) (Some sha)
                                   (Some (side sr)) (Some (sd_confidence sr))))).
Proof.
  unfold assignOrReject, assignImageToCard, logIngestEvent.
  destruct (canAssign sr ic).
  - destruct (upsert_cardImage env _) eqn:Hup.
    + erewrite bind_thrown by (rewrite bind_call; reflexivity).
      simpl. split; [unmarked_tac|]. split; [reflexivity|]. right; left. eauto.
    + erewrite bind_returned by (rewrite bind_call; reflexivity).
      rewrite bind_call. simpl.
      split; [unmarked_tac|]. split; [reflexivity|]. left. split; reflexivity.
  - rewrite bind_call. simpl.
    split; [unmarked_tac|]. split; [reflexivity|]. right; right. split; reflexivity.
Qed.

Lemma handled_persist_cases bs :
  let run := tryCatch (persist env job source fetched ctype sha md sr ic) (handler job) bs in
  exists r, outcomeOf run = Returned r /\
    ((exists message,
        insert_image env rec = inr message /\ status r = failed /\
        exists cs, unmarked cs /\ callsOf run = [started; CCreateImageRecord rec] ++ cs)
     \/ (exists imageId cs,
           insert_image env rec = inl imageId /\
           laterStagesSucceed env imageId fetched sha (width md) = false /\
           status r = failed /\ unmarked cs /\
           callsOf run = [started; CCreateImageRecord rec;
                          CGenerateDerivatives fetched sha (width md)] ++ cs)
     \/ (exists imageId cs gcs,
           insert_image env rec = inl imageId /\
           laterStagesSucceed env imageId fetched sha (width md) = true /\
           unmarked cs /\ unmarked gcs /\
           callsOf run = [started; CCreateImageRecord rec;
                          CGenerateDerivatives fetched sha (width md)] ++ cs
                         ++ [CUpdateImageStatus imageId "completed"] ++ gcs /\
           ((canAssign sr ic = true /\
             r = result completed (Some imageId) None (Some sha)
                   (Some (side sr)) (Some (sd_confidence sr)))
            \/ (canAssign sr ic = true /\ status r = failed)
            \/ (canAssign sr ic = false /\
                r = result rejected (Some imageId) (Some (rejectedError sr ic))
                      (Some sha) (Some (side sr)) (Some (sd_confidence sr)))))).
Proof.
  unfold tryCatch.
  destruct (persist_run env job source fetched ctype sha md sr ic bs)
    as [message Hins | imageId message cs Hins Hlater Hcs
        | imageId cs out gcs Hins Hlater Hcs Hgate].
  - simpl. eexists. split; [reflexivity|]. left. exists message.
    split; [exact Hins|]. split; [reflexivity|].
    eexists. split; [|reflexivity]. unmarked_tac.
  - simpl. eexists. split; [reflexivity|]. right; left. exists imageId.
    eexists. split; [exact Hins|]. split; [exact Hlater|]. split; [reflexivity|].
    split; [|reflexivity]. unmarked_tac.
  - destruct (assignOrReject_cases imageId bs) as (Hgcs & _ & Hcases).
    rewrite Hgate in Hgcs, Hcases.
    unfold outcomeOf, callsOf in Hgcs, Hcases. simpl in Hgcs, Hcases.
    destruct Hcases as [[Hcan ->] | [[Hcan [message ->]] | [Hcan ->]]]; simpl.
    + eexists. split; [reflexivity|]. right; right. exists imageId, cs. eexists.
      split; [exact Hins|]. split; [exact Hlater|]. split; [exact Hcs|].
      split; [|split; [reflexivity | left; split; [exact Hcan | reflexivity]]].
      unmarked_tac.
    + eexists. split; [reflexivity|]. right; right. exists imageId, cs. eexists.
      split; [exact Hins|]. split; [exact Hlater|]. split; [exact Hcs|].
      split; [|split; [rewrite <- ?app_assoc; reflexivity
                      | right; left; split; [exact Hcan | reflexivity]]].
      unmarked_tac.
    + eexists. split; [reflexivity|]. right; right. exists imageId, cs. eexists.
      split; [exact Hins|]. split; [exact Hlater|]. split; [exact Hcs|].
      split; [|split; [reflexivity | right; right; split; [exact Hcan | reflexivity]]].
      unmarked_tac.
Qed.
End Handled.

(** [processImage] always returns a result: no exception leaves it. *)
Lemma processImage_returns env job bs :
  exists r, outcomeOf (processImage env job bs) = Returned r.
Proof.
  destruct (processImage_run env job bs)
    as [[_ (r & Hr & _)]
       | (pre & source & fetched & ctype & md & sr & ic & bs1 & _ & Heq)].
  - exists r. exact Hr.
  - rewrite Heq, outcomeOf_after.
    destruct (handled_persist_cases env job source fetched ctype
                (computeSha256 env fetched) md sr ic bs1) as (r & Hr & _).
    exists r. exact Hr.
Qed.

(** The side result the pipeline goes on with, whether the heuristic one
    or the one of the vision model, has its confidence in [0, 1]. *)
Lemma classify_confidence env job tier fetched md bs verdict :
  outcomeOf (classify env job tier fetched md bs) = Returned verdict ->
  (0 <= sd_confidence (fst verdict) <= 1)%Q.
Proof.
  unfold classify, bind, call, ret, outcomeOf. cbn [fst snd].
  destruct (shouldRunVisionCheck _ _ _ _); cbn [fst snd].
  - destruct (Qltb _ _); cbn [fst snd]; intros [= <-]; cbn [fst].
    + apply checkWithVision_confidence.
    + apply detectSide_confidence.
  - intros [= <-]. apply detectSide_confidence.
Qed.

Ltac in_cases :=
  repeat match goal with
  | H : In _ (_ ++ _) |- _ => apply in_app_or in H; destruct H as [H | H]
  | H : In ?c ?l, U : unmarked ?l |- _ =>
      exfalso; exact (unmarked_not_In c l U eq_refl H)
  | H : In _ (_ :: _) |- _ => destruct H as [H | H]
  | H : In _ [] |- _ => destruct H
  | H : @eq Call _ _ |- _ => first [discriminate H | inversion H; subst; clear H]
  end.

(** C9: every run of [processImage] returns, and in it the only status
    update is to [completed], made for the row the run inserted after
    derivative generation, upload and derivative records all went
    through; the row is inserted as [processing]; when one of those later
    stages throws, the run returns [failed] and calls [updateImageStatus]
    not at all; and the handler only logs an event and returns
    [failed]. *)
Theorem failed_status_never_written env job bs :
  let run := processImage env job bs in
  exists r, outcomeOf run = Returned r /\
    (forall imageId s, In (CUpdateImageStatus imageId s) (callsOf run) ->
       s = "completed"%string /\
       exists rec buf sha ow,
         In (CCreateImageRecord rec) (callsOf run) /\
         insert_image env rec = inl imageId /\
         In (CGenerateDerivatives buf sha ow) (callsOf run) /\
         laterStagesSucceed env imageId buf sha ow = true) /\
    (forall rec, In (CCreateImageRecord rec) (callsOf run) ->
       ir_status rec = "processing"%string) /\
    (forall rec imageId buf sha ow,
       In (CCreateImageRecord rec) (callsOf run) ->
       insert_image env rec = inl imageId ->
       In (CGenerateDerivatives buf sha ow) (callsOf run) ->
       laterStagesSucceed env imageId buf sha ow = false ->
       status r = failed /\
       forall imageId' s, ~ In (CUpdateImageStatus imageId' s) (callsOf run)) /\
    (forall message bs',
       handler job message bs'
       = (Returned (result failed None (Some message) None None None), bs',
          [CLogIngestEvent
             (event (cardId job) None "fetch_failed" (Some message) None None)])).
Proof.
  intros run. subst run.
  destruct (processImage_run env job bs)
    as [[Hun (r & Hr & _)]
       | (pre & source & fetched & ctype & md & sr & ic & bs1 & Hpre & Heq)].
  - exists r. split; [exact Hr|].
    split; [|split; [|split; [|reflexivity]]].
    + intros imageId s Hin. in_cases.
    + intros rec Hin. in_cases.
    + intros rec imageId buf sha ow Hin. in_cases.
  - rewrite Heq. clear Heq.
    destruct (handled_persist_cases env job source fetched ctype
                (computeSha256 env fetched) md sr ic bs1) as (r & Hr & Hcases).
    exists r. rewrite outcomeOf_after, !callsOf_after. split; [exact Hr|].
    destruct Hcases as [(message & Hins & Hst & cs & Hcs & ->)
                       | [(imageId & cs & Hins & Hlater & Hst & Hcs & ->)
                         | (imageId & cs & gcs & Hins & Hlater & Hcs & Hgcs & -> & _)]].
    + split; [|split; [|split; [|reflexivity]]].
      * intros imageId s Hin. in_cases.
      * intros rec Hin. in_cases. reflexivity.
      * intros rec imageId buf sha ow Hin Hins' Hgen. in_cases.
    + split; [|split; [|split; [|reflexivity]]].
      * intros imageId' s Hin. in_cases.
      * intros rec Hin. in_cases. reflexivity.
      * intros rec imageId' buf sha ow Hin Hins' Hgen Hfail.
        split; [exact Hst|]. intros imageId'' s Hin'. in_cases.
    + split; [|split; [|split; [|reflexivity]]].
      * intros imageId' s Hin. in_cases. split; [reflexivity|].
        eexists _, fetched, _, _.
        split; [apply in_or_app; right; right; left; reflexivity|].
        split; [exact Hins|].
        split; [apply in_or_app; right; right; right; left; reflexivity | exact Hlater].
      * intros rec Hin. in_cases. reflexivity.
      * intros rec imageId' buf sha ow Hin Hins' Hgen Hfail. exfalso.
        in_cases. rewrite Hins in Hins'. injection Hins' as <-. congruence.
Qed.

Lemma canAssign_true_iff sr ic :
  canAssign sr ic = true <->
  side sr = front /\ (config.minConfidenceForAssignment <= sd_confidence sr)%Q /\ ic = false.
Proof.
  unfold canAssign. rewrite !andb_true_iff, Qle_bool_iff, negb_true_iff.
  destruct (side sr); simpl; intuition congruence.
Qed.

(** C2: every run of [processImage] returns; a [completed] result comes
    only with a detected side [front], a confidence of at least 0.85 and
    no collage; and when the run got as far as marking the image
    [completed] while that gate fails, the result is [rejected] with the
    error [Not assigned: side=.., confidence=.., isCollage=..], the
    confidence printed with two decimals. *)
Theorem assignment_gate env job bs :
  let run := processImage env job bs in
  exists r, outcomeOf run = Returned r /\
    (status r = completed ->
       exists rec,
         In (CCreateImageRecord rec) (callsOf run) /\
         ir_detectedSide rec = front /\
         (0.85 <= sideConfidence rec)%Q /\
         ir_isCollage rec = false /\
         detectedSide r = Some front /\
         confidence r = Some (sideConfidence rec)) /\
    (forall rec imageId,
       In (CCreateImageRecord rec) (callsOf run) ->
       In (CUpdateImageStatus imageId "completed") (callsOf run) ->
       ~ (ir_detectedSide rec = front /\ (0.85 <= sideConfidence rec)%Q
          /\ ir_isCollage rec = false) ->
       status r = rejected /\
       error r = Some ("Not assigned: side=" +:+ Side_toString (ir_detectedSide rec)
                         +:+ ", confidence=" +:+ toFixed2 (sideConfidence rec)
                         +:+ ", isCollage=" +:+ Boolean_toString (ir_isCollage rec))).
Proof.
  intros run. subst run.
  destruct (processImage_run env job bs)
    as [[Hun (r & Hr & Hst)]
       | (pre & source & fetched & ctype & md & sr & ic & bs1 & Hpre & Heq)].
  - exists r. split; [exact Hr|]. split.
    + intros Hc. destruct Hst as [H | [H | [H _]]]; congruence.
    + intros rec imageId Hin. in_cases.
  - rewrite Heq. clear Heq.
    destruct (handled_persist_cases env job source fetched ctype
                (computeSha256 env fetched) md sr ic bs1) as (r & Hr & Hcases).
    exists r. rewrite outcomeOf_after, !callsOf_after. split; [exact Hr|].
    destruct Hcases as [(message & Hins & Hst & cs & Hcs & ->)
                       | [(imageId & cs & Hins & Hlater & Hst & Hcs & ->)
                         | (imageId & cs & gcs & Hins & Hlater & Hcs & Hgcs & -> & Hgate)]].
    + split; [intros Hc; congruence|].
      intros rec imageId Hin Hup. in_cases.
    + split; [intros Hc; congruence|].
      intros rec imageId' Hin Hup. in_cases.
    + destruct Hgate as [[Hcan ->] | [[Hcan Hst] | [Hcan ->]]].
      * apply canAssign_true_iff in Hcan. destruct Hcan as (Hside & Hconf & Hic).
        split.
        -- intros _. eexists. split; [apply in_or_app; right; right; left; reflexivity|].
           simpl. rewrite Hside. auto.
        -- intros rec imageId' Hin Hup Hgate. exfalso. in_cases.
           apply Hgate. simpl. auto.
      * split; [intros Hc; congruence|].
        apply canAssign_true_iff in Hcan. destruct Hcan as (Hside & Hconf & Hic).
        intros rec imageId' Hin Hup Hgate. exfalso. in_cases.
        apply Hgate. simpl. auto.
      * split; [intros Hc; discriminate Hc|].
        intros rec imageId' Hin Hup Hgate. in_cases. split; reflexivity.
Qed.

(** C3: for every source id and every [maxRps >= 1], [tryAcquire] right
    after [initBucket] answers [true], whatever the clock readings and
    the earlier buckets; and a job whose source is known with
    [maxRps >= 1] is never answered with [rate_limited]. *)
Theorem rate_limited_unreachable sourceId rps t0 t1 (bs0 : gmap string TokenBucket)
    env job bs src :
  1 <= rps ->
  outcomeOf (resolveSource env job bs) = Returned (Some src) ->
  1 <= maxRps src ->
  fst (tryAcquire sourceId t1 (initBucket sourceId rps t0 bs0)) = true /\
  exists r, outcomeOf (processImage env job bs) = Returned r /\ status r <> rate_limited.
Proof.
  intros Hrps Hsrc Hmax. split; [apply tryAcquire_after_initBucket; exact Hrps|].
  destruct (processImage_run env job bs)
    as [[Hun (r & Hr & Hst)]
       | (pre & source & fetched & ctype & md & sr & ic & bs1 & Hpre & Heq)].
  - exists r. split; [exact Hr|].
    destruct Hst as [H | [H | [H (src' & Hsrc' & Hlt)]]]; try congruence.
    rewrite Hsrc in Hsrc'. injection Hsrc' as <-. lia.
  - rewrite Heq.
    destruct (handled_persist_cases env job source fetched ctype
                (computeSha256 env fetched) md sr ic bs1) as (r & Hr & Hcases).
    exists r. rewrite outcomeOf_after. split; [exact Hr|].
    destruct Hcases as [(message & _ & Hst & _)
                       | [(imageId & cs & _ & _ & Hst & _)
                         | (imageId & cs & gcs & _ & _ & _ & _ & _ & Hgate)]];
      try congruence.
    destruct Hgate as [[_ ->] | [[_ Hst] | [_ ->]]]; simpl; congruence.
Qed.

Lemma resolveSource_lookups env job bs :
  forallb (fun c => negb (classifiesOrDerives c)) (callsOf (resolveSource env job bs)) = true.
Proof.
  unfold resolveSource, getImageSource, getImageSourceByName, bind, call, ret, callsOf.
  destruct (truthy_opt (sourceId job)); simpl.
  - destruct (select_imageSource env _); simpl; [reflexivity|].
    destruct (truthy_opt (sourceName job)); reflexivity.
  - destruct (truthy_opt (sourceName job)); reflexivity.
Qed.

(** C8: when the fetch succeeded and the catalog holds an image with the
    SHA-256 of the fetched bytes, [processImage] logs [deduplicated] and
    then assigns the existing image to the card with role
    [primary_front], without looking at how that image was classified;
    none of its calls is decoding, classification or derivative work; and
    it returns [deduplicated] with the image id and the hash, unless the
    catalog refuses the assignment, in which case the handler logs the
    failure and returns [failed]. *)
Theorem deduplicated_short_circuit env job bs source pre bs1 fetchResult fetched sha
    existingId :
  resolveSource env job bs = (Returned source, bs, pre) ->
  checkRateLimit env source bs = (Returned None, bs1, []) ->
  fetchImage (http_get env (sourceUrl job)) (Some (sourceNameOf source job)) = fetchResult ->
  ok fetchResult = true ->
  bytes fetchResult = Some fetched ->
  computeSha256 env fetched = sha ->
  select_imageBySha256 env sha = Some existingId ->
  let run := processImage env job bs in
  role (assignmentOf job source existingId) = "primary_front"%string /\
  (exists tail,
     callsOf run =
       [CLogIngestEvent (event (cardId job) None "fetch_started"
                           (Some (sourceUrl job)) None None)]
       ++ pre
       ++ [CFetchImage (sourceUrl job) (sourceNameOf source job);
           CLogIngestEvent
             (event (cardId job) None "fetch_completed" None (httpStatus fetchResult)
                (Some (FetchedMeta (Zlength_bytes fetched) (contentType fetchResult))));
           CFindImageBySha256 sha;
           CLogIngestEvent (event (cardId job) (Some existingId) "deduplicated"
                              None None None);
           CAssignImageToCard (assignmentOf job source existingId)]
       ++ tail /\
     match upsert_cardImage env (assignmentOf job source existingId) with
     | None =>
         tail = [] /\
         outcomeOf run
         = Returned (result deduplicated (Some existingId) None (Some sha) None None)
     | Some message =>
         tail = [CLogIngestEvent
                   (event (cardId job) None "fetch_failed"
                      (Some ("Failed to assign image to card: " +:+ message)) None None)] /\
         outcomeOf run
         = Returned (result failed None
                       (Some ("Failed to assign image to card: " +:+ message))
                       None None None)
     end) /\
  forallb (fun c => negb (classifiesOrDerives c)) (callsOf run) = true.
Proof.
  intros Hres Hlim Hfetch Hok Hbytes Hsha Hfind run.
  split; [reflexivity|].
  pose proof (resolveSource_lookups env job bs) as Hpre.
  rewrite Hres in Hpre. unfold callsOf in Hpre. cbn [snd] in Hpre.
  subst run. unfold processImage, logIngestEvent. rewrite bind_call.
  unfold tryCatch, processBody.
  erewrite bind_returned by exact Hres.
  erewrite bind_returned by exact Hlim. rewrite after_nil, bind_call.
  rewrite Hfetch, Hok, Hbytes.
  unfold afterFetch, findImageBySha256, assignImageToCard, logIngestEvent.
  rewrite bind_call.
  erewrite bind_returned by (rewrite bind_call; reflexivity).
  rewrite Hsha, Hfind, bind_call.
  destruct (upsert_cardImage env (assignmentOf job source existingId)) as [message|].
  - erewrite bind_thrown by (rewrite bind_call; reflexivity).
    unfold after, handler, logIngestEvent, bind, call, ret, outcomeOf, bucketsOf, callsOf.
    cbn [fst snd]. split.
    + eexists. split; [|split; reflexivity].
      cbn [app]. rewrite <- !app_assoc. reflexivity.
    + cbn [app forallb classifiesOrDerives negb andb].
      rewrite !forallb_app, Hpre. reflexivity.
  - erewrite bind_returned by (rewrite bind_call; reflexivity).
    unfold after, ret, outcomeOf, bucketsOf, callsOf. cbn [fst snd]. split.
    + exists []. split; [|split; reflexivity].
      cbn [app]. reflexivity.
    + cbn [app forallb classifiesOrDerives negb andb].
      rewrite !forallb_app, Hpre. reflexivity.
Qed.

(** The branch that turns a job away: nothing is called between the rate
    check and the return. *)
Lemma processImage_rate_limited env job bs src pre :
  resolveSource env job bs = (Returned (Some src), bs, pre) ->
  let acquired := tryAcquire (id src) (now_tryAcquire env)
                    (initBucket (id src) (maxRps src) (now_initBucket env) bs) in
  fst acquired = false ->
  processImage env job bs =
    (Returned (result rate_limited None
                 (Some ("Rate limited, retry after "
                          +:+ WaitTime_toString (getWaitTime (id src) (snd acquired))
                          +:+ "ms"))
                 None None None),
     snd acquired,
     CLogIngestEvent (event (cardId job) None "fetch_started"
                        (Some (sourceUrl job)) None None) :: pre).
Proof.
  intros Hres acquired Hacq.
  unfold processImage, logIngestEvent. rewrite bind_call.
  unfold tryCatch, processBody.
  erewrite bind_returned by exact Hres.
  unfold checkRateLimit, getBuckets, setBuckets, bind, ret, after, outcomeOf, bucketsOf,
    callsOf.
  fold acquired. rewrite Hacq. cbn [negb fst snd app]. rewrite !app_nil_r. reflexivity.
Qed.

(** * Evaluations on the sample job *)

Ltac find_call := vm_compute; repeat first [left; reflexivity | right].

(** C1: with a source of [maxRps = 1], a first job at time 0 is completed
    and a second job for the same source 50 ms later is not turned away:
    [processImage] re-creates the full bucket before it asks for a token,
    so the second job goes on to fetch and is deduplicated. *)
Theorem second_job_not_rate_limited :
  let run1 := processImage (sampleEnv sampleSource 0 None "FRONT") sampleJob ∅ in
  let run2 := processImage (sampleEnv sampleSource 50 (Some "img-1"%string) "FRONT") sampleJob
                (bucketsOf run1) in
  (exists r1, outcomeOf run1 = Returned r1 /\ status r1 = completed) /\
  (exists r2, outcomeOf run2 = Returned r2 /\ status r2 = deduplicated
              /\ In (CFetchImage "http://x/a.jpg" "pokemontcg_api") (callsOf run2)).
Proof.
  split.
  - eexists. split; [vm_compute; reflexivity | reflexivity].
  - eexists. split; [vm_compute; reflexivity|]. split; [reflexivity | find_call].
Qed.

Lemma rate_limited_unreachable_witness :
  1 <= 1 /\
  outcomeOf (resolveSource (sampleEnv sampleSource 50 None "FRONT") sampleJob ∅)
    = Returned (Some sampleSource) /\
  1 <= maxRps sampleSource /\
  (fst (tryAcquire "s1" 51 (initBucket "s1" 1 51 ∅)) = true /\
   exists r, outcomeOf (processImage (sampleEnv sampleSource 50 None "FRONT") sampleJob ∅) = Returned r
             /\ status r <> rate_limited).
Proof.
  assert (H1 : 1 <= 1) by lia.
  assert (H2 : outcomeOf (resolveSource (sampleEnv sampleSource 50 None "FRONT") sampleJob ∅)
               = Returned (Some sampleSource)) by (vm_compute; reflexivity).
  assert (H3 : 1 <= maxRps sampleSource) by (simpl; lia).
  exact (conj H1 (conj H2 (conj H3
           (rate_limited_unreachable "s1" 1 51 51 ∅ (sampleEnv sampleSource 50 None "FRONT")
              sampleJob ∅ sampleSource H1 H2 H3)))).
Defined.

Lemma tryAcquire_as_described_witness :
  let bs : gmap string TokenBucket := {[ "s1"%string := drainedBucket ]} in
  (∅ : gmap string TokenBucket) !! "s2"%string = None /\
  bs !! "s1"%string = Some drainedBucket /\
  lastRefill drainedBucket <= 450 /\
  0 <= refillRate drainedBucket /\
  withinCapacity drainedBucket /\
  tryAcquire64 "s2" 450 ∅ = (true, ∅) /\
  exists bucket',
    snd (tryAcquire64 "s1" 450 bs) !! "s1"%string = Some bucket' /\
    (fst (tryAcquire64 "s1" 450 bs), tokens bucket')
      = tryAcquire_described64 drainedBucket
          (binary64.div (binary64.ofZ (450 - lastRefill drainedBucket))
             (binary64.ofZ 1000)) /\
    maxTokens bucket' = maxTokens drainedBucket /\
    refillRate bucket' = refillRate drainedBucket.
Proof.
  intros bs.
  assert (H1 : (∅ : gmap string TokenBucket) !! "s2"%string = None) by reflexivity.
  assert (H2 : bs !! "s1"%string = Some drainedBucket) by (vm_compute; reflexivity).
  assert (H3 : lastRefill drainedBucket <= 450) by (simpl; lia).
  assert (H4 : 0 <= refillRate drainedBucket) by (simpl; lia).
  assert (H5 : withinCapacity drainedBucket) by (unfold withinCapacity; simpl; lia).
  exact (conj H1 (conj H2 (conj H3 (conj H4 (conj H5
           (conj (proj1 (tryAcquire_as_described 450) "s2"%string ∅ H1)
                 (proj2 (tryAcquire_as_described 450) "s1"%string bs drainedBucket
                    H2 H3 H4 H5))))))).
Defined.

(** At rate 50, 580 ms after the last refill, the source refills 28
    tokens and leaves 27, where the floor of the exact product [0.58 * 50]
    is 29 and would leave 28. *)
Lemma tryAcquire_refill_is_rounded :
  let bs : gmap string TokenBucket := {[ "s1"%string := emptyFiftyBucket ]} in
  refillAmount64 emptyFiftyBucket 580 = Int 28 /\
  Qfloor (inject_Z (580 - lastRefill emptyFiftyBucket) / 1000
          * inject_Z (refillRate emptyFiftyBucket)) = 29 /\
  fst (tryAcquire64 "s1" 580 bs) = true /\
  snd (tryAcquire64 "s1" 580 bs) !! "s1"%string
  = Some {| tokens := 27; lastRefill := 580; maxTokens := 50; refillRate := 50 |} /\
  tryAcquire_described emptyFiftyBucket
    (inject_Z (580 - lastRefill emptyFiftyBucket) / 1000) = (true, 28) /\
  (true, 27) <> tryAcquire_described emptyFiftyBucket
                  (inject_Z (580 - lastRefill emptyFiftyBucket) / 1000).
Proof.
  cbv zeta.
  split; [vm_compute; reflexivity|]. split; [vm_compute; reflexivity|].
  split; [vm_compute; reflexivity|]. split; [vm_compute; reflexivity|].
  split; [vm_compute; reflexivity|]. vm_compute. discriminate.
Qed.

Lemma Zlength_bytes_replicate n (x : Z) :
  0 <= n -> Zlength_bytes (replicate (Z.to_nat n) x) = n.
Proof. intros Hn. unfold Zlength_bytes. rewrite length_replicate. lia. Qed.

Lemma known_error_payload_rejected_witness :
  let body := replicate (Z.to_nat 186316) 0 in
  response_ok 200 = true /\
  String.prefix "image/" "image/png" = true /\
  KNOWN_ERROR_PAYLOADS !! "pokemontcg_api"%string = Some [186316] /\
  In (Zlength_bytes body) [186316] /\
  fetchImage (Response 200 (Some "image/png"%string) (BodyBytes body))
    (Some "pokemontcg_api"%string)
  = {| ok := false; bytes := None; contentType := None;
       fr_error := Some "known_error_payload"%string; httpStatus := Some 200 |}.
Proof.
  intros body.
  assert (H1 : response_ok 200 = true) by reflexivity.
  assert (H2 : String.prefix "image/" "image/png" = true) by reflexivity.
  assert (H3 : KNOWN_ERROR_PAYLOADS !! "pokemontcg_api"%string = Some [186316])
    by (vm_compute; reflexivity).
  assert (H4 : In (Zlength_bytes body) [186316]).
  { left. symmetry. apply Zlength_bytes_replicate. lia. }
  exact (conj H1 (conj H2 (conj H3 (conj H4
           (known_error_payload_rejected 200 "image/png" body "pokemontcg_api"
              [186316] H1 H2 H3 H4))))).
Defined.

Lemma shouldRunVisionCheck_tiers_witness :
  (0.6 <= 0.7)%Q /\ (0.7 < 0.9)%Q /\
  (shouldRunVisionCheck 0.99 1 0.2 0.1 = false /\
   shouldRunVisionCheck 0.99 3 0.2 0.1 = true /\
   shouldRunVisionCheck 0.99 2 0.7 0.1 = true).
Proof.
  assert (H1 : (0.6 <= 0.7)%Q) by (unfold Qle; simpl; lia).
  assert (H2 : (0.7 < 0.9)%Q) by reflexivity.
  exact (conj H1 (conj H2 (shouldRunVisionCheck_tiers 0.99 0.1 0.2 0.7 H1 H2))).
Defined.

Lemma exactResize_fitsInside : fitsInside exactResize.
Proof.
  unfold fitsInside, exactResize. intros w q processed mw mh x Hres Hmw.
  injection Hres as _ <- _. injection Hmw as <-. lia.
Defined.

Lemma derivative_width_bounded_witness :
  exists ds,
    fitsInside exactResize /\
    generateDerivatives exactResize "ab12cd34" 734 = inl ds /\
    (map variant ds = [thumb; grid; detail] /\
     Forall (fun d => d_width d <= Z.min (fst (config.derivativeSizes (variant d))) 734
                      /\ d_width d <= 734) ds) /\
    map d_width ds = [160; 360; 734].
Proof.
  eexists.
  assert (H2 : generateDerivatives exactResize "ab12cd34" 734 = inl _)
    by (vm_compute; reflexivity).
  split; [exact exactResize_fitsInside|].
  split; [exact H2|].
  split; [|reflexivity].
  exact (derivative_width_bounded exactResize "ab12cd34" 734 _ exactResize_fitsInside H2).
Defined.

Lemma deduplicated_short_circuit_witness :
  let env := sampleEnv sampleSource 50 (Some "img-1"%string) "FRONT" in
  let source := Some sampleSource in
  let pre := [CGetImageSource "s1"] in
  let bs1 := bucketsOf (checkRateLimit env source ∅) in
  let fetchResult :=
    {| ok := true; bytes := Some sampleBytes; contentType := Some "image/jpeg"%string;
       fr_error := None; httpStatus := Some 200 |} in
  let run := processImage env sampleJob ∅ in
  resolveSource env sampleJob ∅ = (Returned source, ∅, pre) /\
  checkRateLimit env source ∅ = (Returned None, bs1, []) /\
  fetchImage (http_get env (sourceUrl sampleJob)) (Some (sourceNameOf source sampleJob))
    = fetchResult /\
  ok fetchResult = true /\
  bytes fetchResult = Some sampleBytes /\
  computeSha256 env sampleBytes = "ab12cd34"%string /\
  select_imageBySha256 env "ab12cd34" = Some "img-1"%string /\
  role (assignmentOf sampleJob source "img-1") = "primary_front"%string /\
  callsOf run =
    [CLogIngestEvent (event "c1" None "fetch_started" (Some "http://x/a.jpg"%string)
                        None None);
     CGetImageSource "s1";
     CFetchImage "http://x/a.jpg" "pokemontcg_api";
     CLogIngestEvent (event "c1" None "fetch_completed" None (Some 200)
                        (Some (FetchedMeta 4 (Some "image/jpeg"%string))));
     CFindImageBySha256 "ab12cd34";
     CLogIngestEvent (event "c1" (Some "img-1"%string) "deduplicated" None None None);
     CAssignImageToCard (assignmentOf sampleJob source "img-1")] /\
  outcomeOf run
  = Returned (result deduplicated (Some "img-1"%string) None (Some "ab12cd34"%string)
                None None) /\
  forallb (fun c => negb (classifiesOrDerives c)) (callsOf run) = true.
Proof.
  intros env source pre bs1 fetchResult run.
  assert (H1 : resolveSource env sampleJob ∅ = (Returned source, ∅, pre))
    by (vm_compute; reflexivity).
  assert (H2 : checkRateLimit env source ∅ = (Returned None, bs1, []))
    by (vm_compute; reflexivity).
  assert (H3 : fetchImage (http_get env (sourceUrl sampleJob))
                 (Some (sourceNameOf source sampleJob)) = fetchResult)
    by (vm_compute; reflexivity).
  assert (H4 : ok fetchResult = true) by reflexivity.
  assert (H5 : bytes fetchResult = Some sampleBytes) by reflexivity.
  assert (H6 : computeSha256 env sampleBytes = "ab12cd34"%string) by reflexivity.
  assert (H7 : select_imageBySha256 env "ab12cd34" = Some "img-1"%string) by reflexivity.
  destruct (deduplicated_short_circuit env sampleJob ∅ source pre bs1 fetchResult
              sampleBytes "ab12cd34" "img-1" H1 H2 H3 H4 H5 H6 H7)
    as (Hrole & (tail & Hcalls & Hend) & Hnone).
  cbn in Hend. destruct Hend as [-> Hout].
  exact (conj H1 (conj H2 (conj H3 (conj H4 (conj H5 (conj H6 (conj H7
           (conj Hrole (conj Hcalls (conj Hout Hnone)))))))))).
Defined.

(** With the image already in the catalog under the hash of the fetched
    bytes, and a catalog that refuses to link it to the card, the run
    logs [deduplicated], asks for the assignment and returns [failed],
    not [deduplicated]. *)
Lemma deduplicated_not_returned_when_assignment_fails :
  let env := refusingAssignmentEnv 50 in
  let source := Some sampleSource in
  let run := processImage env sampleJob ∅ in
  ok (fetchImage (http_get env (sourceUrl sampleJob))
        (Some (sourceNameOf source sampleJob))) = true /\
  bytes (fetchImage (http_get env (sourceUrl sampleJob))
           (Some (sourceNameOf source sampleJob))) = Some sampleBytes /\
  select_imageBySha256 env (computeSha256 env sampleBytes) = Some "img-1"%string /\
  In (CLogIngestEvent (event "c1" (Some "img-1"%string) "deduplicated" None None None))
    (callsOf run) /\
  In (CAssignImageToCard (assignmentOf sampleJob source "img-1")) (callsOf run) /\
  outcomeOf run
  = Returned (result failed None
                (Some "Failed to assign image to card: insert or update violates foreign key"%string)
                None None None) /\
  outcomeOf run
  <> Returned (result deduplicated (Some "img-1"%string) None (Some "ab12cd34"%string)
                None None).
Proof.
  cbv zeta.
  split; [vm_compute; reflexivity|]. split; [vm_compute; reflexivity|].
  split; [reflexivity|]. split; [find_call|]. split; [find_call|].
  split; [vm_compute; reflexivity|]. vm_compute. discriminate.
Qed.

Lemma failed_status_never_written_witness :
  let env := failingUploadEnv 0 in
  let run := processImage env sampleJob ∅ in
  In (CCreateImageRecord sampleRecord) (callsOf run) /\
  insert_image env sampleRecord = inl "img-1"%string /\
  In (CGenerateDerivatives sampleBytes "ab12cd34" 734) (callsOf run) /\
  laterStagesSucceed env "img-1" sampleBytes "ab12cd34" 734 = false /\
  exists r, outcomeOf run = Returned r /\
    ir_status sampleRecord = "processing"%string /\
    status r = failed /\
    forall imageId s, ~ In (CUpdateImageStatus imageId s) (callsOf run).
Proof.
  intros env run.
  assert (H1 : In (CCreateImageRecord sampleRecord) (callsOf run)) by find_call.
  assert (H2 : insert_image env sampleRecord = inl "img-1"%string) by reflexivity.
  assert (H3 : In (CGenerateDerivatives sampleBytes "ab12cd34" 734) (callsOf run))
    by find_call.
  assert (H4 : laterStagesSucceed env "img-1" sampleBytes "ab12cd34" 734 = false)
    by (vm_compute; reflexivity).
  split; [exact H1|]. split; [exact H2|]. split; [exact H3|]. split; [exact H4|].
  destruct (failed_status_never_written env sampleJob ∅)
    as (r & Hr & _ & Hprocessing & Hleak & _).
  exists r. split; [exact Hr|].
  split; [exact (Hprocessing sampleRecord H1)|].
  exact (Hleak sampleRecord "img-1"%string sampleBytes "ab12cd34"%string 734 H1 H2 H3 H4).
Defined.

Lemma assignment_gate_witness :
  let accepted := processImage (sampleEnv sampleSource 0 None "FRONT") sampleJob ∅ in
  let refused := processImage (sampleEnv sampleSource 0 None "no card in sight") sampleJob ∅ in
  (exists r, outcomeOf accepted = Returned r /\ status r = completed /\
     exists rec,
       In (CCreateImageRecord rec) (callsOf accepted) /\
       ir_detectedSide rec = front /\ (0.85 <= sideConfidence rec)%Q /\
       ir_isCollage rec = false /\
       detectedSide r = Some front /\ confidence r = Some (sideConfidence rec)) /\
  In (CCreateImageRecord sampleUnknownRecord) (callsOf refused) /\
  In (CUpdateImageStatus "img-1" "completed") (callsOf refused) /\
  ~ (ir_detectedSide sampleUnknownRecord = front
     /\ (0.85 <= sideConfidence sampleUnknownRecord)%Q
     /\ ir_isCollage sampleUnknownRecord = false) /\
  exists r, outcomeOf refused = Returned r /\ status r = rejected /\
    error r = Some "Not assigned: side=unknown, confidence=0.50, isCollage=false"%string.
Proof.
  intros accepted refused. split.
  - destruct (assignment_gate (sampleEnv sampleSource 0 None "FRONT") sampleJob ∅)
      as (r & Hr & Hcompleted & _).
    exists r. split; [exact Hr|].
    assert (Hst : status r = completed).
    { vm_compute in Hr. injection Hr as <-. reflexivity. }
    split; [exact Hst | exact (Hcompleted Hst)].
  - assert (H1 : In (CCreateImageRecord sampleUnknownRecord) (callsOf refused))
      by find_call.
    assert (H2 : In (CUpdateImageStatus "img-1" "completed") (callsOf refused))
      by find_call.
    assert (H3 : ~ (ir_detectedSide sampleUnknownRecord = front
                    /\ (0.85 <= sideConfidence sampleUnknownRecord)%Q
                    /\ ir_isCollage sampleUnknownRecord = false)).
    { intros [Hside _]. discriminate Hside. }
    split; [exact H1|]. split; [exact H2|]. split; [exact H3|].
    destruct (assignment_gate (sampleEnv sampleSource 0 None "no card in sight") sampleJob ∅)
      as (r & Hr & _ & Hrejected).
    exists r. split; [exact Hr|].
    exact (Hrejected sampleUnknownRecord "img-1"%string H1 H2 H3).
Defined.

(** * Further evaluations *)

(** The bucket itself throttles when it is not created anew: a second
    token within the same second is refused and the wait is a second. *)
Example limiter_refuses_second_token :
  let bs1 := snd (tryAcquire "s1" 0 (initBucket "s1" 1 0 ∅)) in
  fst (tryAcquire "s1" 50 bs1) = false /\
  getWaitTime "s1" (snd (tryAcquire "s1" 50 bs1)) = Millis 1000.
Proof. split; vm_compute; reflexivity. Qed.

(** A source without capacity is the one case in which a job is turned
    away; no call follows the source lookup. *)
Example closed_source_rate_limited :
  let run := processImage (sampleEnv closedSource 0 None "FRONT") sampleJob ∅ in
  outcomeOf run
  = Returned (result rate_limited None
                (Some "Rate limited, retry after Infinityms"%string) None None None) /\
  callsOf run
  = [CLogIngestEvent (event "c1" None "fetch_started" (Some "http://x/a.jpg"%string)
                        None None);
     CGetImageSource "s1"].
Proof. split; vm_compute; reflexivity. Qed.

Example toFixed2_rounds_to_hundredths :
  toFixed2 0.95 = "0.95"%string /\ toFixed2 0.5 = "0.50"%string /\
  toFixed2 0.855 = "0.86"%string /\ toFixed2 1 = "1.00"%string /\
  toFixed2 0.004 = "0.00"%string.
Proof. repeat split; vm_compute; reflexivity. Qed.

Example wide_image_is_collage :
  detectCollage (Metadata (Some 1600) (Some 600) None) (fun _ => None) = true.
Proof. vm_compute. reflexivity. Qed.

Example yellow_pixels_make_a_yellow_border :
  let yellow := {| r := Some 250; g := Some 200; b := Some 10 |} in
  let blue := {| r := Some 30; g := Some 100; b := Some 180 |} in
  hasYellowBorder (analyzePixelColors [yellow; yellow; blue]) = true /\
  isBlueBack (analyzePixelColors [yellow; blue; blue]) = true /\
  hasVariedColors (analyzePixelColors [yellow; blue; blue]) = false.
Proof. repeat split; vm_compute; reflexivity. Qed.

Example border_is_the_outer_tenth :
  length (extractBorderPixels [] 10 10) = 36%nat.
Proof. vm_compute. reflexivity. Qed.

Example vision_answer_is_searched_for_keywords :
  checkWithVision "key" (VisionContent (Some "  front of the card.  "%string))
  = {| side := front; sd_confidence := 0.95; method := vision |} /\
  checkWithVision "key" (VisionContent (Some "wrong_card"%string))
  = {| side := unknown; sd_confidence := 0.3; method := vision |} /\
  checkWithVision EmptyString (VisionContent (Some "FRONT"%string)) = visionFallback.
Proof. repeat split; vm_compute; reflexivity. Qed.

Example storage_path_is_sharded :
  getDerivativeStoragePath "ab12cd34" detail = "derivatives/ab/ab12cd34/detail.webp"%string.
Proof. reflexivity. Qed.

(** * The rate limiter beyond a single call *)

Lemma refillBucket_inRange bucket now :
  bucketInRange bucket -> bucketInRange (refillBucket bucket now).
Proof.
  unfold bucketInRange, refillBucket. intros H.
  destruct (0 <? refillAmount bucket now) eqn:Hre; simpl; [|exact H].
  apply Z.ltb_lt in Hre. lia.
Qed.

(** X1: in a bucket map whose buckets all hold between zero tokens and
    their capacity, [initBucket] with a non-negative rate and
    [tryAcquire] both leave every bucket in that range. *)
Theorem buckets_stay_in_range sourceId rps t0 now (bs : gmap string TokenBucket) :
  0 <= rps ->
  (forall k b, bs !! k = Some b -> bucketInRange b) ->
  (forall k b, initBucket sourceId rps t0 bs !! k = Some b -> bucketInRange b) /\
  (forall k b, snd (tryAcquire sourceId now bs) !! k = Some b -> bucketInRange b).
Proof.
  intros Hrps Hall. split; intros k b.
  - unfold initBucket.
    destruct (decide (sourceId = k)) as [->|Hne].
    + rewrite lookup_insert_eq. intros [= <-]. unfold bucketInRange. simpl. lia.
    + rewrite lookup_insert_ne by assumption. apply Hall.
  - unfold tryAcquire.
    destruct (bs !! sourceId) as [bucket|] eqn:Hb; simpl; [|apply Hall].
    pose proof (refillBucket_inRange bucket now (Hall _ _ Hb)) as Hin.
    destruct (0 <? tokens (refillBucket bucket now)) eqn:Hpos; simpl;
      (destruct (decide (sourceId = k)) as [->|Hne];
       [rewrite lookup_insert_eq; intros [= <-]
       | rewrite lookup_insert_ne by assumption; apply Hall]).
    + apply Z.ltb_lt in Hpos. unfold bucketInRange, debit in *. simpl. lia.
    + exact Hin.
Qed.

Lemma tryAcquire_frame sourceId other now (bs : gmap string TokenBucket) :
  other <> sourceId ->
  snd (tryAcquire sourceId now bs) !! other = bs !! other /\
  dom (snd (tryAcquire sourceId now bs)) = dom bs.
Proof.
  intros Hne. unfold tryAcquire.
  destruct (bs !! sourceId) as [bucket|] eqn:Hb; simpl; [|split; reflexivity].
  assert (Hdom : forall b' : TokenBucket, dom (<[sourceId := b']> bs) = dom bs).
  { intros b'. rewrite dom_insert_L. apply subseteq_union_1_L.
    apply singleton_subseteq_l, elem_of_dom. eauto. }
  destruct (0 <? tokens (refillBucket bucket now)); simpl;
    (split; [apply lookup_insert_ne; intros Heq; apply Hne; symmetry; exact Heq | apply Hdom]).
Qed.

(** X2: [tryAcquire] for one source leaves the bucket of every other
    source as it was, and neither adds nor removes a key. *)
Theorem tryAcquire_other_sources sourceId other now (bs : gmap string TokenBucket) :
  other <> sourceId ->
  snd (tryAcquire sourceId now bs) !! other = bs !! other /\
  dom (snd (tryAcquire sourceId now bs)) = dom bs.
Proof. apply tryAcquire_frame. Qed.








(** X5: the cleanup keeps a bucket that was refilled within the last
    minute as it is and drops one that was idle for longer; a source
    whose bucket was dropped is then granted every token, whatever the
    time. *)
Theorem sweep_drops_only_idle now (bs : gmap string TokenBucket) k bucket :
  bs !! k = Some bucket ->
  (now - lastRefill bucket <= CACHE_DURATION_MS -> sweep now bs !! k = Some bucket) /\
  (CACHE_DURATION_MS < now - lastRefill bucket ->
   sweep now bs !! k = None /\
   forall later, tryAcquire k later (sweep now bs) = (true, sweep now bs)).
Proof.
  intros Hb. unfold sweep. split.
  - intros Hrecent. apply map_lookup_filter_Some. split; [exact Hb|].
    cbn [snd]. apply negb_true_iff, Z.ltb_ge. exact Hrecent.
  - intros Hidle.
    assert (Hnone : filter (fun kb : string * TokenBucket =>
                       negb (CACHE_DURATION_MS <? now - lastRefill (snd kb)) = true) bs
                    !! k = None).
    { apply map_lookup_filter_None. right. intros b' Hb'.
      rewrite Hb in Hb'. injection Hb' as <-. cbn [snd].
      apply Z.ltb_lt in Hidle. rewrite Hidle. discriminate. }
    split; [exact Hnone|]. intros later. unfold tryAcquire. rewrite Hnone. reflexivity.
Qed.

(** What the cleanup leaves in place is left as it was. *)
Lemma sweep_lookup_Some now (bs : gmap string TokenBucket) k bucket :
  sweep now bs !! k = Some bucket ->
  bs !! k = Some bucket /\ now - lastRefill bucket <= CACHE_DURATION_MS.
Proof.
  unfold sweep. intros H. apply map_lookup_filter_Some in H. destruct H as [Hb Hkeep].
  split; [exact Hb|]. cbn [snd] in Hkeep. apply negb_true_iff, Z.ltb_ge in Hkeep.
  exact Hkeep.
Qed.

(** * The fetch and the anatomy of a run *)

Lemma fetchImage_shape outcome sourceName :
  let r := fetchImage outcome sourceName in
  (ok r = true ->
   exists st ct fetched,
     outcome = Response st (Some ct) (BodyBytes fetched) /\
     response_ok st = true /\
     String.prefix "image/" ct = true /\
     bytes r = Some fetched /\ contentType r = Some ct /\
     httpStatus r = Some st /\ fr_error r = None /\
     (truthy_opt sourceName = true ->
      isKnownErrorPayload fetched (default EmptyString sourceName) = false)) /\
  (ok r = false ->
   bytes r = None /\ contentType r = None /\ exists message, fr_error r = Some message).
Proof.
  unfold fetchImage, fetchFailure.
  destruct outcome as [message | st header body]; cbn zeta.
  { split; [discriminate | intros _; eauto]. }
  destruct (response_ok st) eqn:Hst; cbn [negb]; [|split; [discriminate | intros _; eauto]].
  destruct header as [h|]; [|split; [discriminate | intros _; eauto]].
  destruct (truthy h) eqn:Hh.
  2:{ destruct h; [|discriminate Hh]. split; [discriminate | intros _; eauto]. }
  destruct (String.prefix "image/" h) eqn:Hct; cbn [negb];
    [|split; [discriminate | intros _; eauto]].
  destruct body as [fetched | message]; [|split; [discriminate | intros _; eauto]].
  destruct (truthy_opt sourceName) eqn:Hname; cbn [andb].
  - destruct (isKnownErrorPayload fetched (default EmptyString sourceName)) eqn:Hknown.
    + split; [discriminate | intros _; eauto].
    + split; [|discriminate]. intros _. exists st, h, fetched. repeat split; auto.
  - split; [|discriminate]. intros _. exists st, h, fetched. repeat split; auto.
    discriminate.
Qed.

(** X6: the result of [fetchImage] is of one of two shapes.  With
    [ok = true] the response had a 2xx status and a content type
    starting with [image/], the body was read, the result carries its
    bytes, the content type and the status and no error, and the body is
    not a known error payload of the source.  With [ok = false] it
    carries an error message and neither bytes nor content type. *)
Theorem fetchImage_result_shape outcome sourceName :
  let r := fetchImage outcome sourceName in
  (ok r = true ->
   exists st ct fetched,
     outcome = Response st (Some ct) (BodyBytes fetched) /\
     response_ok st = true /\
     String.prefix "image/" ct = true /\
     bytes r = Some fetched /\ contentType r = Some ct /\
     httpStatus r = Some st /\ fr_error r = None /\
     (truthy_opt sourceName = true ->
      isKnownErrorPayload fetched (default EmptyString sourceName) = false)) /\
  (ok r = false ->
   bytes r = None /\ contentType r = None /\ exists message, fr_error r = Some message).
Proof. apply fetchImage_shape. Qed.

Lemma fetchImage_ok_has_bytes outcome sourceName :
  ok (fetchImage outcome sourceName) = true ->
  exists fetched, bytes (fetchImage outcome sourceName) = Some fetched.
Proof.
  intros Hok. destruct (fetchImage_shape outcome sourceName) as [Hshape _].
  destruct (Hshape Hok) as (st & ct & fetched & _ & _ & _ & Hb & _). eauto.
Qed.

Lemma handler_run job message bs :
  handler job message bs
  = (Returned (result failed None (Some message) None None None), bs,
     [failureEvent job "fetch_failed" (Some message) None]).
Proof. reflexivity. Qed.

Lemma processImage_anatomy env job bs : ProcessRun env job bs (processImage env job bs).
Proof.
  unfold processImage, logIngestEvent. rewrite bind_call.
  destruct (resolveSource_run env job bs) as (source & pre & Hres & _).
  destruct (checkRateLimit_run env source bs) as (limited & bs1 & Hlim & Hcases).
  assert (Hbody : processBody env job bs
                  = after pre (match limited with
                               | Some r => ret r bs1
                               | None =>
                                   after [CFetchImage (sourceUrl job) (sourceNameOf source job)]
                                     (match ok (fetchFor env job source),
                                            bytes (fetchFor env job source) with
                                      | true, Some fetched =>
                                          afterFetch env job source (trustTierOf source job)
                                            fetched (contentType (fetchFor env job source))
                                            (httpStatus (fetchFor env job source)) bs1
                                      | _, _ =>
                                          (logIngestEvent
                                             (event (cardId job) None "fetch_failed"
                                                (fr_error (fetchFor env job source))
                                                (httpStatus (fetchFor env job source)) None);;
                                           ret (result failed None
                                                  (fr_error (fetchFor env job source))
                                                  None None None)) bs1
                                      end)
                               end)).
  { unfold processBody.
    erewrite bind_returned by exact Hres.
    erewrite bind_returned by exact Hlim. rewrite after_nil.
    destruct limited as [r|]; [reflexivity|].
    rewrite bind_call. unfold fetchFor.
    destruct (ok _); [destruct (bytes _)|]; reflexivity. }
  destruct Hcases as [-> | (src & r & -> & -> & _ & Hr)].
  2:{ unfold tryCatch. rewrite Hbody. unfold after, ret, outcomeOf, bucketsOf, callsOf.
      cbn [fst snd app]. rewrite app_nil_r.
      apply (RunRateLimited env job bs src pre bs1 r Hres Hlim). rewrite Hr. reflexivity. }
  destruct (ok (fetchFor env job source)) eqn:Hok.
  2:{ unfold tryCatch. rewrite Hbody. unfold logIngestEvent. rewrite bind_call.
      unfold after, ret, outcomeOf, bucketsOf, callsOf. cbn [fst snd app].
      apply (RunFetchFailed env job bs source pre bs1 Hres Hlim Hok). }
  destruct (fetchImage_ok_has_bytes _ _ Hok) as [fetched Hbytes].
  fold (fetchFor env job source) in Hbytes. rewrite Hbytes in Hbody.
  unfold afterFetch, findImageBySha256, assignImageToCard, logIngestEvent in Hbody.
  rewrite bind_call in Hbody.
  erewrite bind_returned in Hbody by (rewrite bind_call; reflexivity).
  destruct (select_imageBySha256 env (computeSha256 env fetched)) as [existingId|] eqn:Hfind.
  - rewrite bind_call in Hbody.
    pose proof (RunDeduplicated env job bs source pre bs1 fetched existingId
                  Hres Hlim Hok Hbytes Hfind) as Hrun.
    destruct (upsert_cardImage env (assignmentOf job source existingId)) as [message|].
    + erewrite bind_thrown in Hbody by (rewrite bind_call; reflexivity).
      unfold tryCatch. rewrite Hbody.
      unfold after, handler, logIngestEvent, bind, call, ret, throw,
        outcomeOf, bucketsOf, callsOf.
      cbn [fst snd app]. rewrite <- !app_assoc. exact Hrun.
    + erewrite bind_returned in Hbody by (rewrite bind_call; reflexivity).
      unfold tryCatch. rewrite Hbody.
      unfold after, ret, outcomeOf, bucketsOf, callsOf.
      cbn [fst snd app]. rewrite app_nil_r in Hrun. rewrite <- ?app_assoc.
      cbn [app]. rewrite ?app_nil_r. exact Hrun.
  - rewrite bind_call in Hbody.
    destruct (decodeImage (sharp_metadata env fetched) fetched) as [md|message] eqn:Hdec.
    + destruct (classify_run env job (trustTierOf source job) fetched md bs1)
        as (verdict & classifying & Hcl & _).
      erewrite bind_returned in Hbody by exact Hcl.
      rewrite bind_call, !after_after in Hbody.
      rewrite (tryCatch_after _ _ _ _ _ _ Hbody), after_after.
      pose proof (RunPersisted env job bs source pre bs1 fetched md verdict classifying
                    Hres Hlim Hok Hbytes Hfind Hdec Hcl) as Hrun.
      cbn [app] in Hrun |- *. rewrite <- ?app_assoc in Hrun. rewrite <- ?app_assoc.
      unfold callsOf at 1. unfold ret at 1. cbn [snd app] in Hrun |- *. exact Hrun.
    + rewrite bind_call in Hbody. unfold tryCatch. rewrite Hbody.
      unfold after, ret, outcomeOf, bucketsOf, callsOf. cbn [fst snd app].
      rewrite ?app_nil_r, <- ?app_assoc. cbn [app].
      apply (RunValidationFailed env job bs source pre bs1 fetched message
               Hres Hlim Hok Hbytes Hfind Hdec).
Qed.

(** * What a run returns and logs *)

Lemma tryCatch_handler_run (m : M ProcessResult) job bs :
  (exists r bs1 cs, m bs = (Returned r, bs1, cs) /\
                    tryCatch m (handler job) bs = (Returned r, bs1, cs))
  \/ (exists message bs1 cs,
        m bs = (Thrown message, bs1, cs) /\
        tryCatch m (handler job) bs
        = (Returned (result failed None (Some message) None None None), bs1,
           cs ++ [failureEvent job "fetch_failed" (Some message) None])).
Proof.
  unfold tryCatch. destruct (m bs) as [[[r|message] bs1] cs].
  - left. eauto.
  - right. exists message, bs1, cs. split; reflexivity.
Qed.

Lemma persist_returned env job source fetched ctype sha md sr ic bs r bs1 cs :
  persist env job source fetched ctype sha md sr ic bs = (Returned r, bs1, cs) ->
  bs1 = bs /\
  exists imageId,
    insert_image env (imageRecordOf fetched ctype sha md sr ic) = inl imageId /\
    ((canAssign sr ic = true /\
      r = result completed (Some imageId) None (Some sha)
            (Some (side sr)) (Some (sd_confidence sr)))
     \/ (canAssign sr ic = false /\
         r = result rejected (Some imageId) (Some (rejectedError sr ic)) (Some sha)
               (Some (side sr)) (Some (sd_confidence sr)))).
Proof.
  intros Hrun.
  destruct (persist_run env job source fetched ctype sha md sr ic bs)
    as [message Hins | imageId message calls Hins Hlater Hcalls
        | imageId calls out gateCalls Hins Hlater Hcalls Hgate]; try discriminate Hrun.
  injection Hrun as -> <- _. split; [reflexivity|]. exists imageId. split; [exact Hins|].
  destruct (assignOrReject_cases env job source sha sr ic imageId bs) as (_ & _ & Hcases).
  rewrite Hgate in Hcases. unfold outcomeOf in Hcases. cbn [fst] in Hcases.
  destruct Hcases as [[Hcan [= ->]] | [[_ [message [=]]] | [Hcan [= ->]]]]; auto.
Qed.

Lemma persist_buckets env job source fetched ctype sha md sr ic bs :
  bucketsOf (persist env job source fetched ctype sha md sr ic bs) = bs.
Proof.
  destruct (persist_run env job source fetched ctype sha md sr ic bs); reflexivity.
Qed.

(** How the handled [persist] ends: with the result of the gate, or with
    [failed] and the failure logged as the last call. *)
Lemma handled_persist_ends env job source fetched ctype sha md sr ic bs :
  let run := tryCatch (persist env job source fetched ctype sha md sr ic) (handler job) bs in
  bucketsOf run = bs /\
  ((exists imageId,
      (canAssign sr ic = true /\
       outcomeOf run = Returned (result completed (Some imageId) None (Some sha)
                                   (Some (side sr)) (Some (sd_confidence sr))))
      \/ (canAssign sr ic = false /\
          outcomeOf run = Returned (result rejected (Some imageId)
                                      (Some (rejectedError sr ic)) (Some sha)
                                      (Some (side sr)) (Some (sd_confidence sr)))))
   \/ (exists message cs,
         outcomeOf run = Returned (result failed None (Some message) None None None) /\
         callsOf run = cs ++ [failureEvent job "fetch_failed" (Some message) None])).
Proof.
  intros run. subst run.
  pose proof (persist_buckets env job source fetched ctype sha md sr ic bs) as Hbs.
  destruct (tryCatch_handler_run
              (persist env job source fetched ctype sha md sr ic) job bs)
    as [(r & bs1 & cs & Hm & ->) | (message & bs1 & cs & Hm & ->)].
  - destruct (persist_returned _ _ _ _ _ _ _ _ _ _ _ _ _ Hm)
      as (-> & imageId & _ & [[Hcan ->] | [Hcan ->]]).
    + split; [reflexivity|]. left. exists imageId. left. split; [exact Hcan | reflexivity].
    + split; [reflexivity|]. left. exists imageId. right. split; [exact Hcan | reflexivity].
  - rewrite Hm in Hbs. unfold bucketsOf in Hbs |- *. cbn [fst snd] in Hbs |- *.
    split; [exact Hbs|]. right. exists message, cs. split; reflexivity.
Qed.

Lemma classify_verdict env job tier fetched md bs :
  let heuristicResult := detectSide (sharp_raw64 env fetched) md in
  let isCollage := detectCollage (sharp_metadata env fetched) (sharp_sobel env fetched) in
  let visionResult := checkWithVision (openrouterApiKey env)
                        (vision_post env (visionPrompt job tier) fetched) in
  let asked := shouldRunVisionCheck (Math_random env) tier
                 (sd_confidence heuristicResult) 0.1 in
  classify env job tier fetched md bs
  = (Returned (if asked && Qltb (sd_confidence heuristicResult) (sd_confidence visionResult)
               then visionResult else heuristicResult, isCollage),
     bs,
     [CDetectSide; CDetectCollage] ++ if asked then [CCheckWithVision tier] else []).
Proof.
  unfold classify, bind, call, ret. cbn [fst snd app].
  destruct (shouldRunVisionCheck _ _ _ _); cbn [andb fst snd app]; [|reflexivity].
  destruct (Qltb _ _); reflexivity.
Qed.

Lemma fetchFor_failed_has_error env job source :
  ok (fetchFor env job source) = false ->
  exists message, fr_error (fetchFor env job source) = Some message.
Proof.
  intros Hok. unfold fetchFor in *.
  destruct (fetchImage_shape (http_get env (sourceUrl job))
              (Some (sourceNameOf source job))) as [_ Hfail].
  destruct (Hfail Hok) as (_ & _ & Hmsg). exact Hmsg.
Qed.

(** X7: every run of [processImage] returns a result whose fields go
    with its status.  [failed] and [rate_limited] carry an error and no
    image id, hash, side or confidence; [deduplicated] carries the id the
    catalog holds for the hash of the fetched bytes and no error;
    [completed] carries an image id, that hash, the side [front] and a
    confidence between 0.85 and 1; [rejected] carries an image id, that
    hash, an error, the side and a confidence between 0 and 1. *)
Theorem processImage_result_shape env job bs :
  exists r,
    outcomeOf (processImage env job bs) = Returned r /\
    match status r with
    | failed | rate_limited =>
        imageId r = None /\ sha256 r = None /\ detectedSide r = None /\
        confidence r = None /\ exists message, error r = Some message
    | deduplicated =>
        error r = None /\ detectedSide r = None /\ confidence r = None /\
        exists existingId source fetched,
          imageId r = Some existingId /\
          bytes (fetchFor env job source) = Some fetched /\
          sha256 r = Some (computeSha256 env fetched) /\
          select_imageBySha256 env (computeSha256 env fetched) = Some existingId
    | completed =>
        error r = None /\ detectedSide r = Some front /\
        exists imageId' source fetched c,
          imageId r = Some imageId' /\
          bytes (fetchFor env job source) = Some fetched /\
          sha256 r = Some (computeSha256 env fetched) /\
          confidence r = Some c /\ (config.minConfidenceForAssignment <= c <= 1)%Q
    | rejected =>
        exists imageId' source fetched message s c,
          imageId r = Some imageId' /\
          bytes (fetchFor env job source) = Some fetched /\
          sha256 r = Some (computeSha256 env fetched) /\
          error r = Some message /\ detectedSide r = Some s /\
          confidence r = Some c /\ (0 <= c <= 1)%Q
    end.
Proof.
  destruct (processImage_anatomy env job bs)
    as [src pre bs1 r Hres Hlim Hst
       | source pre bs1 Hres Hlim Hok
       | source pre bs1 fetched existingId Hres Hlim Hok Hbytes Hfind
       | source pre bs1 fetched message Hres Hlim Hok Hbytes Hfind Hdec
       | source pre bs1 fetched md verdict classifying Hres Hlim Hok Hbytes Hfind Hdec Hcl].
  - exists r. split; [reflexivity|]. rewrite Hst.
    destruct (checkRateLimit_run env (Some src) bs) as (limited & bs' & Hrun & Hcases).
    rewrite Hlim in Hrun. injection Hrun as <- <-.
    destruct Hcases as [[=] | (src' & r' & _ & [= <-] & _ & ->)].
    cbn. repeat split; eauto.
  - eexists. split; [reflexivity|]. cbn.
    repeat split; auto. apply fetchFor_failed_has_error. exact Hok.
  - eexists. split; [reflexivity|].
    destruct (upsert_cardImage env (assignmentOf job source existingId)); cbn.
    + repeat split; eauto.
    + repeat split; auto. exists existingId, source, fetched. repeat split; auto.
  - eexists. split; [reflexivity|]. cbn. repeat split; eauto.
  - rewrite outcomeOf_after.
    assert (Hconf : (0 <= sd_confidence (fst verdict) <= 1)%Q).
    { apply (classify_confidence env job (trustTierOf source job) fetched md bs1).
      rewrite Hcl. reflexivity. }
    destruct (handled_persist_ends env job source fetched
                (contentType (fetchFor env job source)) (computeSha256 env fetched)
                md (fst verdict) (snd verdict) bs1)
      as (_ & [(imageId' & [[Hcan ->] | [Hcan ->]]) | (message & cs & -> & _)]).
    + eexists. split; [reflexivity|]. cbn.
      apply canAssign_true_iff in Hcan. destruct Hcan as (Hside & Hc & _).
      split; [reflexivity|]. split; [rewrite Hside; reflexivity|].
      exists imageId', source, fetched, (sd_confidence (fst verdict)).
      repeat split; auto. apply Hconf.
    + eexists. split; [reflexivity|]. cbn.
      exists imageId', source, fetched, (rejectedError (fst verdict) (snd verdict)),
        (side (fst verdict)), (sd_confidence (fst verdict)).
      repeat split; auto; apply Hconf.
    + eexists. split; [reflexivity|]. cbn. repeat split; eauto.
Qed.

(** X8: when [processImage] returns [failed], the last call of the run
    logs an event of type [fetch_failed] or [validation_failed] that
    carries the very error the result returns. *)
Theorem processImage_failure_logged env job bs r :
  outcomeOf (processImage env job bs) = Returned r ->
  status r = failed ->
  exists type st,
    last (callsOf (processImage env job bs)) = Some (failureEvent job type (error r) st) /\
    (type = "fetch_failed"%string \/ type = "validation_failed"%string).
Proof.
  destruct (processImage_anatomy env job bs)
    as [src pre bs1 r' Hres Hlim Hst
       | source pre bs1 Hres Hlim Hok
       | source pre bs1 fetched existingId Hres Hlim Hok Hbytes Hfind
       | source pre bs1 fetched message Hres Hlim Hok Hbytes Hfind Hdec
       | source pre bs1 fetched md verdict classifying Hres Hlim Hok Hbytes Hfind Hdec Hcl].
  - intros [= ->] Hfailed. congruence.
  - intros [= <-] _. unfold callsOf. cbn [snd error result].
    eexists _, _. split; [|left; reflexivity].
    rewrite app_comm_cons, last_app. reflexivity.
  - unfold outcomeOf, callsOf. cbn [fst snd].
    destruct (upsert_cardImage env (assignmentOf job source existingId)).
    + intros [= <-] _. cbn [error result]. eexists _, _. split; [|left; reflexivity].
      rewrite app_comm_cons, app_assoc, last_app. reflexivity.
    + intros [= <-] [=].
  - intros [= <-] _. unfold callsOf. cbn [snd error result].
    eexists _, _. split; [|right; reflexivity].
    rewrite app_comm_cons, last_app. reflexivity.
  - rewrite outcomeOf_after, callsOf_after.
    destruct (handled_persist_ends env job source fetched
                (contentType (fetchFor env job source)) (computeSha256 env fetched)
                md (fst verdict) (snd verdict) bs1)
      as (_ & [(imageId' & [[Hcan ->] | [Hcan ->]]) | (message & cs & -> & ->)]).
    + intros [= <-] [=].
    + intros [= <-] [=].
    + intros [= <-] _. cbn [error result]. eexists _, _. split; [|left; reflexivity].
      rewrite app_assoc, last_app. reflexivity.
Qed.

Lemma initBucket_other sourceId rps now (bs : gmap string TokenBucket) other :
  other <> sourceId -> initBucket sourceId rps now bs !! other = bs !! other.
Proof.
  intros Hne. unfold initBucket.
  apply lookup_insert_ne. intros Heq. apply Hne. symmetry. exact Heq.
Qed.

Lemma checkRateLimit_buckets env source bs :
  bucketsOf (checkRateLimit env source bs)
  = match source with
    | None => bs
    | Some src =>
        snd (tryAcquire (id src) (now_tryAcquire env)
               (initBucket (id src) (maxRps src) (now_initBucket env) bs))
    end.
Proof.
  unfold checkRateLimit. destruct source as [src|]; [|reflexivity].
  unfold bind, getBuckets, setBuckets, ret, bucketsOf. cbn [fst snd].
  destruct (negb _); reflexivity.
Qed.

(** X9: the only change [processImage] makes to the bucket map is that
    of [initBucket] followed by [tryAcquire] for the source the job
    resolved to; with no source the map is untouched, and the bucket of
    every other source stays as it was. *)
Theorem processImage_buckets env job bs :
  exists source pre,
    resolveSource env job bs = (Returned source, bs, pre) /\
    bucketsOf (processImage env job bs)
    = match source with
      | None => bs
      | Some src =>
          snd (tryAcquire (id src) (now_tryAcquire env)
                 (initBucket (id src) (maxRps src) (now_initBucket env) bs))
      end /\
    forall other, (forall src, source = Some src -> id src <> other) ->
                  bucketsOf (processImage env job bs) !! other = bs !! other.
Proof.
  assert (Hshape : exists source pre bs1,
             resolveSource env job bs = (Returned source, bs, pre) /\
             bucketsOf (checkRateLimit env source bs) = bs1 /\
             bucketsOf (processImage env job bs) = bs1).
  { destruct (processImage_anatomy env job bs)
      as [src pre bs1 r' Hres Hlim Hst
         | source pre bs1 Hres Hlim Hok
         | source pre bs1 fetched existingId Hres Hlim Hok Hbytes Hfind
         | source pre bs1 fetched message Hres Hlim Hok Hbytes Hfind Hdec
         | source pre bs1 fetched md verdict classifying Hres Hlim Hok Hbytes Hfind Hdec Hcl].
    - exists (Some src), pre, bs1. rewrite Hlim. auto.
    - exists source, pre, bs1. rewrite Hlim. auto.
    - exists source, pre, bs1. rewrite Hlim. auto.
    - exists source, pre, bs1. rewrite Hlim. auto.
    - exists source, pre, bs1. rewrite Hlim. split; [exact Hres|]. split; [reflexivity|].
      unfold after, bucketsOf at 1. cbn [fst snd].
      apply (handled_persist_ends env job source fetched). }
  destruct Hshape as (source & pre & bs1 & Hres & Hlim & Hbs).
  rewrite checkRateLimit_buckets in Hlim. subst bs1.
  exists source, pre. split; [exact Hres|]. split; [exact Hbs|].
  intros other Hother. rewrite Hbs. destruct source as [src|]; [|reflexivity].
  assert (Hne : other <> id src).
  { intros ->. exact (Hother src eq_refl eq_refl). }
  destruct (tryAcquire_frame (id src) other (now_tryAcquire env)
              (initBucket (id src) (maxRps src) (now_initBucket env) bs) Hne) as [-> _].
  apply initBucket_other. exact Hne.
Qed.

(** * The vision model and the geometry of an assigned image *)

Lemma visionChecks_app cs1 cs2 :
  visionChecks (cs1 ++ cs2) = (visionChecks cs1 + visionChecks cs2)%nat.
Proof. unfold visionChecks. rewrite List.filter_app, length_app. reflexivity. Qed.

Lemma visionChecks_cons c cs :
  visionChecks (c :: cs) = ((if isVisionCall c then 1 else 0) + visionChecks cs)%nat.
Proof. unfold visionChecks. cbn [List.filter]. destruct (isVisionCall c); reflexivity. Qed.

Section Quiet.
Context {A B : Type}.

Lemma bind_quiet (m : M A) (k : A -> M B) bs :
  visionChecks (callsOf (m bs)) = 0%nat ->
  (forall a bs1, visionChecks (callsOf (k a bs1)) = 0%nat) ->
  visionChecks (callsOf (bind m k bs)) = 0%nat.
Proof.
  intros Hm Hk. unfold bind. destruct (m bs) as [[[a|message] bs1] cs1]; [|exact Hm].
  specialize (Hk a bs1). destruct (k a bs1) as [[out bs2] cs2].
  unfold callsOf in *. cbn [snd] in *. rewrite visionChecks_app, Hm, Hk. reflexivity.
Qed.

Lemma tryCatch_quiet (m : M A) (h : string -> M A) bs :
  visionChecks (callsOf (m bs)) = 0%nat ->
  (forall message bs1, visionChecks (callsOf (h message bs1)) = 0%nat) ->
  visionChecks (callsOf (tryCatch m h bs)) = 0%nat.
Proof.
  intros Hm Hh. unfold tryCatch. destruct (m bs) as [[[a|message] bs1] cs1]; [exact Hm|].
  specialize (Hh message bs1). destruct (h message bs1) as [[out bs2] cs2].
  unfold callsOf in *. cbn [snd] in *. rewrite visionChecks_app, Hm, Hh. reflexivity.
Qed.
End Quiet.

Ltac quiet_tac :=
  repeat first
    [ reflexivity
    | apply bind_quiet; [|intros ? ?]
    | match goal with
      | |- context [match ?x with _ => _ end] => destruct x
      end ].

Lemma uploadDerivatives_quiet env ds bs :
  visionChecks (callsOf (uploadDerivatives env ds bs)) = 0%nat.
Proof.
  revert bs. induction ds as [|d ds IH]; intros bs; [reflexivity|].
  cbn [uploadDerivatives]. apply bind_quiet; [reflexivity|]. intros _ bs1.
  destruct (storage_upload env (storagePath d) (buffer d)); [apply IH | reflexivity..].
Qed.

Lemma recordDerivatives_quiet env imageId ds bs :
  visionChecks (callsOf (recordDerivatives env imageId ds bs)) = 0%nat.
Proof.
  revert bs. induction ds as [|d ds IH]; intros bs; [reflexivity|].
  cbn [recordDerivatives]. apply bind_quiet; [|intros; apply IH].
  unfold createDerivativeRecord. quiet_tac.
Qed.

Lemma handled_persist_quiet env job source fetched ctype sha md sr ic bs :
  visionChecks (callsOf (tryCatch (persist env job source fetched ctype sha md sr ic)
                           (handler job) bs)) = 0%nat.
Proof.
  apply tryCatch_quiet; [|reflexivity].
  unfold persist, logIngestEvent, createImageRecord, updateImageStatus.
  apply bind_quiet; [reflexivity|]. intros _ bs1.
  apply bind_quiet; [quiet_tac|]. intros imageId bs2.
  apply bind_quiet; [reflexivity|]. intros _ bs3.
  destruct (generateDerivatives _ _ _) as [ds|message]; [|reflexivity].
  apply bind_quiet; [reflexivity|]. intros _ bs4.
  apply bind_quiet; [apply uploadDerivatives_quiet|]. intros _ bs5.
  apply bind_quiet; [reflexivity|]. intros _ bs6.
  apply bind_quiet; [apply recordDerivatives_quiet|]. intros _ bs7.
  apply bind_quiet; [reflexivity|]. intros _ bs8.
  apply bind_quiet; [reflexivity|]. intros _ bs9.
  unfold assignOrReject, assignImageToCard, logIngestEvent. quiet_tac.
Qed.

Lemma resolveSource_quiet env job bs :
  visionChecks (callsOf (resolveSource env job bs)) = 0%nat.
Proof.
  unfold resolveSource, getImageSource, getImageSourceByName. quiet_tac.
Qed.

(** X10: a run of [processImage] asks the vision model at most once;
    not at all when the trust tier is 1; and exactly once when the tier
    is 3 and the run ends [completed] or [rejected]. *)
Theorem processImage_vision_checks env job bs :
  exists source pre r,
    resolveSource env job bs = (Returned source, bs, pre) /\
    outcomeOf (processImage env job bs) = Returned r /\
    (visionChecks (callsOf (processImage env job bs)) <= 1)%nat /\
    (trustTierOf source job = 1 ->
     visionChecks (callsOf (processImage env job bs)) = 0%nat) /\
    (trustTierOf source job = 3 -> status r = completed \/ status r = rejected ->
     visionChecks (callsOf (processImage env job bs)) = 1%nat).
Proof.
  destruct (processImage_anatomy env job bs)
    as [src pre bs1 r' Hres Hlim Hst
       | source pre bs1 Hres Hlim Hok
       | source pre bs1 fetched existingId Hres Hlim Hok Hbytes Hfind
       | source pre bs1 fetched message Hres Hlim Hok Hbytes Hfind Hdec
       | source pre bs1 fetched md verdict classifying Hres Hlim Hok Hbytes Hfind Hdec Hcl].
  - pose proof (resolveSource_quiet env job bs) as Hq. rewrite Hres in Hq.
    unfold callsOf in Hq. cbn [snd] in Hq.
    exists (Some src), pre, r'. split; [exact Hres|]. split; [reflexivity|].
    unfold callsOf. cbn [snd]. rewrite visionChecks_cons, Hq. cbn.
    split; [lia|]. split; [reflexivity|]. intros _ [H|H]; congruence.
  - pose proof (resolveSource_quiet env job bs) as Hq. rewrite Hres in Hq.
    unfold callsOf in Hq. cbn [snd] in Hq.
    eexists source, pre, _. split; [exact Hres|]. split; [reflexivity|].
    unfold callsOf. cbn [snd]. rewrite visionChecks_cons, visionChecks_app, Hq. cbn.
    split; [lia|]. split; [reflexivity|]. intros _ [H|H]; discriminate H.
  - pose proof (resolveSource_quiet env job bs) as Hq. rewrite Hres in Hq.
    unfold callsOf in Hq. cbn [snd] in Hq.
    eexists source, pre, _. split; [exact Hres|]. split; [reflexivity|].
    unfold callsOf. cbn [snd].
    rewrite visionChecks_cons, !visionChecks_app, Hq.
    destruct (upsert_cardImage env (assignmentOf job source existingId)); cbn;
      (split; [lia|]; split; [reflexivity|]; intros _ [H|H]; discriminate H).
  - pose proof (resolveSource_quiet env job bs) as Hq. rewrite Hres in Hq.
    unfold callsOf in Hq. cbn [snd] in Hq.
    eexists source, pre, _. split; [exact Hres|]. split; [reflexivity|].
    unfold callsOf. cbn [snd]. rewrite visionChecks_cons, visionChecks_app, Hq. cbn.
    split; [lia|]. split; [reflexivity|]. intros _ [H|H]; discriminate H.
  - pose proof (resolveSource_quiet env job bs) as Hq. rewrite Hres in Hq.
    unfold callsOf in Hq. cbn [snd] in Hq.
    rewrite classify_verdict in Hcl. injection Hcl as _ <-.
    rewrite outcomeOf_after, callsOf_after.
    destruct (handled_persist_ends env job source fetched
                (contentType (fetchFor env job source)) (computeSha256 env fetched)
                md (fst verdict) (snd verdict) bs1) as (_ & Hends).
    pose proof (handled_persist_quiet env job source fetched
                  (contentType (fetchFor env job source)) (computeSha256 env fetched)
                  md (fst verdict) (snd verdict) bs1) as Hp.
    destruct (tryCatch _ _ bs1) as [[out bs2] cs]. unfold outcomeOf, callsOf in *.
    cbn [fst snd] in *.
    assert (Hout : exists r, out = Returned r).
    { destruct Hends as [(i & [[_ ->] | [_ ->]]) | (m & c & -> & _)]; eauto. }
    destruct Hout as [r ->].
    exists source, pre, r. split; [exact Hres|]. split; [reflexivity|].
    rewrite !visionChecks_app, visionChecks_cons, !visionChecks_app, Hq, Hp.
    destruct (shouldRunVisionCheck _ _ _ _) eqn:Hasked; cbn.
    + split; [lia|]. split; [|reflexivity].
      intros Htier. rewrite Htier in Hasked. discriminate Hasked.
    + split; [lia|]. split; [reflexivity|].
      intros Htier. rewrite Htier in Hasked. discriminate Hasked.
Qed.

(** * Decoding, the side heuristic and the collage test *)

Lemma decodeImage_inl m b md :
  decodeImage m b = inl md ->
  exists w h fmt,
    m = Metadata (Some w) (Some h) fmt /\ w <> 0 /\ h <> 0 /\
    w * h <= config.maxImagePixels /\
    md = {| width := w; height := h;
            format := match fmt with
                      | Some f => if truthy f then f else "unknown"
                      | None => "unknown"
                      end;
            size := Zlength_bytes b |}.
Proof.
  unfold decodeImage. destruct m as [message | w h fmt]; [discriminate|].
  destruct w as [w|]; [|cbn; discriminate].
  destruct h as [h|]; [|cbn [truthy_num negb orb]; rewrite orb_true_r; discriminate].
  cbn [truthy_num default].
  destruct (w =? 0) eqn:Hw; [cbn; discriminate|].
  destruct (h =? 0) eqn:Hh; [cbn; discriminate|].
  cbn [negb orb]. unfold Datatypes.id.
  destruct (config.maxImagePixels <? w * h) eqn:Hpx; [discriminate|].
  intros [= <-]. exists w, h, fmt. repeat split; try lia.
Qed.

(** X11: metadata that [decodeImage] accepts has a width and a height
    that are not zero, at most 20,000,000 pixels, the size of the
    buffer, a format that is not empty, and the dimensions the image
    library reported. *)
Theorem decodeImage_accepts_sound m b md :
  decodeImage m b = inl md ->
  width md <> 0 /\ height md <> 0 /\
  width md * height md <= config.maxImagePixels /\
  size md = Zlength_bytes b /\
  truthy (format md) = true /\
  m = Metadata (Some (width md)) (Some (height md))
        (match m with Metadata _ _ fmt => fmt | MetadataThrows _ => None end).
Proof.
  intros Hdec. destruct (decodeImage_inl m b md Hdec)
    as (w & h & fmt & -> & Hw & Hh & Hpx & ->).
  cbn [width height size format]. repeat split; auto.
  destruct fmt as [f|]; [|reflexivity]. destruct (truthy f) eqn:Hf; [exact Hf | reflexivity].
Qed.

(** The score the heuristic reaches, read as its verdict. *)
Lemma detectSide_cases raw64 md :
  let fits := Qle_bool (Qabs (getAspectRatio (width md) (height md)
                              - EXPECTED_CARD_ASPECT_RATIO))
                ASPECT_RATIO_TOLERANCE in
  let verdict := detectSide raw64 md in
  method verdict = heuristic /\
  match analyzeBorderColors raw64 with
  | None => side verdict = unknown /\ (sd_confidence verdict == 0.5)%Q
  | Some borders =>
      if isBlueBack borders then
        side verdict = back /\
        (sd_confidence verdict == if fits then 0.9 else 0.95)%Q
      else if hasYellowBorder borders then
        side verdict = front /\
        (sd_confidence verdict == if fits then 0.95 else 0.8)%Q
      else if hasVariedColors borders then
        (sd_confidence verdict == if fits then 0.9 else 0.5)%Q /\
        side verdict = if fits then front else unknown
      else side verdict = unknown /\ (sd_confidence verdict == 0.5)%Q
  end.
Proof.
  unfold detectSide, getAspectRatio. cbn zeta.
  destruct (analyzeBorderColors raw64) as [borders|]; [|repeat split; reflexivity].
  destruct (Qle_bool _ ASPECT_RATIO_TOLERANCE);
    destruct (isBlueBack borders); [| destruct (hasYellowBorder borders);
                                      [| destruct (hasVariedColors borders)] |
                                    | destruct (hasYellowBorder borders);
                                      [| destruct (hasVariedColors borders)]];
    vm_compute; repeat split; reflexivity.
Qed.





(** * The vision check *)

Lemma detectSide_confidence_floor raw64 md : (0.5 <= sd_confidence (detectSide raw64 md))%Q.
Proof.
  pose proof (detectSide_cases raw64 md) as [_ Hcases]. cbn zeta in Hcases.
  destruct (analyzeBorderColors raw64) as [borders|].
  2:{ destruct Hcases as [_ ->]. discriminate. }
  destruct (isBlueBack borders).
  { destruct Hcases as [_ ->]. destruct (Qle_bool _ _); discriminate. }
  destruct (hasYellowBorder borders).
  { destruct Hcases as [_ ->]. destruct (Qle_bool _ _); discriminate. }
  destruct (hasVariedColors borders).
  { destruct Hcases as [-> _]. destruct (Qle_bool _ _); discriminate. }
  destruct Hcases as [_ ->]. discriminate.
Qed.

Lemma checkWithVision_cases apiKey reply :
  let verdict := checkWithVision apiKey reply in
  method verdict = vision /\
  ((side verdict = front /\ sd_confidence verdict = 0.95%Q)
   \/ (side verdict = back /\ sd_confidence verdict = 0.95%Q)
   \/ (side verdict = unknown /\
       (sd_confidence verdict = 0.3%Q \/ sd_confidence verdict = 0.5%Q))).
Proof.
  unfold checkWithVision, visionFallback.
  destruct (truthy apiKey); cbn [negb]; [|split; [reflexivity | right; right; auto]].
  destruct reply as [| st | content]; try (split; [reflexivity | right; right; auto]).
  destruct (includes "FRONT" _); [split; [reflexivity | left; auto]|].
  destruct (includes "BACK" _); [split; [reflexivity | right; left; auto]|].
  destruct (includes "WRONG_CARD" _); split; try reflexivity; right; right; auto.
Qed.

(** X14: [classify] never lowers the confidence of the heuristic
    verdict.  It keeps that verdict unless the vision model was asked,
    the tier is not 1, and the model answered front or back, which comes
    with confidence 0.95; an answer of wrong card or unknown, or a
    failed call, never replaces the heuristic verdict.  The collage flag
    is that of [detectCollage]. *)
Theorem classify_vision_override env job tier fetched md bs :
  let heuristicResult := detectSide (sharp_raw64 env fetched) md in
  exists verdict calls,
    classify env job tier fetched md bs = (Returned verdict, bs, calls) /\
    snd verdict
    = detectCollage (sharp_metadata env fetched) (sharp_sobel env fetched) /\
    (sd_confidence heuristicResult <= sd_confidence (fst verdict))%Q /\
    (fst verdict = heuristicResult
     \/ (fst verdict
         = checkWithVision (openrouterApiKey env)
             (vision_post env (visionPrompt job tier) fetched) /\
         method (fst verdict) = vision /\
         (side (fst verdict) = front \/ side (fst verdict) = back) /\
         sd_confidence (fst verdict) = 0.95%Q /\
         tier <> 1 /\ visionChecks calls = 1%nat)).
Proof.
  cbn zeta. rewrite classify_verdict. eexists _, _. split; [reflexivity|]. cbn [fst snd].
  split; [reflexivity|].
  destruct (shouldRunVisionCheck _ _ _ _) eqn:Hasked; cbn [andb].
  2:{ split; [apply Qle_refl | left; reflexivity]. }
  destruct (Qltb _ _) eqn:Hmore.
  2:{ split; [apply Qle_refl | left; reflexivity]. }
  unfold Qltb in Hmore. apply negb_true_iff in Hmore.
  assert (Hlt : (sd_confidence (detectSide (sharp_raw64 env fetched) md)
                 < sd_confidence (checkWithVision (openrouterApiKey env)
                                    (vision_post env (visionPrompt job tier) fetched)))%Q).
  { apply Qnot_le_lt. intros Hle. apply Qle_bool_iff in Hle. congruence. }
  split; [apply Qlt_le_weak; exact Hlt|]. right.
  pose proof (detectSide_confidence_floor (sharp_raw64 env fetched) md) as Hfloor.
  destruct (checkWithVision_cases (openrouterApiKey env)
              (vision_post env (visionPrompt job tier) fetched)) as [Hmethod Hcases].
  assert (Htier : tier <> 1).
  { intros ->. discriminate Hasked. }
  destruct Hcases as [[Hside Hconf] | [[Hside Hconf] | [Hside [Hconf | Hconf]]]].
  - repeat split; auto.
  - repeat split; auto.
  - exfalso. rewrite Hconf in Hlt. lra.
  - exfalso. rewrite Hconf in Hlt. lra.
Qed.

(** * The endpoints *)

Lemma processImage_limited_source env job bs r :
  outcomeOf (processImage env job bs) = Returned r ->
  status r = rate_limited ->
  exists src, outcomeOf (resolveSource env job bs) = Returned (Some src) /\ maxRps src < 1.
Proof.
  intros Hout Hst.
  destruct (processImage_run env job bs)
    as [[_ (r' & Hr & Hcases)]
       | (pre & source & fetched & ctype & md & sr & ic & bs1 & _ & Heq)].
  - rewrite Hout in Hr. injection Hr as <-.
    destruct Hcases as [H | [H | [_ H]]]; [congruence | congruence | exact H].
  - exfalso. rewrite Heq, outcomeOf_after in Hout.
    destruct (handled_persist_ends env job source fetched ctype
                (computeSha256 env fetched) md sr ic bs1)
      as (_ & [(imageId' & [[_ Hr] | [_ Hr]]) | (message & cs & Hr & _)]);
      rewrite Hr in Hout; injection Hout as <-; discriminate Hst.
Qed.

(** X15: the webhook runs the pipeline exactly for a request with one
    non-empty signature header that verifies and a job with card id and
    source URL.  It then answers with the result of [processImage], with
    status 429 when that is [rate_limited], which needs a source whose
    [maxRps] is below 1, and 200 otherwise.  Every other request makes no
    call, leaves the buckets alone and is answered 400, 401 or 500, the
    last only when the verification throws. *)
Theorem webhook_reply env signature verify job bs :
  let run := webhookHandler env signature verify job bs in
  if webhookAdmits signature verify job then
    exists r,
      outcomeOf (processImage env job bs) = Returned r /\
      outcomeOf run
      = Returned {| replyStatus := match status r with rate_limited => 429 | _ => 200 end;
                    replyBody := ResultBody r |} /\
      bucketsOf run = bucketsOf (processImage env job bs) /\
      callsOf run = callsOf (processImage env job bs) /\
      (status r = rate_limited ->
       exists src,
         outcomeOf (resolveSource env job bs) = Returned (Some src) /\ maxRps src < 1)
  else
    callsOf run = [] /\ bucketsOf run = bs /\
    exists st message,
      outcomeOf run = Returned {| replyStatus := st; replyBody := ErrorBody message |} /\
      (st = 400 \/ st = 401 \/ st = 500) /\
      (st = 500 -> verify = VerifyThrows message) /\
      (st = 400 -> verify = Verified true).
Proof.
  unfold webhookHandler, webhookAdmits, replyError.
  destruct signature as [| s | values]; cbn zeta;
    try (split; [reflexivity|]; split; [reflexivity|]; eexists _, _; split; [reflexivity|];
         split; [auto|]; split; discriminate).
  destruct (truthy s); cbn [negb andb].
  2:{ destruct verify as [[|] | message];
        (split; [reflexivity|]; split; [reflexivity|]; eexists _, _;
         split; [reflexivity|]; split; [auto|]; split; discriminate). }
  destruct verify as [[|] | message].
  - destruct (validJob job); cbn [negb].
    + destruct (processImage_returns env job bs) as [r Hr].
      exists r. split; [exact Hr|].
      pose proof (processImage_limited_source env job bs r Hr) as Hlimited.
      unfold tryCatch, bind, ret.
      destruct (processImage env job bs) as [[out bs1] cs].
      unfold outcomeOf in Hr. cbn [fst] in Hr. subst out.
      unfold outcomeOf, bucketsOf, callsOf.
      destruct (status r); cbn [fst snd]; rewrite app_nil_r;
        (split; [reflexivity|]; split; [reflexivity|]; split; [reflexivity|]);
        try discriminate.
      exact Hlimited.
    + split; [reflexivity|]. split; [reflexivity|]. eexists _, _. split; [reflexivity|]. split; [auto|].
      split; [discriminate | reflexivity].
  - split; [reflexivity|]. split; [reflexivity|]. eexists _, _. split; [reflexivity|]. split; [auto|].
    split; discriminate.
  - split; [reflexivity|]. split; [reflexivity|]. eexists _, _. split; [reflexivity|]. split; [auto|].
    split; [reflexivity | discriminate].
Qed.

(** X16: [POST /process] runs the pipeline exactly for a request whose
    bearer token equals the service key and whose job has card id and
    source URL, and answers 200 with the result whatever its status;
    every other request makes no call and is answered 401 without a
    bearer header, 403 with a wrong token, 400 with an incomplete
    job. *)
Theorem process_reply env serviceKey authHeader job bs :
  let run := processHandler env serviceKey authHeader job bs in
  if authorized serviceKey authHeader && validJob job then
    exists r,
      outcomeOf (processImage env job bs) = Returned r /\
      outcomeOf run = Returned {| replyStatus := 200; replyBody := ResultBody r |} /\
      bucketsOf run = bucketsOf (processImage env job bs) /\
      callsOf run = callsOf (processImage env job bs)
  else
    callsOf run = [] /\ bucketsOf run = bs /\
    exists st message,
      outcomeOf run = Returned {| replyStatus := st; replyBody := ErrorBody message |} /\
      st = (if negb (hasBearer authHeader) then 401
            else if negb (authorized serviceKey authHeader) then 403 else 400).
Proof.
  unfold processHandler, authorized, replyError.
  destruct (hasBearer authHeader); cbn [negb andb].
  2:{ split; [reflexivity|]. split; [reflexivity|]. eexists _, _. split; reflexivity. }
  destruct (String.eqb (bearerToken authHeader) serviceKey); cbn [negb andb].
  2:{ split; [reflexivity|]. split; [reflexivity|]. eexists _, _. split; reflexivity. }
  destruct (validJob job); cbn [negb].
  2:{ split; [reflexivity|]. split; [reflexivity|]. eexists _, _. split; reflexivity. }
  destruct (processImage_returns env job bs) as [r Hr].
  exists r. split; [exact Hr|].
  unfold tryCatch, bind, ret.
  destruct (processImage env job bs) as [[out bs1] cs].
  unfold outcomeOf in Hr. cbn [fst] in Hr. subst out.
  unfold outcomeOf, bucketsOf, callsOf. cbn [fst snd]. rewrite app_nil_r.
  repeat split.
Qed.



(** * Storage paths, derivatives and uploads *)

Lemma list_ascii_of_string_app s1 s2 :
  list_ascii_of_string (s1 +:+ s2) = list_ascii_of_string s1 ++ list_ascii_of_string s2.
Proof.
  induction s1 as [|c s1 IH]; [reflexivity|].
  simpl. rewrite IH. reflexivity.
Qed.

Lemma list_ascii_of_string_inj s1 s2 :
  list_ascii_of_string s1 = list_ascii_of_string s2 -> s1 = s2.
Proof.
  intros Heq. rewrite <- (string_of_list_ascii_of_string s1), Heq.
  apply string_of_list_ascii_of_string.
Qed.

Lemma length_prefix_two sha :
  length (list_ascii_of_string (getStoragePathPrefix sha))
  = Nat.min 2 (length (list_ascii_of_string sha)).
Proof.
  unfold getStoragePathPrefix.
  destruct sha as [|c1 [|c2 [|c3 rest]]]; reflexivity.
Qed.

Lemma variant_suffix_inj (l1 l2 : list ascii) v1 v2 :
  l1 ++ list_ascii_of_string ("/" +:+ Variant_toString v1 +:+ ".webp")
  = l2 ++ list_ascii_of_string ("/" +:+ Variant_toString v2 +:+ ".webp") ->
  v1 = v2.
Proof.
  intros Heq. apply (f_equal (@rev ascii)) in Heq. rewrite !rev_app_distr in Heq.
  destruct v1, v2; try reflexivity; cbn in Heq; discriminate Heq.
Qed.

Lemma getDerivativeStoragePath_inj sha1 v1 sha2 v2 :
  getDerivativeStoragePath sha1 v1 = getDerivativeStoragePath sha2 v2 ->
  sha1 = sha2 /\ v1 = v2.
Proof.
  unfold getDerivativeStoragePath. intros Heq.
  apply (f_equal list_ascii_of_string) in Heq.
  rewrite (list_ascii_of_string_app "derivatives/"),
    (list_ascii_of_string_app "derivatives/") in Heq.
  apply app_inv_head in Heq.
  rewrite (list_ascii_of_string_app (getStoragePathPrefix sha1)),
    (list_ascii_of_string_app (getStoragePathPrefix sha2)),
    (list_ascii_of_string_app "/" (sha1 +:+ _)),
    (list_ascii_of_string_app "/" (sha2 +:+ _)),
    (list_ascii_of_string_app sha1), (list_ascii_of_string_app sha2) in Heq.
  rewrite !app_assoc in Heq.
  assert (Hv : v1 = v2) by exact (variant_suffix_inj _ _ _ _ Heq).
  subst v2. split; [|reflexivity].
  apply app_inv_tail in Heq.
  assert (Hlen : length (list_ascii_of_string sha1) = length (list_ascii_of_string sha2)).
  { apply (f_equal (@length ascii)) in Heq. rewrite !length_app, !length_prefix_two in Heq.
    cbn [length list_ascii_of_string] in Heq. lia. }
  apply list_ascii_of_string_inj.
  exact (proj2 (app_inj_2 _ _ _ _ Hlen Heq)).
Qed.

(** X18: two derivative storage paths are equal only for the same hash
    and the same variant. *)
Theorem storage_paths_never_collide sha1 v1 sha2 v2 :
  getDerivativeStoragePath sha1 v1 = getDerivativeStoragePath sha2 v2 <->
  sha1 = sha2 /\ v1 = v2.
Proof.
  split; [apply getDerivativeStoragePath_inj|]. intros [-> ->]. reflexivity.
Qed.

Lemma generateLoop_shape resize sha ow todo acc :
  match generateLoop resize sha ow todo acc with
  | inl ds =>
      exists made,
        ds = acc ++ made /\ map variant made = todo /\
        Forall (derivativeMade resize sha ow) made
  | inr message =>
      exists v, In v todo /\
        resize (targetWidthOf ow v) (snd (config.derivativeSizes v)) = ResizeThrows message
  end.
Proof.
  revert acc. induction todo as [|v todo IH]; intros acc; cbn [generateLoop].
  - exists []. rewrite app_nil_r. repeat split. constructor.
  - fold (targetWidthOf ow v).
    destruct (resize (targetWidthOf ow v) (snd (config.derivativeSizes v)))
      as [message | processed mw mh] eqn:Hresize.
    + exists v. split; [left; reflexivity | exact Hresize].
    + specialize (IH (acc ++ [ {| variant := v; buffer := processed;
                                  d_width := if truthy_num mw then default 0 mw
                                             else targetWidthOf ow v;
                                  d_height := if truthy_num mh then default 0 mh else 0;
                                  d_bytes := Zlength_bytes processed;
                                  storagePath := getDerivativeStoragePath sha v |} ])).
      destruct (generateLoop _ _ _ todo _) as [ds|message].
      * destruct IH as (made & -> & Hvs & Hmade).
        eexists (_ :: made). split; [rewrite <- app_assoc; reflexivity|].
        split; [cbn; rewrite Hvs; reflexivity|].
        constructor; [|exact Hmade].
        split; [reflexivity|]. split; [reflexivity|]. exists mw, mh. exact Hresize.
      * destruct IH as (v' & Hin & Hthrows). exists v'. split; [right; exact Hin | exact Hthrows].
Qed.

(** X19: [generateDerivatives] returns all or nothing: either the three
    derivatives [thumb], [grid], [detail] in this order, each made from
    a successful resize at the width and quality of its variant, with
    the byte count of its buffer and its own storage path, the three
    paths distinct; or the message that a resize has thrown. *)
Theorem generateDerivatives_all_or_nothing resize sha ow :
  match generateDerivatives resize sha ow with
  | inl ds =>
      map variant ds = [thumb; grid; detail] /\
      Forall (derivativeMade resize sha ow) ds /\
      NoDup (map storagePath ds)
  | inr message =>
      exists v, resize (targetWidthOf ow v) (snd (config.derivativeSizes v))
                = ResizeThrows message
  end.
Proof.
  unfold generateDerivatives.
  pose proof (generateLoop_shape resize sha ow variants []) as Hshape.
  destruct (generateLoop resize sha ow variants []) as [ds|message].
  - destruct Hshape as (made & -> & Hvs & Hmade). cbn [app].
    split; [exact Hvs|]. split; [exact Hmade|].
    assert (Hpaths : map storagePath made
                     = map (getDerivativeStoragePath sha) (map variant made)).
    { clear Hvs. induction Hmade as [|d made (Hpath & _) _ IH]; [reflexivity|].
      cbn [map]. rewrite Hpath, IH. reflexivity. }
    rewrite Hpaths, Hvs. unfold variants. cbn [map].
    repeat constructor; rewrite ?elem_of_cons, ?elem_of_nil;
      intros Hin; repeat destruct Hin as [Hin | Hin]; try contradiction;
      apply getDerivativeStoragePath_inj in Hin; destruct Hin as [_ Hin]; discriminate Hin.
  - destruct Hshape as (v & _ & Hthrows). exists v. exact Hthrows.
Qed.

(** X20: [uploadDerivatives] uploads in order and stops at the first
    upload that fails: the derivatives before it were uploaded, the
    calls are those for them and for the failing one, nothing after it
    is uploaded and the error is thrown; when none fails every
    derivative is uploaded once. *)
Theorem uploadDerivatives_stops_at_first_failure env ds bs :
  exists done rest,
    ds = done ++ rest /\
    forallb (uploaded env) done = true /\
    bucketsOf (uploadDerivatives env ds bs) = bs /\
    match rest with
    | [] =>
        outcomeOf (uploadDerivatives env ds bs) = Returned tt /\
        callsOf (uploadDerivatives env ds bs) = map uploadCall ds
    | d :: _ =>
        uploaded env d = false /\
        callsOf (uploadDerivatives env ds bs) = map uploadCall (done ++ [d]) /\
        outcomeOf (uploadDerivatives env ds bs)
        = Thrown match storage_upload env (storagePath d) (buffer d) with
                 | UploadError message => "Upload failed: " +:+ message
                 | UploadThrows message => message
                 | Uploaded => EmptyString
                 end
    end.
Proof.
  induction ds as [|d ds IH].
  - exists [], []. repeat split.
  - cbn [uploadDerivatives]. rewrite bind_call.
    unfold after, outcomeOf, bucketsOf, callsOf.
    destruct (storage_upload env (storagePath d) (buffer d)) as [| message | message] eqn:Hup.
    + destruct IH as (done & rest & -> & Hdone & Hbs & Hrest).
      exists (d :: done), rest. split; [reflexivity|].
      split; [cbn [forallb]; unfold uploaded at 1; rewrite Hup; exact Hdone|].
      split; [exact Hbs|].
      unfold outcomeOf, callsOf in Hrest. cbn [fst snd].
      destruct rest as [|d' rest].
      * destruct Hrest as [Hout Hcalls]. split; [exact Hout|].
        cbn [app map]. rewrite Hcalls. reflexivity.
      * destruct Hrest as (Hd' & Hcalls & Hout). split; [exact Hd'|].
        split; [|exact Hout]. cbn [app map]. rewrite Hcalls. reflexivity.
    + exists [], (d :: ds). split; [reflexivity|]. split; [reflexivity|].
      split; [reflexivity|]. unfold uploaded. rewrite Hup. repeat split.
    + exists [], (d :: ds). split; [reflexivity|]. split; [reflexivity|].
      split; [reflexivity|]. unfold uploaded. rewrite Hup. repeat split.
Qed.

(** * Configuration and authorization *)

Lemma substring_whole s : substring 0 (String.length s) s = s.
Proof. induction s as [|c s IH]; simpl; [reflexivity|]. rewrite IH. reflexivity. Qed.

Lemma prefix_split p h :
  String.prefix p h = true ->
  h = p +:+ substring (String.length p) (String.length h - String.length p) h.
Proof.
  revert h. induction p as [|a p IH]; intros h Hprefix.
  - simpl. rewrite Nat.sub_0_r, substring_whole. reflexivity.
  - destruct h as [|c h]; [discriminate Hprefix|]. cbn in Hprefix.
    destruct (ascii_dec a c) as [<-|]; [|discriminate Hprefix].
    simpl. change (String a p +:+ ?x) with (String a (p +:+ x)).
    f_equal. apply IH. exact Hprefix.
Qed.

(** X21: [validateConfig] passes exactly when the service key and the
    two signing keys are not empty; and under a configuration that
    passes, an authorization header is accepted only if it is [Bearer ]
    followed by the service key, which is then not empty. *)
Theorem validateConfig_guards_the_key cfg :
  (validateConfig cfg = None <->
   truthy (supabaseServiceKey cfg) = true /\
   truthy (qstashCurrentSigningKey cfg) = true /\
   truthy (qstashNextSigningKey cfg) = true) /\
  (validateConfig cfg = None ->
   forall authHeader,
     authorized (supabaseServiceKey cfg) authHeader = true ->
     exists token,
       authHeader = Some ("Bearer " +:+ token) /\
       token = supabaseServiceKey cfg /\ truthy token = true).
Proof.
  assert (Hiff : validateConfig cfg = None <->
                 truthy (supabaseServiceKey cfg) = true /\
                 truthy (qstashCurrentSigningKey cfg) = true /\
                 truthy (qstashNextSigningKey cfg) = true).
  { unfold validateConfig. cbn zeta.
    rewrite !filter_cons, filter_nil. cbn [snd fst].
    destruct (truthy (supabaseServiceKey cfg)),
      (truthy (qstashCurrentSigningKey cfg)),
      (truthy (qstashNextSigningKey cfg)); cbn; intuition discriminate. }
  split; [exact Hiff|].
  intros Hvalid authHeader Hauth. apply Hiff in Hvalid. destruct Hvalid as (Hkey & _).
  unfold authorized in Hauth. apply andb_true_iff in Hauth. destruct Hauth as [Hbearer Heq].
  destruct authHeader as [h|]; [|discriminate Hbearer].
  cbn [hasBearer bearerToken] in Hbearer, Heq. apply String.eqb_eq in Heq.
  exists (supabaseServiceKey cfg). split; [|split; [reflexivity | exact Hkey]].
  rewrite <- Heq. f_equal. exact (prefix_split "Bearer " h Hbearer).
Qed.

(** * What a run writes *)

Lemma resolveSource_unmarked env job bs source pre :
  resolveSource env job bs = (Returned source, bs, pre) -> unmarked pre.
Proof.
  intros Hres. destruct (resolveSource_run env job bs) as (source' & cs & Hrun & Hcs).
  rewrite Hres in Hrun. injection Hrun as _ <-. exact Hcs.
Qed.

Lemma classify_unmarked env job tier fetched md bs verdict classifying :
  classify env job tier fetched md bs = (Returned verdict, bs, classifying) ->
  unmarked classifying.
Proof.
  intros Hcl. destruct (classify_run env job tier fetched md bs) as (v & cs & Hrun & Hcs).
  rewrite Hcl in Hrun. injection Hrun as _ <-. exact Hcs.
Qed.

Lemma imageRowsCreated_app cs1 cs2 :
  imageRowsCreated (cs1 ++ cs2) = imageRowsCreated cs1 ++ imageRowsCreated cs2.
Proof. apply flat_map_app. Qed.

Lemma imageRowsCreated_unmarked cs : unmarked cs -> imageRowsCreated cs = [].
Proof.
  unfold unmarked. induction 1 as [|c cs Hc _ IH]; [reflexivity|].
  cbn [imageRowsCreated flat_map]. fold (imageRowsCreated cs). rewrite IH.
  destruct c; try reflexivity; discriminate Hc.
Qed.

Lemma imageRowsCreated_In rec cs :
  In (CCreateImageRecord rec) cs -> In rec (imageRowsCreated cs).
Proof.
  intros Hin. apply in_flat_map. exists (CCreateImageRecord rec).
  split; [exact Hin | left; reflexivity].
Qed.

(** The rows a handled [persist] creates: the one row of the verdict. *)
Lemma handled_persist_rows env job source fetched ctype sha md sr ic bs :
  imageRowsCreated
    (callsOf (tryCatch (persist env job source fetched ctype sha md sr ic) (handler job) bs))
  = [imageRecordOf fetched ctype sha md sr ic].
Proof.
  destruct (handled_persist_cases env job source fetched ctype sha md sr ic bs)
    as (r & _ & Hcases).
  destruct Hcases as [(message & _ & _ & cs & Hcs & ->)
                     | [(imageId' & cs & _ & _ & _ & Hcs & ->)
                       | (imageId' & cs & gcs & _ & _ & Hcs & Hgcs & -> & _)]];
    rewrite ?imageRowsCreated_app, ?(imageRowsCreated_unmarked cs Hcs),
      ?(imageRowsCreated_unmarked gcs Hgcs); reflexivity.
Qed.

(** X22: [processImage] creates an image row only for fetched bytes whose
    hash the catalog did not hold and which decoded: the row carries that
    hash, the content type of the response, the decoded metadata and the
    verdict that [classify] returned for them, and it is the one row the
    run creates. *)
Theorem image_row_only_for_new_decoded_bytes env job bs rec :
  In (CCreateImageRecord rec) (callsOf (processImage env job bs)) ->
  exists source pre bs1 fetched md verdict classifying,
    resolveSource env job bs = (Returned source, bs, pre) /\
    bytes (fetchFor env job source) = Some fetched /\
    select_imageBySha256 env (computeSha256 env fetched) = None /\
    decodeImage (sharp_metadata env fetched) fetched = inl md /\
    classify env job (trustTierOf source job) fetched md bs1
    = (Returned verdict, bs1, classifying) /\
    rec = imageRecordOf fetched (contentType (fetchFor env job source))
            (computeSha256 env fetched) md (fst verdict) (snd verdict) /\
    imageRowsCreated (callsOf (processImage env job bs)) = [rec].
Proof.
  intros Hin. apply imageRowsCreated_In in Hin. revert Hin.
  destruct (processImage_anatomy env job bs)
    as [src pre bs1 r' Hres Hlim Hst
       | source pre bs1 Hres Hlim Hok
       | source pre bs1 fetched existingId Hres Hlim Hok Hbytes Hfind
       | source pre bs1 fetched message Hres Hlim Hok Hbytes Hfind Hdec
       | source pre bs1 fetched md verdict classifying Hres Hlim Hok Hbytes Hfind Hdec Hcl];
    pose proof (resolveSource_unmarked _ _ _ _ _ Hres) as Hpre.
  - unfold callsOf. cbn [snd]. rewrite imageRowsCreated_unmarked by unmarked_tac.
    intros [].
  - unfold callsOf. cbn [snd]. rewrite imageRowsCreated_unmarked by unmarked_tac.
    intros [].
  - unfold callsOf. cbn [snd].
    rewrite imageRowsCreated_unmarked
      by (destruct (upsert_cardImage env _); unmarked_tac).
    intros [].
  - unfold callsOf. cbn [snd]. rewrite imageRowsCreated_unmarked by unmarked_tac.
    intros [].
  - pose proof (classify_unmarked _ _ _ _ _ _ _ _ Hcl) as Hclassifying.
    rewrite callsOf_after, imageRowsCreated_app, handled_persist_rows.
    rewrite imageRowsCreated_unmarked by unmarked_tac. cbn [app].
    intros [<- | []].
    exists source, pre, bs1, fetched, md, verdict, classifying. repeat split; assumption.
Qed.

Section All.
Variable P : Call -> Prop.
Context {A B : Type}.

Lemma bind_all (m : M A) (k : A -> M B) bs :
  Forall P (callsOf (m bs)) ->
  (forall a bs1, Forall P (callsOf (k a bs1))) ->
  Forall P (callsOf (bind m k bs)).
Proof.
  intros Hm Hk. unfold bind. destruct (m bs) as [[[a|message] bs1] cs1]; [|exact Hm].
  specialize (Hk a bs1). destruct (k a bs1) as [[out bs2] cs2].
  unfold callsOf in *. cbn [snd] in *. apply Forall_app. split; assumption.
Qed.

Lemma tryCatch_all (m : M A) (h : string -> M A) bs :
  Forall P (callsOf (m bs)) ->
  (forall message bs1, Forall P (callsOf (h message bs1))) ->
  Forall P (callsOf (tryCatch m h bs)).
Proof.
  intros Hm Hh. unfold tryCatch. destruct (m bs) as [[[a|message] bs1] cs1]; [exact Hm|].
  specialize (Hh message bs1). destruct (h message bs1) as [[out bs2] cs2].
  unfold callsOf in *. cbn [snd] in *. apply Forall_app. split; assumption.
Qed.
End All.

(** An upload, if the call is one, goes to the bucket of card images and
    to the path of a derivative of [sha]. *)
Lemma uploadDerivatives_targets env resize sha ow ds bs :
  Forall (derivativeMade resize sha ow) ds ->
  Forall (fun c => forall bucket path, c = CUpload bucket path ->
                   bucket = config.cardImagesBucket /\
                   exists v, path = getDerivativeStoragePath sha v)
    (callsOf (uploadDerivatives env ds bs)).
Proof.
  intros Hmade. revert bs. induction Hmade as [|d ds (Hpath & _) _ IH]; intros bs.
  - constructor.
  - cbn [uploadDerivatives]. apply bind_all.
    + constructor; [|constructor]. intros bucket path [= <- <-].
      split; [reflexivity|]. exists (variant d). exact Hpath.
    + intros _ bs1. destruct (storage_upload env _ _); [apply IH | constructor..].
Qed.

Ltac no_upload :=
  repeat first
    [ apply Forall_nil; trivial
    | apply Forall_cons; split; [intros ? ? [=]|]
    | apply Forall_app; split ].

Lemma recordDerivatives_targets (P : string -> string -> Prop) env imageId ds bs :
  Forall (fun c => forall bucket path, c = CUpload bucket path -> P bucket path)
    (callsOf (recordDerivatives env imageId ds bs)).
Proof.
  revert bs. induction ds as [|d ds IH]; intros bs; [constructor|].
  cbn [recordDerivatives]. apply bind_all; [|intros; apply IH].
  unfold createDerivativeRecord. apply bind_all; [no_upload|]. intros _ bs1.
  destruct (insert_derivative env _); constructor.
Qed.

Lemma handled_persist_targets env job source fetched ctype sha md sr ic bs :
  Forall (fun c => forall bucket path, c = CUpload bucket path ->
                   bucket = config.cardImagesBucket /\
                   exists v, path = getDerivativeStoragePath sha v)
    (callsOf (tryCatch (persist env job source fetched ctype sha md sr ic)
                (handler job) bs)).
Proof.
  apply tryCatch_all; [|intros; no_upload].
  unfold persist, logIngestEvent, createImageRecord, updateImageStatus.
  apply bind_all; [no_upload|]. intros _ bs1.
  apply bind_all.
  { apply bind_all; [no_upload|]. intros _ bs2. destruct (insert_image env _); constructor. }
  intros imageId bs2.
  apply bind_all; [no_upload|]. intros _ bs3.
  pose proof (generateLoop_shape (sharp_resize_webp env fetched) sha (width md) variants [])
    as Hshape.
  unfold generateDerivatives.
  destruct (generateLoop _ _ _ variants []) as [ds|message]; [|constructor].
  destruct Hshape as (made & -> & _ & Hmade). cbn [app].
  apply bind_all; [no_upload|]. intros _ bs4.
  apply bind_all; [exact (uploadDerivatives_targets env _ sha _ made bs4 Hmade)|].
  intros _ bs5.
  apply bind_all; [no_upload|]. intros _ bs6.
  apply bind_all; [apply recordDerivatives_targets|]. intros _ bs7.
  apply bind_all; [no_upload|]. intros _ bs8.
  apply bind_all; [no_upload|]. intros _ bs9.
  unfold assignOrReject, assignImageToCard, logIngestEvent.
  destruct (canAssign sr ic).
  - apply bind_all.
    { apply bind_all; [no_upload|]. intros _ bs10.
      destruct (upsert_cardImage env _); constructor. }
    intros _ bs10. apply bind_all; [no_upload|]. intros; constructor.
  - apply bind_all; [no_upload|]. intros; constructor.
Qed.

Lemma resolveSource_no_upload env job bs bucket path :
  ~ In (CUpload bucket path) (callsOf (resolveSource env job bs)).
Proof.
  pose proof (resolveSource_lookups env job bs) as Hlookups.
  rewrite forallb_forall in Hlookups. intros Hin.
  specialize (Hlookups _ Hin). discriminate Hlookups.
Qed.

(** X23: every upload of a run of [processImage] goes to the bucket
    [card-images], to the derivative storage path of a variant under
    the hash of the bytes the run fetched, a hash the catalog did not
    hold. *)
Theorem uploads_go_to_derivative_paths env job bs bucket path :
  In (CUpload bucket path) (callsOf (processImage env job bs)) ->
  bucket = config.cardImagesBucket /\
  exists source fetched v,
    bytes (fetchFor env job source) = Some fetched /\
    select_imageBySha256 env (computeSha256 env fetched) = None /\
    path = getDerivativeStoragePath (computeSha256 env fetched) v.
Proof.
  destruct (processImage_anatomy env job bs)
    as [src pre bs1 r' Hres Hlim Hst
       | source pre bs1 Hres Hlim Hok
       | source pre bs1 fetched existingId Hres Hlim Hok Hbytes Hfind
       | source pre bs1 fetched message Hres Hlim Hok Hbytes Hfind Hdec
       | source pre bs1 fetched md verdict classifying Hres Hlim Hok Hbytes Hfind Hdec Hcl];
    pose proof (resolveSource_no_upload env job bs bucket path) as Hpre;
    rewrite Hres in Hpre; unfold callsOf in Hpre; cbn [snd] in Hpre;
    unfold callsOf at 1; cbn [snd]; intros Hin.
  - exfalso. destruct Hin as [Hin | Hin]; [discriminate Hin | exact (Hpre Hin)].
  - exfalso. destruct Hin as [Hin | Hin]; [discriminate Hin|].
    apply in_app_or in Hin. destruct Hin as [Hin | Hin]; [exact (Hpre Hin)|].
    repeat (destruct Hin as [Hin | Hin]; [discriminate Hin|]). destruct Hin.
  - exfalso. destruct Hin as [Hin | Hin]; [discriminate Hin|].
    apply in_app_or in Hin. destruct Hin as [Hin | Hin]; [exact (Hpre Hin)|].
    apply in_app_or in Hin. destruct Hin as [Hin | Hin].
    + repeat (destruct Hin as [Hin | Hin]; [discriminate Hin|]). destruct Hin.
    + destruct (upsert_cardImage env _);
        repeat (destruct Hin as [Hin | Hin]; [discriminate Hin|]); destruct Hin.
  - exfalso. destruct Hin as [Hin | Hin]; [discriminate Hin|].
    apply in_app_or in Hin. destruct Hin as [Hin | Hin]; [exact (Hpre Hin)|].
    repeat (destruct Hin as [Hin | Hin]; [discriminate Hin|]). destruct Hin.
  - change (In (CUpload bucket path)
              (callsOf (after
                 (fetchStarted job :: pre
                  ++ [CFetchImage (sourceUrl job) (sourceNameOf source job);
                      fetchCompleted job (fetchFor env job source) fetched;
                      CFindImageBySha256 (computeSha256 env fetched);
                      CDecodeImage]
                  ++ classifying ++ [validationPassed job md verdict])
                 (tryCatch
                    (persist env job source fetched
                       (contentType (fetchFor env job source))
                       (computeSha256 env fetched) md (fst verdict) (snd verdict))
                    (handler job) bs1)))) in Hin.
    rewrite callsOf_after in Hin. apply in_app_or in Hin. destruct Hin as [Hin | Hin].
    + exfalso. destruct Hin as [Hin | Hin]; [discriminate Hin|].
      apply in_app_or in Hin. destruct Hin as [Hin | Hin]; [exact (Hpre Hin)|].
      apply in_app_or in Hin. destruct Hin as [Hin | Hin].
      { repeat (destruct Hin as [Hin | Hin]; [discriminate Hin|]). destruct Hin. }
      apply in_app_or in Hin. destruct Hin as [Hin | Hin].
      { rewrite classify_verdict in Hcl. injection Hcl as _ <-.
        destruct (shouldRunVisionCheck _ _ _ _);
          repeat (destruct Hin as [Hin | Hin]; [discriminate Hin|]); destruct Hin. }
      repeat (destruct Hin as [Hin | Hin]; [discriminate Hin|]). destruct Hin.
    + pose proof (handled_persist_targets env job source fetched
                    (contentType (fetchFor env job source)) (computeSha256 env fetched)
                    md (fst verdict) (snd verdict) bs1) as Htargets.
      rewrite Forall_forall in Htargets. apply list_elem_of_In in Hin.
      destruct (Htargets _ Hin bucket path eq_refl) as [Hbucket [v Hpath]].
      split; [exact Hbucket|]. exists source, fetched, v. auto.
Qed.

(** * The collage test *)

Lemma edge_ratio_threshold (n : Z) :
  Qltb 0.15 (inject_Z n / inject_Z (160 - 40)) = (19 <=? n).
Proof.
  change (160 - 40) with 120.
  unfold Qltb, Qle_bool, Qdiv, Qmult, Qinv, inject_Z. cbn [Qnum Qden].
  destruct (19 <=? n) eqn:Hn.
  - apply negb_true_iff, Z.leb_gt. apply Z.leb_le in Hn. lia.
  - apply negb_false_iff, Z.leb_le. apply Z.leb_gt in Hn. lia.
Qed.

(** X24: for an image with dimensions, [detectCollage] answers yes
    exactly when the aspect ratio is above 1.5 or below 0.4, or the edge
    image, asked for at the height [Math.round(200 / aspectRatio)] as the
    doubles give it, was computed and at least 19 of its 120 middle
    columns have a mean edge strength above 100; when the image library
    throws and the aspect ratio is within bounds the answer is no. *)
Theorem detectCollage_needs_nineteen_columns w h fmt sobel :
  w <> 0 -> h <> 0 ->
  let aspectRatio := getAspectRatio w h in
  detectCollage (Metadata (Some w) (Some h) fmt) sobel
  = (Qltb 1.5 aspectRatio || Qltb aspectRatio 0.4
     || match collageHeight w h with
        | Int rows =>
            match sobel rows with
            | Some edges => 19 <=? strongEdgeColumns edges rows
            | None => false
            end
        | PlusInfinity | MinusInfinity | NotANumber => false
        end).
Proof.
  intros Hw Hh. cbn zeta. unfold detectCollage. cbn [truthy_num default].
  apply Z.eqb_neq in Hw, Hh. rewrite Hw, Hh. cbn [negb orb]. unfold Datatypes.id.
  destruct (Qltb 1.5 (getAspectRatio w h) || Qltb (getAspectRatio w h) 0.4);
    [reflexivity|]. cbn [orb].
  destruct (collageHeight w h) as [rows | | |]; try reflexivity.
  destruct (sobel rows) as [edges|]; [|reflexivity].
  apply edge_ratio_threshold.
Qed.

(** In an edge image of one value the sum of a column is that value times
    the number of rows. *)
Lemma columnSum_uniform v h x :
  0 <= h -> 0 <= x < 200 -> columnSum (uniformEdges v h) 200 h x = Some (v * h).
Proof.
  intros Hh Hx. unfold columnSum.
  assert (Hrows : forall n : nat,
             Z.of_nat n <= h ->
             fold_left (fun acc y =>
                          match acc, uniformEdges v h !! Z.to_nat (y * 200 + x) with
                          | Some s, Some e => Some (s + e)
                          | _, _ => None
                          end)
               (seqZ 0 (Z.of_nat n)) (Some 0)
             = Some (v * Z.of_nat n)).
  { induction n as [|n IH]; intros Hn.
    - change (Z.of_nat 0) with 0. rewrite Z.mul_0_r. reflexivity.
    - rewrite seqZ_S, fold_left_app, IH by lia. cbn [fold_left].
      unfold uniformEdges. rewrite lookup_replicate_2 by lia. f_equal. lia. }
  specialize (Hrows (Z.to_nat h)). rewrite Z2Nat.id in Hrows by exact Hh.
  apply Hrows. lia.
Qed.

Lemma filter_keeps_all (P : Z -> Prop) `{forall x, Decision (P x)} (l : list Z) :
  Forall P l -> filter P l = l.
Proof.
  induction 1 as [|x l Hx _ IH]; [reflexivity|].
  rewrite filter_cons_True by exact Hx. rewrite IH. reflexivity.
Qed.

Lemma filter_keeps_none (P : Z -> Prop) `{forall x, Decision (P x)} (l : list Z) :
  Forall (fun x => ~ P x) l -> filter P l = [].
Proof.
  induction 1 as [|x l Hx _ IH]; [reflexivity|].
  rewrite filter_cons_False by exact Hx. exact IH.
Qed.

(** Every middle column of such an image is strong, or none is. *)
Lemma strongEdgeColumns_uniform v h :
  0 <= h ->
  strongEdgeColumns (uniformEdges v h) h
  = if Qltb 100 (inject_Z (v * h) / inject_Z h) then 120 else 0.
Proof.
  intros Hh. unfold strongEdgeColumns.
  destruct (Qltb 100 (inject_Z (v * h) / inject_Z h)) eqn:Hstrong.
  - rewrite filter_keeps_all; [rewrite length_seqZ; reflexivity|].
    apply Forall_seqZ. intros x Hx. rewrite columnSum_uniform by lia. exact Hstrong.
  - rewrite filter_keeps_none; [reflexivity|].
    apply Forall_seqZ. intros x Hx. rewrite columnSum_uniform by lia.
    rewrite Hstrong. discriminate.
Qed.

(** The height of the edge image is the rounding of a double: for a
    400 x 367 image the quotient is just below 183.5 and the height 183,
    where the exact quotient is 183.5 and would round to 184. *)
Example collageHeight_rounds_the_double :
  collageHeight 400 367 = Int 183 /\
  Qfloor (200 / getAspectRatio 400 367 + (1 # 2)) = 184.
Proof. split; vm_compute; reflexivity. Qed.

(** * Hues and known error payloads *)

(** X25: a pixel whose red channel is the largest and whose green is
    below its blue has a hue between -60 and 0, the sign of the
    remainder being that of the dividend; its bucket index is negative
    and the twelve counters of the histogram stay as they are. *)
Theorem negative_hues_leave_the_histogram (hist : list Z) p red green blue :
  r p = Some red -> g p = Some green -> b p = Some blue ->
  blue <= red -> green < blue ->
  exists hue,
    rgbToHue p = Some hue /\ (-60 <= hue)%Q /\ (hue < 0)%Q /\
    bumpHistogram hist (rgbToHue p) = hist.
Proof.
  intros Hr Hg Hb Hmax Hlt. unfold rgbToHue. rewrite Hr, Hg, Hb. cbv zeta.
  replace (Z.max (Z.max red green) blue) with red by lia.
  replace (Z.min (Z.min red green) blue) with green by lia.
  destruct (red - green =? 0) eqn:Hdelta; [apply Z.eqb_eq in Hdelta; lia|].
  rewrite Z.eqb_refl.
  destruct (ratio_bounds (green - blue) (red - green)) as [Hlo _]; [lia | lia |].
  assert (Hneg : (inject_Z (green - blue) / inject_Z (red - green) < 0)%Q).
  { apply Qlt_shift_div_r.
    - change 0%Q with (inject_Z 0). rewrite <- Zlt_Qlt. lia.
    - rewrite Qmult_0_l. change 0%Q with (inject_Z 0). rewrite <- Zlt_Qlt. lia. }
  assert (Hrem : (rem6 (inject_Z (green - blue) / inject_Z (red - green))
                  == inject_Z (green - blue) / inject_Z (red - green))%Q)
    by (apply rem6_small; lra).
  eexists. split; [reflexivity|].
  assert (Hhue : (-60 <= Qred (rem6 (inject_Z (green - blue) / inject_Z (red - green)) * 60)
                  /\ Qred (rem6 (inject_Z (green - blue) / inject_Z (red - green)) * 60) < 0)%Q).
  { rewrite Qred_correct, Hrem. split; lra. }
  split; [apply Hhue|]. split; [apply Hhue|].
  unfold bumpHistogram.
  set (hue := Qred (rem6 (inject_Z (green - blue) / inject_Z (red - green)) * 60)) in *.
  assert (Hfloor : Qfloor (hue / 30) < 0).
  { assert (H30 : (hue / 30 * 30 == hue)%Q) by (apply Qdiv_mult_l; discriminate).
    pose proof (Qfloor_le (hue / 30)) as Hle.
    assert (Hq : (inject_Z (Qfloor (hue / 30)) < inject_Z 0)%Q).
    { change (inject_Z 0) with 0%Q. lra. }
    rewrite <- Zlt_Qlt in Hq. exact Hq. }
  apply Z.ltb_lt in Hfloor. rewrite Hfloor. reflexivity.
Qed.

(** X26: [isKnownErrorPayload] answers yes exactly for the source
    [pokemontcg_api] and a body of 186316 bytes. *)
Theorem only_the_listed_payload_is_rejected fetched sourceName :
  isKnownErrorPayload fetched sourceName = true <->
  sourceName = "pokemontcg_api"%string /\ Zlength_bytes fetched = 186316.
Proof.
  unfold isKnownErrorPayload, KNOWN_ERROR_PAYLOADS.
  destruct (decide (sourceName = "pokemontcg_api"%string)) as [->|Hne].
  - rewrite lookup_singleton_eq. cbn. rewrite orb_false_r, Z.eqb_eq. intuition.
  - rewrite lookup_singleton_ne by (intros Heq; apply Hne; symmetry; exact Heq).
    split; [discriminate | intros [Heq _]; contradiction].
Qed.

(** * Evaluations of the further properties *)

Lemma buckets_stay_in_range_witness :
  let bs : gmap string TokenBucket := {[ "s1"%string := drainedBucket ]} in
  0 <= 5 /\
  (forall k b, bs !! k = Some b -> bucketInRange b) /\
  (forall k b, initBucket "s1" 5 0 bs !! k = Some b -> bucketInRange b) /\
  (forall k b, snd (tryAcquire "s1" 450 bs) !! k = Some b -> bucketInRange b).
Proof.
  intros bs.
  assert (H1 : 0 <= 5) by lia.
  assert (H2 : forall k b, bs !! k = Some b -> bucketInRange b).
  { intros k b Hb. apply lookup_singleton_Some in Hb. destruct Hb as [_ <-].
    unfold bucketInRange. simpl. lia. }
  exact (conj H1 (conj H2 (buckets_stay_in_range "s1" 5 0 450 bs H1 H2))).
Defined.

Lemma tryAcquire_other_sources_witness :
  let bs : gmap string TokenBucket := {[ "s1"%string := drainedBucket ]} in
  "s2"%string <> "s1"%string /\
  snd (tryAcquire "s1" 450 bs) !! "s2"%string = bs !! "s2"%string /\
  dom (snd (tryAcquire "s1" 450 bs)) = dom bs.
Proof.
  intros bs.
  assert (H1 : "s2"%string <> "s1"%string) by discriminate.
  exact (conj H1 (tryAcquire_other_sources "s1" "s2" 450 bs H1)).
Defined.



Lemma sweep_drops_only_idle_witness :
  let bs : gmap string TokenBucket := {[ "s1"%string := drainedBucket ]} in
  bs !! "s1"%string = Some drainedBucket /\
  (70000 - lastRefill drainedBucket <= CACHE_DURATION_MS ->
   sweep 70000 bs !! "s1"%string = Some drainedBucket) /\
  (CACHE_DURATION_MS < 70000 - lastRefill drainedBucket ->
   sweep 70000 bs !! "s1"%string = None /\
   forall later, tryAcquire "s1" later (sweep 70000 bs) = (true, sweep 70000 bs)).
Proof.
  intros bs.
  assert (H1 : bs !! "s1"%string = Some drainedBucket) by apply lookup_singleton_eq.
  exact (conj H1 (sweep_drops_only_idle 70000 bs "s1" drainedBucket H1)).
Defined.

Lemma processImage_failure_logged_witness :
  let run := processImage (failingUploadEnv 0) sampleJob ∅ in
  let r := result failed None (Some "Upload failed: bucket not found"%string)
             None None None in
  outcomeOf run = Returned r /\
  status r = failed /\
  exists type st,
    last (callsOf run) = Some (failureEvent sampleJob type (error r) st) /\
    (type = "fetch_failed"%string \/ type = "validation_failed"%string).
Proof.
  intros run r.
  assert (H1 : outcomeOf run = Returned r) by (vm_compute; reflexivity).
  assert (H2 : status r = failed) by reflexivity.
  exact (conj H1 (conj H2
           (processImage_failure_logged (failingUploadEnv 0) sampleJob ∅ r H1 H2))).
Defined.

Lemma decodeImage_accepts_sound_witness :
  let m := Metadata (Some 734) (Some 1024) (Some "jpeg"%string) in
  decodeImage m sampleBytes = inl sampleMetadata /\
  width sampleMetadata <> 0 /\ height sampleMetadata <> 0 /\
  width sampleMetadata * height sampleMetadata <= config.maxImagePixels /\
  size sampleMetadata = Zlength_bytes sampleBytes /\
  truthy (format sampleMetadata) = true /\
  m = Metadata (Some (width sampleMetadata)) (Some (height sampleMetadata))
        (Some "jpeg"%string).
Proof.
  intros m.
  assert (H1 : decodeImage m sampleBytes = inl sampleMetadata) by (vm_compute; reflexivity).
  exact (conj H1 (decodeImage_accepts_sound m sampleBytes sampleMetadata H1)).
Defined.



Lemma image_row_only_for_new_decoded_bytes_witness :
  let env := sampleEnv sampleSource 0 None "FRONT" in
  let run := processImage env sampleJob ∅ in
  In (CCreateImageRecord sampleRecord) (callsOf run) /\
  exists source pre bs1 fetched md verdict classifying,
    resolveSource env sampleJob ∅ = (Returned source, ∅, pre) /\
    bytes (fetchFor env sampleJob source) = Some fetched /\
    select_imageBySha256 env (computeSha256 env fetched) = None /\
    decodeImage (sharp_metadata env fetched) fetched = inl md /\
    classify env sampleJob (trustTierOf source sampleJob) fetched md bs1
    = (Returned verdict, bs1, classifying) /\
    sampleRecord = imageRecordOf fetched (contentType (fetchFor env sampleJob source))
                     (computeSha256 env fetched) md (fst verdict) (snd verdict) /\
    imageRowsCreated (callsOf run) = [sampleRecord].
Proof.
  intros env run.
  assert (H1 : In (CCreateImageRecord sampleRecord) (callsOf run)) by find_call.
  exact (conj H1 (image_row_only_for_new_decoded_bytes env sampleJob ∅ sampleRecord H1)).
Defined.

Lemma uploads_go_to_derivative_paths_witness :
  let env := sampleEnv sampleSource 0 None "FRONT" in
  let run := processImage env sampleJob ∅ in
  In (CUpload "card-images" "derivatives/ab/ab12cd34/thumb.webp") (callsOf run) /\
  "card-images"%string = config.cardImagesBucket /\
  exists source fetched v,
    bytes (fetchFor env sampleJob source) = Some fetched /\
    select_imageBySha256 env (computeSha256 env fetched) = None /\
    "derivatives/ab/ab12cd34/thumb.webp"%string
    = getDerivativeStoragePath (computeSha256 env fetched) v.
Proof.
  intros env run.
  assert (H1 : In (CUpload "card-images" "derivatives/ab/ab12cd34/thumb.webp")
                 (callsOf run)) by find_call.
  exact (conj H1 (uploads_go_to_derivative_paths env sampleJob ∅ "card-images"
                    "derivatives/ab/ab12cd34/thumb.webp" H1)).
Defined.

Lemma detectCollage_needs_nineteen_columns_witness :
  let edged := fun rows : Z => Some (uniformEdges 255 rows) in
  let blank := fun rows : Z => Some (uniformEdges 0 rows) in
  400 <> 0 /\ 367 <> 0 /\
  collageHeight 400 367 = Int 183 /\
  strongEdgeColumns (uniformEdges 255 183) 183 = 120 /\
  strongEdgeColumns (uniformEdges 0 183) 183 = 0 /\
  detectCollage (Metadata (Some 400) (Some 367) None) edged = true /\
  detectCollage (Metadata (Some 400) (Some 367) None) blank = false.
Proof.
  intros edged blank.
  assert (H1 : 400 <> 0) by lia.
  assert (H2 : 367 <> 0) by lia.
  assert (H3 : collageHeight 400 367 = Int 183) by (vm_compute; reflexivity).
  assert (H4 : strongEdgeColumns (uniformEdges 255 183) 183 = 120)
    by (rewrite strongEdgeColumns_uniform by lia; reflexivity).
  assert (H5 : strongEdgeColumns (uniformEdges 0 183) 183 = 0)
    by (rewrite strongEdgeColumns_uniform by lia; reflexivity).
  split; [exact H1|]. split; [exact H2|]. split; [exact H3|].
  split; [exact H4|]. split; [exact H5|]. split.
  - rewrite (detectCollage_needs_nineteen_columns 400 367 None edged H1 H2).
    cbn zeta. rewrite H3. unfold edged. rewrite H4. reflexivity.
  - rewrite (detectCollage_needs_nineteen_columns 400 367 None blank H1 H2).
    cbn zeta. rewrite H3. unfold blank. rewrite H5. reflexivity.
Defined.

Lemma negative_hues_leave_the_histogram_witness :
  let p := {| r := Some 255; g := Some 0; b := Some 100 |} in
  r p = Some 255 /\ g p = Some 0 /\ b p = Some 100 /\ 100 <= 255 /\ 0 < 100 /\
  exists hue,
    rgbToHue p = Some hue /\ (-60 <= hue)%Q /\ (hue < 0)%Q /\
    bumpHistogram (replicate 12 0) (rgbToHue p) = replicate 12 0.
Proof.
  intros p.
  assert (H1 : r p = Some 255) by reflexivity.
  assert (H2 : g p = Some 0) by reflexivity.
  assert (H3 : b p = Some 100) by reflexivity.
  assert (H4 : 100 <= 255) by lia.
  assert (H5 : 0 < 100) by lia.
  exact (conj H1 (conj H2 (conj H3 (conj H4 (conj H5
           (negative_hues_leave_the_histogram (replicate 12 0) p 255 0 100
              H1 H2 H3 H4 H5)))))).
Defined.
